(** * Reportify: a shallow embedding of the API, the report composer and the
      mock ASR service, with the properties of their specification.

    The development follows the TypeScript sources, one module each:
    - [JsString]: the string primitives of the JavaScript runtime the code
      calls ([toLowerCase], [includes], [startsWith], [join], [slice],
      [indexOf], [split]);
    - [Composer]: [services/reportComposer] ([generatePARNReport]);
    - [Store]: [database/mock-db] ([MockDatabase] and its seed data) and the
      tables of the schema with the ORM statements the routes issue;
    - [MockDb]: the members of the mock database, seen from a handler;
    - [Auth]: [middleware/auth] ([authenticate], [requireRole]);
    - [Reports], [Sessions], [Exports]: the route handlers;
    - [Queue]: [TranscriptionQueue] of the ASR service;
    - [Regex], [ASR]: the pattern matcher behind [matchAll], and
      [ASRProcessor].
    The properties come after the definitions, a section per component,
    followed by the handlers and services run on concrete inputs.

    Conventions.  JavaScript strings are sequences of code units; here a code
    unit is an 8-bit [ascii] (the Latin-1 range).  Dates are milliseconds
    since the epoch in [Z].  Values that the runtime draws from outside the
    program (the clock, fresh keys, random numbers, the outcome of token
    verification) are arguments of the functions that consume them.  A
    handler is a function from the database to the database and the reply;
    handlers run one after the other.  The routes of exports and users
    import the database of the schema; their ORM statements
    ([db.query...findFirst], [db.insert], [db.update]) are read over its
    tables: [findFirst] is the first row that satisfies the condition,
    [insert] appends a row whose primary key must be new, [update] rewrites
    the rows that satisfy the condition, and a statement throws when the
    database refuses a parameter.  The routes of reports and sessions bind
    [db] to the mock database: those of their handlers that call its
    methods are read over its arrays, and those written against the ORM
    throw at their first statement, since the mock has no such members. *)

From Stdlib Require Import String Ascii List ZArith QArith Lia Bool Arith Sorted.
From stdpp Require Import gmap strings list pretty.

Import ListNotations.
Local Open Scope string_scope.

(* ===================================================================== *)
(** * JavaScript string primitives *)
(* ===================================================================== *)

Module JsString.

(** Code units as numbers. *)
Definition code (c : ascii) : nat := nat_of_ascii c.

Definition in_range (lo hi : nat) (c : ascii) : bool :=
  (lo <=? code c)%nat && (code c <=? hi)%nat.

Definition is_upper (c : ascii) : bool := in_range 65 90 c.
Definition is_lower (c : ascii) : bool := in_range 97 122 c.
Definition is_digit (c : ascii) : bool := in_range 48 57 c.

(** [String.prototype.toLowerCase] on one code unit: A-Z, and the Latin-1
    capitals U+00C0..U+00DE without the multiplication sign U+00D7.  Within
    this range the length of a string is kept; beyond it the runtime may
    lengthen a string (U+0130 becomes two code units), so no property below
    relies on the length of a lowercased string. *)
Definition lower_char (c : ascii) : ascii :=
  if is_upper c || (in_range 192 222 c && negb (code c =? 215)%nat)
  then ascii_of_nat (code c + 32)
  else c.

Fixpoint toLowerCase (s : string) : string :=
  match s with
  | EmptyString => EmptyString
  | String c s' => String (lower_char c) (toLowerCase s')
  end.

(** [s.startsWith(p)]. *)
Fixpoint startsWith (p s : string) : bool :=
  match p, s with
  | EmptyString, _ => true
  | String _ _, EmptyString => false
  | String a p', String b s' => Ascii.eqb a b && startsWith p' s'
  end.

(** [s.includes(needle)]: some suffix of [s] starts with [needle]. *)
Fixpoint includes (needle s : string) : bool :=
  startsWith needle s ||
  match s with
  | EmptyString => false
  | String _ s' => includes needle s'
  end.

(** [s.indexOf(needle)], -1 when [needle] does not occur. *)
Fixpoint indexOf_from (needle s : string) (i : Z) : Z :=
  if startsWith needle s then i
  else match s with
       | EmptyString => (-1)%Z
       | String _ s' => indexOf_from needle s' (i + 1)
       end.

Definition indexOf (needle s : string) : Z := indexOf_from needle s 0.

(** [xs.join(sep)]. *)
Fixpoint join (sep : string) (xs : list string) : string :=
  match xs with
  | [] => EmptyString
  | [x] => x
  | x :: rest => x ++ sep ++ join sep rest
  end.

(** [s.slice(a, b)]: negative offsets count from the end, both are clamped
    to the string, and an empty string results when the range is empty. *)
Definition clamp_index (n i : Z) : Z :=
  if (i <? 0)%Z then Z.max (n + i) 0 else Z.min i n.

Definition slice (s : string) (a b : Z) : string :=
  let n := Z.of_nat (String.length s) in
  let from := clamp_index n a in
  let to := clamp_index n b in
  String.substring (Z.to_nat from) (Z.to_nat (to - from)) s.

(** White space of the [\s] class within the Latin-1 range: TAB, LF, VT, FF,
    CR, SPACE and NO-BREAK SPACE. *)
Definition is_space (c : ascii) : bool :=
  in_range 9 13 c || (code c =? 32)%nat || (code c =? 160)%nat.

(** Word characters of [\w] (and of [\b]): letters, digits and underscore. *)
Definition is_word (c : ascii) : bool :=
  is_upper c || is_lower c || is_digit c || (code c =? 95)%nat.

(** [s.split(/\s+/)]: [cur] is the piece being read (reversed), [in_gap]
    tells that the previous code unit was white space. *)
Fixpoint split_ws_go (s : string) (cur : list ascii) (in_gap : bool) : list string :=
  match s with
  | EmptyString => [string_of_list_ascii (rev cur)]
  | String c s' =>
      if is_space c then
        if in_gap then split_ws_go s' cur true
        else string_of_list_ascii (rev cur) :: split_ws_go s' [] true
      else split_ws_go s' (c :: cur) false
  end.

Definition split_ws (s : string) : list string := split_ws_go s [] false.

(** [s.split(' ')]: the pieces between single spaces. *)
Fixpoint split_space_go (s : string) (cur : list ascii) : list string :=
  match s with
  | EmptyString => [string_of_list_ascii (rev cur)]
  | String c s' =>
      if (code c =? 32)%nat
      then string_of_list_ascii (rev cur) :: split_space_go s' []
      else split_space_go s' (c :: cur)
  end.

Definition split_space (s : string) : list string := split_space_go s [].

(** Truthiness of a string value: only the empty string is falsy. *)
Definition truthy (s : string) : bool :=
  match s with EmptyString => false | _ => true end.

(** [a || b] on an optional string: [undefined] and [""] give [b]. *)
Definition or_default (a : option string) (b : string) : string :=
  match a with
  | Some s => if truthy s then s else b
  | None => b
  end.

End JsString.

(* ===================================================================== *)
(** * services/reportComposer: the PAR-N report of a session *)
(* ===================================================================== *)

Module Composer.

Import JsString.

(** [payload: any]: the three properties the composer reads, each absent or
    a string. *)
Record Payload := mkPayload {
  p_text : option string;
  p_action : option string;
  p_target : option string
}.

(** [interface Event]. *)
Record Event := mkEvent {
  e_id : string;
  e_timestamp : Z;
  e_type : string;
  e_payload : option Payload;
  e_speakerTag : option string;
  e_confidence : option Z
}.

(** [interface Session]. *)
Record Session := mkSession {
  s_id : string;
  s_customerId : option string;
  s_customerName : option string;
  s_startedAt : Z;
  s_endedAt : option Z;
  s_events : list Event
}.

Inductive Priority := low | medium | high.

Record Action := mkAction {
  a_step : nat;
  a_description : string;
  a_timestamp : option string;
  a_screenshot : option string
}.

Record NextStep := mkNextStep {
  n_description : string;
  n_owner : option string;
  n_dueDate : option string;
  n_priority : Priority
}.

Record TimelineEntry := mkTimelineEntry {
  t_timestamp : string;
  t_event : string;
  t_details : option string
}.

(** [interface PARNReport]. *)
Record PARNReport := mkPARNReport {
  problem : string;
  actions : list Action;
  result : string;
  nextSteps : list NextStep;
  tags : list string;
  timeline : list TimelineEntry
}.

(** The object built for every [ui_] event. *)
Record UiEvent := mkUiEvent {
  u_timestamp : Z;
  u_action : string;
  u_target : string
}.

(** [e.payload?.text] and its siblings. *)
Definition payload_text (e : Event) : option string :=
  match e_payload e with Some p => p_text p | None => None end.
Definition payload_action (e : Event) : option string :=
  match e_payload e with Some p => p_action p | None => None end.
Definition payload_target (e : Event) : option string :=
  match e_payload e with Some p => p_target p | None => None end.

(** [.filter(Boolean)] over the mapped texts. *)
Fixpoint filter_truthy (xs : list (option string)) : list string :=
  match xs with
  | [] => []
  | Some s :: rest => if truthy s then s :: filter_truthy rest else filter_truthy rest
  | None :: rest => filter_truthy rest
  end.

Definition transcripts_of (events : list Event) : list string :=
  filter_truthy
    (map payload_text
       (List.filter (fun e => String.eqb (e_type e) "asr_transcript") events)).

Definition uiEvents_of (events : list Event) : list UiEvent :=
  map (fun e => mkUiEvent (e_timestamp e)
                  (or_default (payload_action e) "Unknown action")
                  (or_default (payload_target e) "Unknown target"))
      (List.filter (fun e => startsWith "ui_" (e_type e)) events).

(** [xs.slice(-n)]: the last [n] elements. *)
Definition last_n {A} (n : nat) (xs : list A) : list A :=
  skipn (length xs - n) xs.

Definition extractProblem (earlyTranscripts : list string) : string :=
  let text := toLowerCase (join " " earlyTranscripts) in
  if includes "wifi" text || includes "wi-fi" text || includes "network" text then
    "Customer experiencing WiFi connectivity issues."
  else if includes "password" text || includes "login" text || includes "access" text then
    "Customer unable to access account due to authentication issues."
  else if includes "printer" text || includes "print" text then
    "Customer experiencing printer connectivity/functionality issues."
  else if includes "slow" text || includes "performance" text then
    "Customer reporting slow system performance."
  else if includes "email" text || includes "outlook" text then
    "Customer experiencing email client issues."
  else
    "Customer reported technical issue requiring assistance.".

Definition extractResult (lateTranscripts : list string) : string :=
  let text := toLowerCase (join " " lateTranscripts) in
  if includes "working" text || includes "fixed" text || includes "resolved" text then
    "Issue successfully resolved. Customer confirmed functionality is restored."
  else if includes "escalate" text || includes "tier 2" text || includes "specialist" text then
    "Issue requires escalation to specialist team for advanced troubleshooting."
  else if includes "reboot" text || includes "restart" text || includes "later" text then
    "Applied initial troubleshooting steps. Customer to restart system and monitor."
  else
    "Troubleshooting steps completed. Customer to test and report back if issues persist.".

(** The [switch] on [event.action]. *)
Definition describe (event : UiEvent) : string :=
  if String.eqb (u_action event) "click" then "Clicked on " ++ u_target event
  else if String.eqb (u_action event) "type" then "Entered information in " ++ u_target event
  else if String.eqb (u_action event) "navigate" then "Navigated to " ++ u_target event
  else "Performed " ++ u_action event ++ " on " ++ u_target event.

(** The part of [s] before the first [c]: [s.split(c)[0]]. *)
Fixpoint before_char (c : ascii) (s : string) : string :=
  match s with
  | EmptyString => EmptyString
  | String d s' => if Ascii.eqb d c then EmptyString else String d (before_char c s')
  end.

(** [xs.replace(a, b)] for single code units: the first occurrence only. *)
Fixpoint replace_first (a b : ascii) (s : string) : string :=
  match s with
  | EmptyString => EmptyString
  | String d s' => if Ascii.eqb d a then String b s' else String d (replace_first a b s')
  end.

(** [[...new Set(tags)]]: first occurrences, in order. *)
Fixpoint dedupe (seen xs : list string) : list string :=
  match xs with
  | [] => []
  | x :: rest =>
      if existsb (String.eqb x) seen then dedupe seen rest
      else x :: dedupe (x :: seen) rest
  end.

Section WithClock.

(** [Date.prototype.toISOString], of the runtime. *)
Variable toISOString : Z -> string.

(** The [forEach] of [generateActions]: [index] is the position in
    [uiEvents], [stepNumber] the counter the loop increments. *)
Fixpoint actions_loop (uiEvents : list UiEvent) (index stepNumber : nat) : list Action :=
  match uiEvents with
  | [] => []
  | event :: rest =>
      if (index <? 10)%nat then
        mkAction stepNumber (describe event) (Some (toISOString (u_timestamp event))) None
          :: actions_loop rest (S index) (S stepNumber)
      else actions_loop rest (S index) stepNumber
  end.

Definition default_actions : list Action :=
  [ mkAction 1 "Verified customer's current system status" None None;
    mkAction 2 "Gathered additional information about the issue" None None;
    mkAction 3 "Applied recommended troubleshooting steps" None None ].

Definition generateActions (uiEvents : list UiEvent) (transcripts : list string) : list Action :=
  let actions := actions_loop uiEvents 0 1 in
  if (length actions =? 0)%nat then actions ++ default_actions else actions.

(** [new Date(t).toISOString().split('T')[0]]. *)
Definition iso_day (t : Z) : string := before_char "T"%char (toISOString t).

Definition hours (h : Z) : Z := (h * 60 * 60 * 1000)%Z.

(** [generateNextSteps]; [now] is [Date.now()]. *)
Definition generateNextSteps (now : Z) (problem result : string) : list NextStep :=
  if includes "escalation" result || includes "specialist" result then
    [ mkNextStep "Escalate to Tier 2 support for advanced troubleshooting"
        (Some "T2 Queue") (Some (iso_day (now + hours 24))) high ]
  else if includes "resolved" result then
    [ mkNextStep "Follow up with customer in 24 hours to ensure continued functionality"
        (Some "T1 Queue") (Some (iso_day (now + hours 24))) low ]
  else
    [ mkNextStep "Monitor for customer callback within 48 hours"
        (Some "T1 Queue") (Some (iso_day (now + hours 48))) medium ].

Definition push_if (b : bool) (tag : string) (tags : list string) : list string :=
  if b then tags ++ [tag] else tags.

Definition extractTags (transcripts : list string) (uiEvents : list UiEvent) : list string :=
  let text := toLowerCase (join " " transcripts) in
  let tags := [] in
  let tags := push_if (includes "wifi" text || includes "network" text) "network" tags in
  let tags := push_if (includes "printer" text) "printer" tags in
  let tags := push_if (includes "email" text || includes "outlook" text) "email" tags in
  let tags := push_if (includes "windows" text || includes "mac" text) "os" tags in
  let tags := push_if (includes "password" text || includes "login" text) "authentication" tags in
  let tags := push_if (includes "urgent" text || includes "critical" text) "high-priority" tags in
  let tags := push_if (includes "slow" text || includes "performance" text) "performance" tags in
  let tags := push_if (includes "resolved" text || includes "fixed" text) "resolved" tags in
  let tags := push_if (includes "escalate" text) "escalated" tags in
  dedupe [] tags.

Definition formatEventForTimeline (event : Event) : string :=
  if String.eqb (e_type event) "asr_transcript" then
    or_default (e_speakerTag event) "Speaker" ++ " spoke"
  else if String.eqb (e_type event) "ui_click" then "UI interaction"
  else if String.eqb (e_type event) "window_focus" then "Window changed"
  else replace_first "_"%char " "%char (e_type event).

(** [e.payload?.text || e.payload?.target || undefined]. *)
Definition timeline_details (e : Event) : option string :=
  match payload_text e with
  | Some s => if truthy s then Some s
              else match payload_target e with
                   | Some t => if truthy t then Some t else None
                   | None => None
                   end
  | None => match payload_target e with
            | Some t => if truthy t then Some t else None
            | None => None
            end
  end.

Definition createTimeline (events : list Event) : list TimelineEntry :=
  map (fun e => mkTimelineEntry (toISOString (e_timestamp e))
                  (formatEventForTimeline e) (timeline_details e))
      (firstn 20
         (List.filter (fun e => existsb (String.eqb (e_type e))
                             ["asr_transcript"; "ui_click"; "window_focus"])
                 events)).

(** [generatePARNReport(session)]; [now] is the clock read by
    [generateNextSteps]. *)
Definition generatePARNReport (now : Z) (session : Session) : PARNReport :=
  let transcripts := transcripts_of (s_events session) in
  let uiEvents := uiEvents_of (s_events session) in
  let problem := extractProblem (firstn 5 transcripts) in
  let actions := generateActions uiEvents transcripts in
  let result := extractResult (last_n 3 transcripts) in
  let nextSteps := generateNextSteps now problem result in
  let tags := extractTags transcripts uiEvents in
  let timeline := createTimeline (s_events session) in
  mkPARNReport problem actions result nextSteps tags timeline.

End WithClock.

End Composer.

(* ===================================================================== *)
(** * The stores: mock database and relational tables *)
(* ===================================================================== *)

Module Store.

(** Rows of the schema.  Columns holding JSON that no handler inspects are
    kept as optional text; instants are milliseconds since the epoch. *)
Record User := mkUser {
  usr_id : string;
  usr_tenantId : string;
  usr_email : string;
  usr_name : string;
  usr_role : string;
  usr_isActive : bool;
  usr_lastLoginAt : option Z;
  usr_createdAt : Z;
  usr_updatedAt : Z
}.

Record SessionRow := mkSessionRow {
  ses_id : string;
  ses_tenantId : string;
  ses_agentId : string;
  ses_customerId : option string;
  ses_customerName : option string;
  ses_status : string;
  ses_sources : option string;
  ses_consentFlags : option string;
  ses_mediaUris : option string;
  ses_startedAt : Z;
  ses_endedAt : option Z;
  ses_duration : option Z;
  ses_createdAt : Z;
  ses_updatedAt : Z
}.

Record Report := mkReport {
  rep_id : string;
  rep_sessionId : string;
  rep_tenantId : string;
  rep_problem : option string;
  rep_actions : option (list Composer.Action);
  rep_result : option string;
  rep_nextSteps : option (list Composer.NextStep);
  rep_tags : option (list string);
  rep_timeline : option (list Composer.TimelineEntry);
  rep_redactions : option string;
  rep_editorChanges : option string;
  rep_isCustomerFacing : bool;
  rep_templateId : option string;
  rep_createdAt : Z;
  rep_updatedAt : Z
}.

Record EventRow := mkEventRow {
  ev_id : string;
  ev_sessionId : string;
  ev_timestamp : Z;
  ev_type : string;
  ev_payload : option Composer.Payload;
  ev_speakerTag : option string;
  ev_confidence : option Z;
  ev_createdAt : Z
}.

Record AuditLog := mkAuditLog {
  log_id : string;
  log_tenantId : string;
  log_userId : option string;
  log_action : string;
  log_resourceType : option string;
  log_resourceId : option string;
  log_ipAddress : option string;
  log_userAgent : option string;
  log_metadata : list (string * string);
  log_createdAt : Z
}.

Record ExportMetadata := mkExportMetadata {
  md_template : option string;
  md_fieldMapping : option (list (string * string))
}.

Record ExportRow := mkExportRow {
  exp_id : string;
  exp_reportId : string;
  exp_tenantId : string;
  exp_userId : string;
  exp_target : string;
  exp_format : string;
  exp_status : string;
  exp_externalId : option string;
  exp_deepLink : option string;
  exp_errorMessage : option string;
  exp_metadata : ExportMetadata;
  exp_createdAt : Z;
  exp_updatedAt : Z
}.

(** The tables. *)
Record Db := mkDb {
  users : list User;
  sessions : list SessionRow;
  reports : list Report;
  events : list EventRow;
  auditLogs : list AuditLog;
  exports : list ExportRow
}.

Definition set_sessions (db : Db) (xs : list SessionRow) : Db :=
  mkDb (users db) xs (reports db) (events db) (auditLogs db) (exports db).
Definition set_reports (db : Db) (xs : list Report) : Db :=
  mkDb (users db) (sessions db) xs (events db) (auditLogs db) (exports db).
Definition set_events (db : Db) (xs : list EventRow) : Db :=
  mkDb (users db) (sessions db) (reports db) xs (auditLogs db) (exports db).
Definition set_auditLogs (db : Db) (xs : list AuditLog) : Db :=
  mkDb (users db) (sessions db) (reports db) (events db) xs (exports db).
Definition set_exports (db : Db) (xs : list ExportRow) : Db :=
  mkDb (users db) (sessions db) (reports db) (events db) (auditLogs db) xs.

(** ** class MockDatabase *)

(** [seedData()]: the demo tenant with its users, sessions and reports;
    [now] is the clock at construction. *)
Definition demo_tenant : string := "demo-tenant-1".

Definition seed_users (now : Z) : list User :=
  [ mkUser "user-1" demo_tenant "admin@reportify.com" "Admin User" "admin" true None now now;
    mkUser "user-2" demo_tenant "agent@reportify.com" "Agent Smith" "agent" true None now now;
    mkUser "user-3" demo_tenant "manager@reportify.com" "Manager Johnson" "manager" true None
      now now ].

Definition seed_sessions (now : Z) : list SessionRow :=
  [ mkSessionRow "session-1" demo_tenant "user-2" (Some "customer-1") (Some "John Doe")
      "completed" None None None (now - 3600000)%Z (Some (now - 2400000)%Z) (Some 1200%Z) now now;
    mkSessionRow "session-2" demo_tenant "user-2" (Some "customer-2") (Some "Jane Smith")
      "completed" None None None (now - 7200000)%Z (Some (now - 6300000)%Z) (Some 900%Z) now now ].

Definition seed_reports (now : Z) : list Report :=
  [ mkReport "report-1" "session-1" demo_tenant
      (Some "Customer's laptop would not connect to Wi-Fi network (SSID: Campus-Secure).")
      (Some [ Composer.mkAction 1 "Verified network adapter was enabled in Device Manager"
                (Some "2025-09-15T10:15:00Z") None;
              Composer.mkAction 2 "Forgot and rejoined the wireless network"
                (Some "2025-09-15T10:18:00Z") None;
              Composer.mkAction 3 "Updated Intel AX211 wireless driver to latest version"
                (Some "2025-09-15T10:25:00Z") None;
              Composer.mkAction 4 "Reset network stack using netsh commands"
                (Some "2025-09-15T10:30:00Z") None;
              Composer.mkAction 5 "Validated DHCP lease and internet connectivity"
                (Some "2025-09-15T10:35:00Z") None ])
      (Some "Device successfully connected to Campus-Secure network. Ping to gateway shows <5ms latency. Internet browsing confirmed working.")
      (Some [ Composer.mkNextStep "Monitor connectivity for 24 hours" (Some "T1 Queue")
                (Some "2025-09-16") Composer.low;
              Composer.mkNextStep "If issue recurs, replace network adapter"
                (Some "T2 Hardware") None Composer.medium ])
      (Some ["network"; "wifi"; "driver-update"; "resolved"])
      None None None false None now now;
    mkReport "report-2" "session-2" demo_tenant
      (Some "User unable to access Outlook email, receiving authentication errors.")
      (Some [ Composer.mkAction 1 "Verified user credentials in Azure AD"
                (Some "2025-09-15T09:00:00Z") None;
              Composer.mkAction 2 "Cleared Outlook credential cache"
                (Some "2025-09-15T09:05:00Z") None;
              Composer.mkAction 3 "Re-configured mail profile with OAuth2"
                (Some "2025-09-15T09:10:00Z") None;
              Composer.mkAction 4 "Tested send/receive functionality"
                (Some "2025-09-15T09:15:00Z") None ])
      (Some "Email account successfully configured. User can send and receive emails without authentication errors.")
      (Some [ Composer.mkNextStep "Follow up in 48 hours to ensure continued functionality"
                (Some "T1 Queue") (Some "2025-09-17") Composer.low ])
      (Some ["email"; "outlook"; "authentication"; "resolved"])
      None None None false None now now ].

Definition seed (now : Z) : Db :=
  mkDb (seed_users now) (seed_sessions now) (seed_reports now) [] [] [].


Definition findUserById (db : Db) (id : string) : option User :=
  find (fun u => String.eqb (usr_id u) id) (users db).

Definition findSessionById (db : Db) (id : string) : option SessionRow :=
  find (fun s => String.eqb (ses_id s) id) (sessions db).

Definition findSessionsByTenant (db : Db) (tenantId : string) : list SessionRow :=
  List.filter (fun s => String.eqb (ses_tenantId s) tenantId) (sessions db).

Definition findReportsByTenant (db : Db) (tenantId : string) : list Report :=
  List.filter (fun r => String.eqb (rep_tenantId r) tenantId) (reports db).

Definition findReportById (db : Db) (id : string) : option Report :=
  find (fun r => String.eqb (rep_id r) id) (reports db).

Definition findReportBySessionId (db : Db) (sessionId : string) : option Report :=
  find (fun r => String.eqb (rep_sessionId r) sessionId) (reports db).

(** What [addAuditLog] and the audit inserts are given. *)
Record AuditData := mkAuditData {
  ad_tenantId : string;
  ad_userId : option string;
  ad_action : string;
  ad_resourceType : option string;
  ad_resourceId : option string;
  ad_ipAddress : option string;
  ad_userAgent : option string;
  ad_metadata : list (string * string)
}.

Definition audit_row (id : string) (now : Z) (d : AuditData) : AuditLog :=
  mkAuditLog id (ad_tenantId d) (ad_userId d) (ad_action d) (ad_resourceType d)
    (ad_resourceId d) (ad_ipAddress d) (ad_userAgent d) (ad_metadata d) now.

(** [addAuditLog(logData)]: the id is [audit-${Date.now()}]. *)
Definition addAuditLog (now : Z) (d : AuditData) (db : Db) : Db * AuditLog :=
  let log := audit_row ("audit-" ++ pretty now) now d in
  (set_auditLogs db (auditLogs db ++ [log]), log).

(** ** The ORM over the relational tables *)

(** A statement either returns or throws. *)
Inductive Result (A : Type) :=
| Ok (a : A)
| Throw (message : string).
Arguments Ok {A} a.
Arguments Throw {A} message.

Definition bind {A B} (r : Result A) (k : A -> Result B) : Result B :=
  match r with
  | Ok a => k a
  | Throw m => Throw m
  end.

Notation "'try' x <~ c1 ; c2" := (bind c1 (fun x => c2))
  (at level 10, x name, c1 at level 100, c2 at level 200).

(** [insert(...).values(...).returning()]: the primary key [id], drawn by
    the column default, must be new to the table. *)
Definition insert_row {A} (key : A -> string) (row : A) (table : list A)
  : Result (list A) :=
  if existsb (fun r => String.eqb (key r) (key row)) table
  then Throw "duplicate key value violates unique constraint"
  else Ok (table ++ [row])%list.

(** [update(...).set(...).where(...)]. *)
Definition update_rows {A} (p : A -> bool) (f : A -> A) (table : list A) : list A :=
  map (fun r => if p r then f r else r) table.

(** [db.query.reports.findFirst({ where: and(eq(reports.id, reportId),
    eq(reports.tenantId, tenantId)) })]. *)
Definition report_of_tenant (db : Db) (reportId tenantId : string) : option Report :=
  find (fun r => String.eqb (rep_id r) reportId && String.eqb (rep_tenantId r) tenantId)
       (reports db).

Definition insert_auditLog (id : string) (now : Z) (d : AuditData) (db : Db)
  : Result Db :=
  try t <~ insert_row log_id (audit_row id now d) (auditLogs db);
  Ok (set_auditLogs db t).

(** A reply: [reply.send(payload)] answers 200, [reply.code(c).send({error})]
    answers [c] with the error message. *)
Inductive Response (A : Type) :=
| Send (payload : A)
| Error (status : Z) (error : string).
Arguments Send {A} payload.
Arguments Error {A} status error.

Definition status_of {A} (r : Response A) : Z :=
  match r with
  | Send _ => 200
  | Error c _ => c
  end.

Definition payload_of {A} (r : Response A) : option A :=
  match r with
  | Send a => Some a
  | Error _ _ => None
  end.

End Store.

(* ===================================================================== *)
(** * database/mock-db: the object the routes of reports and sessions call *)
(* ===================================================================== *)

Module MockDb.

Import Store.

(** The names an instance of [MockDatabase] answers to: its five arrays and
    its methods ([private] is checked by the compiler only). *)
Definition members : list string :=
  [ "users"; "sessions"; "reports"; "events"; "auditLogs"; "seedData";
    "findUserByEmail"; "findUserById"; "findUsersByTenant";
    "createSession"; "findSessionsByTenant"; "findSessionById"; "updateSession";
    "createReport"; "findReportsByTenant"; "findReportById"; "findReportBySessionId";
    "updateReport"; "addEvent"; "findEventsBySession";
    "addAuditLog"; "findAuditLogsByTenant" ].

Definition has_member (name : string) : bool := existsb (String.eqb name) members.

(** A statement of a handler that starts [db.name], among [db.query.…],
    [db.insert(…)], [db.update(…)] and [db.delete(…)], with [db] bound to
    [mockDb].  The class declares none of these names, so [db.name] is
    [undefined] and the property read or the call that follows throws; an
    array or a method of the class is no query builder either.  Such a
    statement therefore has no value: it throws, and the [catch] of the
    handler takes over. *)
Definition orm (name : string) : Result Empty_set :=
  Throw (if has_member name
         then "TypeError: db." ++ name ++ " is not a query builder"
         else "TypeError: db." ++ name ++ " is undefined").

End MockDb.

(* ===================================================================== *)
(** * middleware/auth: authenticate and requireRole *)
(* ===================================================================== *)

Module Auth.

Import Store.

(** [interface AuthenticatedUser]; the role is the string the runtime holds,
    one of [agent], [manager], [admin], [auditor] for well-typed users. *)
Record AuthenticatedUser := mkAuthUser {
  au_id : string;
  au_tenantId : string;
  au_email : string;
  au_name : string;
  au_role : string
}.

(** The part of a Fastify request the middleware reads and writes. *)
Record Request := mkRequest {
  req_user : option AuthenticatedUser;
  req_ip : string
}.

(** [reply.code(c).send({ error })]. *)
Record Reply := mkReply {
  reply_code : Z;
  reply_error : string
}.

Definition roles : list string := ["agent"; "manager"; "admin"; "auditor"].

(** [authenticate(request, reply)].  [token] is what [request.jwtVerify()]
    yields: the [userId] of a valid token, or nothing when it throws.  The
    second component is the reply sent, if any; the first is the request as
    the next hook or the handler finds it, and stands for nothing once a
    reply is sent: the request is over then, and what [jwtVerify] left in
    [request.user] (the decoded token) is read by no one. *)
Definition authenticate (db : Db) (token : option string) (request : Request)
  : Request * option Reply :=
  match token with
  | None => (request, Some (mkReply 401 "Invalid token"))
  | Some userId =>
      match findUserById db userId with
      | None => (request, Some (mkReply 401 "Invalid or inactive user"))
      | Some user =>
          if negb (usr_isActive user)
          then (request, Some (mkReply 401 "Invalid or inactive user"))
          else
            (mkRequest
               (Some (mkAuthUser (usr_id user) (usr_tenantId user) (usr_email user)
                        (usr_name user)
                        (JsString.or_default (Some (usr_role user)) "agent")))
               (req_ip request),
             None)
      end
  end.

(** [allowedRoles.includes(role)]. *)
Definition array_includes (xs : list string) (x : string) : bool :=
  existsb (String.eqb x) xs.

(** [requireRole(allowedRoles)(request, reply)].  The hook returns the
    request it leaves behind and the reply it sent, if any; [None] lets the
    request go on to the next handler. *)
Definition requireRole (allowedRoles : list string) (request : Request)
  : Request * option Reply :=
  match req_user request with
  | None => (request, Some (mkReply 401 "Authentication required"))
  | Some u =>
      if negb (array_includes allowedRoles (au_role u))
      then (request, Some (mkReply 403 "Insufficient permissions"))
      else (request, None)
  end.

End Auth.

(* ===================================================================== *)
(** * routes/reports *)
(* ===================================================================== *)

Module Reports.

Import Store Auth.

Record AgentInfo := mkAgentInfo {
  ag_id : string;
  ag_name : string;
  ag_email : string
}.

Definition agent_info (u : User) : AgentInfo :=
  mkAgentInfo (usr_id u) (usr_name u) (usr_email u).

(** The [session] property of a listed report. *)
Record SessionSummary := mkSessionSummary {
  ss_id : string;
  ss_customerId : option string;
  ss_customerName : option string;
  ss_startedAt : Z;
  ss_endedAt : option Z;
  ss_agent : option AgentInfo
}.

(** [{ ...report, session }] of [GET /]. *)
Record ListedReport := mkListedReport {
  lr_report : Report;
  lr_session : option SessionSummary
}.

(** The [session] property of a single report: [{ ...session, agent }]. *)
Record SessionDetail := mkSessionDetail {
  sd_session : SessionRow;
  sd_agent : option AgentInfo
}.

(** [{ ...report, session }] of [GET /:reportId]. *)
Record ViewedReport := mkViewedReport {
  vr_report : Report;
  vr_session : option SessionDetail
}.

(** [session ? db.findUserById(session.agentId) : null]. *)
Definition agent_of (db : Db) (session : option SessionRow) : option User :=
  match session with
  | Some s => findUserById db (ses_agentId s)
  | None => None
  end.

Definition enrich_listed (db : Db) (report : Report) : ListedReport :=
  let session := findSessionById db (rep_sessionId report) in
  let agent := agent_of db session in
  mkListedReport report
    (match session with
     | Some s => Some (mkSessionSummary (ses_id s) (ses_customerId s) (ses_customerName s)
                         (ses_startedAt s) (ses_endedAt s) (option_map agent_info agent))
     | None => None
     end).

(** [GET /]. *)
Definition get_reports (db : Db) (user : AuthenticatedUser) : Response (list ListedReport) :=
  let reportList := findReportsByTenant db (au_tenantId user) in
  Send (map (enrich_listed db) reportList).

(** [GET /:reportId]; [now] is the clock read by [addAuditLog]. *)
Definition get_report (db : Db) (user : AuthenticatedUser) (ip : string)
    (reportId : string) (now : Z) : Db * Response ViewedReport :=
  match findReportById db reportId with
  | None => (db, Error 404 "Report not found")
  | Some report =>
      if negb (String.eqb (rep_tenantId report) (au_tenantId user)) then
        (db, Error 404 "Report not found")
      else
        let session := findSessionById db (rep_sessionId report) in
        let agent := agent_of db session in
        let enrichedReport :=
          mkViewedReport report
            (match session with
             | Some s => Some (mkSessionDetail s (option_map agent_info agent))
             | None => None
             end) in
        let '(db', _) :=
          addAuditLog now
            (mkAuditData (au_tenantId user) (Some (au_id user)) "report_viewed"
               (Some "report") (Some reportId) (Some ip) None [])
            db in
        (db', Send enrichedReport)
  end.

(** [POST /:sessionId/generate].  The file binds [db] to [mockDb]: the first
    statement of the handler, [db.query.sessions.findFirst(…)], throws, and
    the [catch] answers 500.  The statements after it (the check for an
    existing report, the composer, the inserts and the update) are never
    reached. *)
Definition generate (db : Db) (user : AuthenticatedUser) (ip : string)
    (sessionId : string) : Db * Response Report :=
  match MockDb.orm "query" with
  | Ok nothing => match nothing with end
  | Throw _ => (db, Error 500 "Failed to generate report")
  end.

End Reports.

(* ===================================================================== *)
(** * routes/sessions: adding an event *)
(* ===================================================================== *)

Module Sessions.

Import Store Auth.

(** The request body, before validation. *)
Record EventBody := mkEventBody {
  b_timestamp : string;
  b_type : string;
  b_payload : option Composer.Payload;
  b_speakerTag : option string;
  b_confidence : option Z
}.

Definition event_types : list string :=
  [ "asr_transcript"; "asr_word"; "ui_click"; "ui_input_meta"; "window_focus";
    "app_launch"; "net_change"; "ocr_text"; "user_note"; "privacy_pause";
    "privacy_resume" ].

Section WithParser.

(** [z.string().datetime()] followed by [new Date(...)]: the instant a
    well-formed ISO date-time denotes, nothing for any other string. *)
Variable parse_datetime : string -> option Z.

(** [addEventSchema.parse(request.body)]: the parsed instant, or nothing
    when a [ZodError] is thrown. *)
Definition parse_body (b : EventBody) : option Z :=
  match parse_datetime (b_timestamp b) with
  | None => None
  | Some t =>
      if existsb (String.eqb (b_type b)) event_types
         && match b_confidence b with
            | Some c => (0 <=? c)%Z && (c <=? 100)%Z
            | None => true
            end
      then Some t
      else None
  end.

(** [POST /:sessionId/events].  The body is validated first; then the file's
    [db], which is [mockDb], is asked for [db.query.sessions.findFirst(…)],
    which throws an error that is no [ZodError], and the [catch] answers
    500.  The status check and the insert after it are never reached. *)
Definition add_event (db : Db) (user : AuthenticatedUser) (sessionId : string)
    (body : EventBody) : Db * Response EventRow :=
  match parse_body body with
  | None => (db, Error 400 "Validation error")
  | Some timestamp =>
      match MockDb.orm "query" with
      | Ok nothing => match nothing with end
      | Throw _ => (db, Error 500 "Internal server error")
      end
  end.

End WithParser.

End Sessions.

(* ===================================================================== *)
(** * routes/exports: creating an export and its deferred processing *)
(* ===================================================================== *)

Module Exports.

Import Store Auth.

(** The request body, before validation. *)
Record ExportBody := mkExportBody {
  x_reportId : string;
  x_target : string;
  x_format : string;
  x_template : option string;
  x_fieldMapping : option (list (string * string))
}.

Definition targets : list string :=
  ["servicenow"; "jira"; "zendesk"; "pdf"; "docx"; "markdown"].
Definition formats : list string := ["pdf"; "docx"; "markdown"; "json"].

Record ExportResult := mkExportResult {
  externalId : string;
  deepLink : string
}.

(** What [processExport] draws from [Math.random()]: the seven digits of
    [Math.random().toString().substr(2, 7)] and two floored products. *)
Record Draws := mkDraws {
  d_digits : string;
  d_first : Z;
  d_second : Z
}.

(** [processExport(exportId, report, config)]. *)
Definition processExport (draws : Draws) (exportId : string) (report : Report)
    (config : ExportBody) : ExportResult :=
  if String.eqb (x_target config) "servicenow" then
    mkExportResult ("INC" ++ d_digits draws)
      ("https://instance.service-now.com/nav_to.do?uri=incident.do?sys_id=" ++ exportId)
  else if String.eqb (x_target config) "jira" then
    mkExportResult ("HELP-" ++ pretty (d_first draws))
      ("https://company.atlassian.net/browse/HELP-" ++ pretty (d_second draws))
  else if String.eqb (x_target config) "zendesk" then
    mkExportResult (pretty (d_first draws))
      ("https://company.zendesk.com/agent/tickets/" ++ pretty (d_second draws))
  else
    mkExportResult ("file_" ++ exportId ++ "." ++ x_format config)
      ("https://storage.reportify.com/exports/" ++ exportId ++ "." ++ x_format config).

(** The closure handed to [setTimeout]. *)
Record Timer := mkTimer {
  tm_exportId : string;
  tm_report : Report;
  tm_data : ExportBody
}.

Definition has_id (id : string) (e : ExportRow) : bool := String.eqb (exp_id e) id.

(** The two updates of the callback: the [try] branch and the [catch]
    branch. *)
Definition mark_completed (r : ExportResult) (now : Z) (e : ExportRow) : ExportRow :=
  mkExportRow (exp_id e) (exp_reportId e) (exp_tenantId e) (exp_userId e) (exp_target e)
    (exp_format e) "completed" (Some (externalId r)) (Some (deepLink r))
    (exp_errorMessage e) (exp_metadata e) (exp_createdAt e) now.

Definition mark_failed (message : string) (now : Z) (e : ExportRow) : ExportRow :=
  mkExportRow (exp_id e) (exp_reportId e) (exp_tenantId e) (exp_userId e) (exp_target e)
    (exp_format e) "failed" (exp_externalId e) (exp_deepLink e)
    (Some message) (exp_metadata e) (exp_createdAt e) now.

(** The [try]/[catch] of the callback on the outcome of [processExport]. *)
Definition settle (outcome : Result ExportResult) (exportId : string) (now : Z) (db : Db) : Db :=
  match outcome with
  | Ok r => set_exports db (update_rows (has_id exportId) (mark_completed r now) (exports db))
  | Throw message =>
      set_exports db (update_rows (has_id exportId) (mark_failed message now) (exports db))
  end.

(** The callback itself, run when the timer fires. *)
Definition run_timer (tm : Timer) (draws : Draws) (now : Z) (db : Db) : Db :=
  settle (Ok (processExport draws (tm_exportId tm) (tm_report tm) (tm_data tm)))
    (tm_exportId tm) now db.


Section WithUuid.

(** [z.string().uuid()]. *)
Variable is_uuid : string -> bool.

(** Whether the database takes a text as the value of an id column.  In the
    schema the routes import, [id], [report_id], [tenant_id] and [user_id] are
    of type [uuid] and the last three refer to rows of other tables; a
    statement with a parameter the database refuses throws. *)
Variable accepts : string -> bool.

(** [createExportSchema.parse(request.body)]. *)
Definition valid_body (b : ExportBody) : bool :=
  is_uuid (x_reportId b)
  && existsb (String.eqb (x_target b)) targets
  && existsb (String.eqb (x_format b)) formats.

(** [POST /]; [now] is the clock, [exportId] and [auditId] the keys the two
    inserts draw.  The third component is the timer the handler has set. *)
Definition create_export (db : Db) (user : AuthenticatedUser) (ip : string)
    (data : ExportBody) (now : Z) (exportId auditId : string)
  : Db * Response ExportRow * option Timer :=
  if negb (valid_body data) then (db, Error 400 "Validation error", None)
  else if negb (accepts (x_reportId data) && accepts (au_tenantId user))
  then (db, Error 500 "Internal server error", None)
  else
    match report_of_tenant db (x_reportId data) (au_tenantId user) with
    | None => (db, Error 404 "Report not found", None)
    | Some report =>
        if negb (accepts (au_id user)) then (db, Error 500 "Internal server error", None)
        else
        let exportRecord :=
          mkExportRow exportId (x_reportId data) (au_tenantId user) (au_id user)
            (x_target data) (x_format data) "pending" None None None
            (mkExportMetadata (x_template data) (x_fieldMapping data)) now now in
        match insert_row exp_id exportRecord (exports db) with
        | Throw _ => (db, Error 500 "Internal server error", None)
        | Ok table =>
            let db1 := set_exports db table in
            let timer := mkTimer (exp_id exportRecord) report data in
            match insert_auditLog auditId now
                    (mkAuditData (au_tenantId user) (Some (au_id user)) "export_created"
                       (Some "export") (Some (exp_id exportRecord)) (Some ip) None
                       [("reportId", x_reportId data); ("target", x_target data)])
                    db1 with
            | Throw _ => (db1, Error 500 "Internal server error", Some timer)
            | Ok db2 => (db2, Send exportRecord, Some timer)
            end
        end
    end.

End WithUuid.

End Exports.

(* ===================================================================== *)
(** * asr-service: TranscriptionQueue *)
(* ===================================================================== *)

Module Queue.

Import Store.

Inductive JobStatus := queued | processing | completed | failed.

(** [interface TranscriptionJob]. *)
Record TranscriptionJob := mkJob {
  job_id : string;
  job_audioUrl : string;
  job_sessionId : string;
  job_language : string;
  job_requestedAt : Z;
  job_status : JobStatus;
  job_progress : option Z;
  job_result : option string;
  job_error : option string;
  job_completedAt : option Z
}.

(** The argument of [addJob]. *)
Record JobData := mkJobData {
  jd_audioUrl : string;
  jd_sessionId : string;
  jd_language : string;
  jd_requestedAt : Z
}.

(** The job [processJob] is awaiting on: the reference of the object it
    holds and the progress updates still to be written. *)
Record InFlight := mkInFlight {
  fl_ref : nat;
  fl_updates : list Z
}.

(** The queue object.  Job objects live in [heap] and are named by their
    index; [jobs] is the [Map] from job id to object, [processingQueue] the
    array of ids, [current] the job of the running [processJob] call. *)
Record State := mkState {
  heap : list TranscriptionJob;
  jobs : gmap string nat;
  processingQueue : list string;
  isProcessing : bool;
  current : option InFlight
}.

(** The constructor: empty fields, then [startQueueProcessor] sets
    [isProcessing] and enters its loop. *)
Definition init : State := mkState [] ∅ [] true None.

(** [generateJobId]: [now] is [Date.now()], [suffix] the nine base-36 digits
    drawn from [Math.random()]. *)
Definition generateJobId (now : Z) (suffix : string) : string :=
  "job_" ++ pretty now ++ "_" ++ suffix.

(** [addJob(data)]. *)
Definition addJob (now : Z) (suffix : string) (data : JobData) (st : State)
  : State * string :=
  let jobId := generateJobId now suffix in
  let job := mkJob jobId (jd_audioUrl data) (jd_sessionId data) (jd_language data)
               (jd_requestedAt data) queued (Some 0%Z) None None None in
  (mkState (heap st ++ [job]) (<[jobId := length (heap st)]> (jobs st))
     (processingQueue st ++ [jobId]) (isProcessing st) (current st),
   jobId).

(** [getJobStatus(jobId)]. *)
Definition getJobStatus (jobId : string) (st : State) : option TranscriptionJob :=
  match jobs st !! jobId with
  | Some ref => heap st !! ref
  | None => None
  end.

(** Assignments to the fields of a job object. *)
Definition set_status (s : JobStatus) (progress : option Z) (j : TranscriptionJob) :=
  mkJob (job_id j) (job_audioUrl j) (job_sessionId j) (job_language j) (job_requestedAt j)
    s progress (job_result j) (job_error j) (job_completedAt j).

Definition set_progress (progress : Z) (j : TranscriptionJob) :=
  mkJob (job_id j) (job_audioUrl j) (job_sessionId j) (job_language j) (job_requestedAt j)
    (job_status j) (Some progress) (job_result j) (job_error j) (job_completedAt j).

Definition set_completed (transcript : string) (now : Z) (j : TranscriptionJob) :=
  mkJob (job_id j) (job_audioUrl j) (job_sessionId j) (job_language j) (job_requestedAt j)
    completed (Some 100%Z) (Some transcript) (job_error j) (Some now).

Definition set_failed (message : string) (now : Z) (j : TranscriptionJob) :=
  mkJob (job_id j) (job_audioUrl j) (job_sessionId j) (job_language j) (job_requestedAt j)
    failed (job_progress j) (job_result j) (Some message) (Some now).

(** Writing through a reference. *)
Definition modify (ref : nat) (f : TranscriptionJob -> TranscriptionJob)
    (h : list TranscriptionJob) : list TranscriptionJob :=
  match h !! ref with
  | Some j => <[ref := f j]> h
  | None => h
  end.

(** One turn of the [while (true)] loop up to the first [await] of
    [processJob]: nothing when the queue is empty (the loop sleeps), else
    [shift()], the lookup, and the first two assignments of [processJob].
    The second component is the id taken off the queue, the third tells
    whether a job was found and its processing started.  A turn starts only
    when no job is being awaited. *)
Definition dequeue (st : State) : State * option string * bool :=
  match current st with
  | Some _ => (st, None, false)
  | None =>
      match processingQueue st with
      | [] => (st, None, false)
      | jobId :: rest =>
          match jobs st !! jobId with
          | None =>
              (mkState (heap st) (jobs st) rest (isProcessing st) None, Some jobId, false)
          | Some ref =>
              (mkState (modify ref (set_status processing (Some 10%Z)) (heap st))
                 (jobs st) rest (isProcessing st)
                 (Some (mkInFlight ref [20; 40; 60; 80]%Z)),
               Some jobId, true)
          end
      end
  end.

(** The next progress update of [processJob], after its one second sleep. *)
Definition tick (st : State) : State :=
  match current st with
  | Some (mkInFlight ref (p :: rest)) =>
      mkState (modify ref (set_progress p) (heap st)) (jobs st) (processingQueue st)
        (isProcessing st) (Some (mkInFlight ref rest))
  | _ => st
  end.

(** The end of [processJob]: [outcome] is what [transcribeFile] returned or
    threw, [now] the clock. *)
Definition finish (outcome : Result string) (now : Z) (st : State) : State :=
  match current st with
  | Some (mkInFlight ref []) =>
      let h :=
        match outcome with
        | Ok transcript => modify ref (set_completed transcript now) (heap st)
        | Throw message => modify ref (set_failed message now) (heap st)
        end in
      mkState h (jobs st) (processingQueue st) (isProcessing st) None
  | _ => st
  end.

(** [job.completedAt && job.completedAt < cutoffTime]. *)
Definition expired (h : list TranscriptionJob) (cutoff : Z) (ref : nat) : bool :=
  match h !! ref with
  | Some j => match job_completedAt j with
              | Some t => (t <? cutoff)%Z
              | None => false
              end
  | None => false
  end.

(** [cleanupOldJobs(maxAgeHours)]. *)
Definition cleanupOldJobs (maxAgeHours now : Z) (st : State) : State :=
  let cutoffTime := (now - maxAgeHours * 60 * 60 * 1000)%Z in
  mkState (heap st)
    (filter (fun kv => expired (heap st) cutoffTime kv.2 = false) (jobs st))
    (processingQueue st) (isProcessing st) (current st).

Record Stats := mkStats {
  totalJobs : nat;
  queuedJobs : nat;
  processingJobs : nat;
  completedJobs : nat;
  failedJobs : nat
}.

(** The [switch] in the loop of [getQueueStats]. *)
Definition count_job (stats : Stats) (j : TranscriptionJob) : Stats :=
  match job_status j with
  | queued =>
      mkStats (totalJobs stats) (S (queuedJobs stats)) (processingJobs stats)
        (completedJobs stats) (failedJobs stats)
  | processing =>
      mkStats (totalJobs stats) (queuedJobs stats) (S (processingJobs stats))
        (completedJobs stats) (failedJobs stats)
  | completed =>
      mkStats (totalJobs stats) (queuedJobs stats) (processingJobs stats)
        (S (completedJobs stats)) (failedJobs stats)
  | failed =>
      mkStats (totalJobs stats) (queuedJobs stats) (processingJobs stats)
        (completedJobs stats) (S (failedJobs stats))
  end.

(** The sum of the four counters. *)
Definition counted (s : Stats) : nat :=
  (queuedJobs s + processingJobs s + completedJobs s + failedJobs s)%nat.

(** The values of the map, as job objects. *)
Definition job_values (st : State) : list TranscriptionJob :=
  omap (fun kv => heap st !! kv.2) (map_to_list (jobs st)).

(** [getQueueStats()]. *)
Definition getQueueStats (st : State) : Stats :=
  fold_left count_job (job_values st) (mkStats (size (jobs st)) 0 0 0 0).

(** What can happen to the queue, one atomic turn of the event loop each. *)
Inductive Op :=
| AddJob (now : Z) (suffix : string) (data : JobData)
| Dequeue
| Tick
| Finish (outcome : Result string) (now : Z)
| Cleanup (maxAgeHours now : Z).

(** What an observer of a run sees. *)
Inductive Obs :=
| Added (jobId : string)
| Shifted (jobId : string)
| Started (jobId : string).

Definition step (st : State) (op : Op) : State * list Obs :=
  match op with
  | AddJob now suffix data =>
      let '(st', jobId) := addJob now suffix data st in (st', [Added jobId])
  | Dequeue =>
      match dequeue st with
      | (st', Some jobId, true) => (st', [Shifted jobId; Started jobId])
      | (st', Some jobId, false) => (st', [Shifted jobId])
      | (st', None, _) => (st', [])
      end
  | Tick => (tick st, [])
  | Finish outcome now => (finish outcome now st, [])
  | Cleanup maxAgeHours now => (cleanupOldJobs maxAgeHours now st, [])
  end.

Fixpoint run (st : State) (ops : list Op) : State * list Obs :=
  match ops with
  | [] => (st, [])
  | op :: rest =>
      let '(st1, o1) := step st op in
      let '(st2, o2) := run st1 rest in
      (st2, (o1 ++ o2)%list)
  end.

(** The ids in the order [addJob] was called, the order [shift()] returned
    them, and the order their processing started. *)
Definition added (obs : list Obs) : list string :=
  omap (fun o => match o with Added j => Some j | _ => None end) obs.
Definition shifted (obs : list Obs) : list string :=
  omap (fun o => match o with Shifted j => Some j | _ => None end) obs.
Definition started (obs : list Obs) : list string :=
  omap (fun o => match o with Started j => Some j | _ => None end) obs.

(** A run in which the processor departs from the order of arrival: the ids
    it took off the queue are not an initial part of the ids added, or the
    ids whose processing it started do not follow the order of the ids
    added. *)
Definition order_differs (ops : list Op) : Prop :=
  let obs := (run init ops).2 in
  ¬ (shifted obs `prefix_of` added obs) ∨ ¬ (started obs `sublist_of` added obs).

(** Every reference held by the map names an object of the heap. *)
Definition refs_valid (st : State) : Prop :=
  ∀ jobId ref, jobs st !! jobId = Some ref → (ref < length (heap st))%nat.

End Queue.

(* ===================================================================== *)
(** * Regular expressions: the matcher behind [matchAll] *)
(* ===================================================================== *)

Module Regex.

Import JsString.

(** The fragment of the pattern language the PII patterns are written in. *)
Inductive regex :=
| Chr (p : ascii -> bool)
| WordB
| Seq (r1 r2 : regex)
| Opt (r : regex)
| Rep (p : ascii -> bool) (lo : nat) (hi : option nat).

(** [\b] at position [i]: exactly one of the code units before and after
    [i] is a word character; outside the input counts as a non-word. *)
Definition word_at (s : list ascii) (i : nat) : bool :=
  match nth_error s i with
  | Some c => is_word c
  | None => false
  end.

Definition word_boundary (s : list ascii) (i : nat) : bool :=
  xorb (match i with O => false | S j => word_at s j end) (word_at s i).

(** The number of code units from position [i] on that lie in the class
    [p], counted up to [limit]. *)
Fixpoint run_length (p : ascii -> bool) (s : list ascii) (i limit : nat) : nat :=
  match limit with
  | O => O
  | S limit' =>
      match nth_error s i with
      | Some c => if p c then S (run_length p s (S i) limit') else O
      | None => O
      end
  end.

(** Greedy choice of a repetition count: [n] first, then one fewer, down to
    [lo]; the first count whose continuation succeeds wins. *)
Fixpoint try_down (n lo i : nat) (k : nat -> option nat) : option nat :=
  if (n <? lo)%nat then None
  else match k (i + n)%nat with
       | Some e => Some e
       | None => match n with
                 | O => None
                 | S n' => try_down n' lo i k
                 end
       end.

(** The backtracking matcher, in continuation-passing style: [m r s i k]
    matches [r] at position [i] of [s] and hands the end position to [k];
    the result is the end of the whole match.  Quantifiers are greedy, and
    an optional group that matched the empty string is not taken. *)
Fixpoint m (r : regex) (s : list ascii) (i : nat) (k : nat -> option nat) : option nat :=
  match r with
  | Chr p =>
      match nth_error s i with
      | Some c => if p c then k (S i) else None
      | None => None
      end
  | WordB => if word_boundary s i then k i else None
  | Seq r1 r2 => m r1 s i (fun j => m r2 s j k)
  | Opt r1 =>
      match m r1 s i (fun j => if (j =? i)%nat then None else k j) with
      | Some e => Some e
      | None => k i
      end
  | Rep p lo hi =>
      let limit := match hi with Some h => h | None => length s end in
      try_down (run_length p s i limit) lo i k
  end.

(** One attempt at position [i]: the end of the match, if any. *)
Definition exec_at (r : regex) (s : list ascii) (i : nat) : option nat :=
  m r s i (fun j => Some j).

(** The loop of a global pattern over the start positions: positions before
    [lastIndex] are passed over, a match at [i] ending at [e] is reported
    and moves [lastIndex] to [e], one further when the match is empty. *)
Fixpoint scan (r : regex) (s : list ascii) (positions : list nat) (lastIndex : nat)
  : list (nat * nat) :=
  match positions with
  | [] => []
  | i :: rest =>
      if (i <? lastIndex)%nat then scan r s rest lastIndex
      else match exec_at r s i with
           | Some e => (i, e) :: scan r s rest (if (e =? i)%nat then S i else e)
           | None => scan r s rest lastIndex
           end
  end.

(** [str.matchAll(pattern)] for a global pattern whose [lastIndex] is 0:
    the start and end of every match, from left to right. *)
Definition matchAll (r : regex) (str : string) : list (nat * nat) :=
  let s := list_ascii_of_string str in
  scan r s (seq 0 (S (length s))) 0.

(** What it means for [r] to match [s] from [i] to [j]. *)
Inductive Matches (s : list ascii) : regex -> nat -> nat -> Prop :=
| MChr p i c :
    nth_error s i = Some c -> p c = true -> Matches s (Chr p) i (S i)
| MWordB i :
    word_boundary s i = true -> Matches s WordB i i
| MSeq r1 r2 i j k :
    Matches s r1 i j -> Matches s r2 j k -> Matches s (Seq r1 r2) i k
| MOptSkip r i :
    Matches s (Opt r) i i
| MOptTake r i j :
    Matches s r i j -> j <> i -> Matches s (Opt r) i j
| MRep p lo hi i n :
    (lo <= n)%nat ->
    (forall h, hi = Some h -> (n <= h)%nat) ->
    (forall d, (d < n)%nat -> exists c, nth_error s (i + d) = Some c /\ p c = true) ->
    Matches s (Rep p lo hi) i (i + n).

(** Character classes. *)
Definition one (c : ascii) : ascii -> bool := Ascii.eqb c.
Definition any_of (cs : string) (c : ascii) : bool :=
  existsb (Ascii.eqb c) (list_ascii_of_string cs).
Definition alnum (c : ascii) : bool := is_upper c || is_lower c || is_digit c.

(** The least number of code units a match of [r] spans. *)
Fixpoint min_len (r : regex) : nat :=
  match r with
  | Chr _ => 1
  | WordB => 0
  | Seq r1 r2 => min_len r1 + min_len r2
  | Opt _ => 0
  | Rep _ lo _ => lo
  end.

Fixpoint seq_of (rs : list regex) (last : regex) : regex :=
  match rs with
  | [] => last
  | r :: rest => Seq r (seq_of rest last)
  end.

End Regex.

(* ===================================================================== *)
(** * asr-service: ASRProcessor *)
(* ===================================================================== *)

Module ASR.

Import JsString Regex Store.

Record Context := mkContext {
  ctx_sessionId : string;
  ctx_language : string;
  ctx_speakerDiarization : bool
}.

(** [interface AudioChunkData]. *)
Record AudioChunkData := mkAudioChunkData {
  audioData : string;
  sessionId : string;
  timestamp : string;
  context : Context
}.

(** [interface ContentDetection]; [detectionType] is the string the code
    writes, [profanity] or [pii_] followed by the name of the pattern. *)
Record ContentDetection := mkDetection {
  detectionType : string;
  text : string;
  det_confidence : Z;
  startOffset : Z;
  endOffset : Z
}.

(** [interface ASRResult]; the confidence is a rational number. *)
Record ASRResult := mkASRResult {
  transcript : string;
  confidence : Q;
  speakerTag : option string;
  res_timestamp : string;
  isFinal : bool;
  detections : option (list ContentDetection)
}.

Definition profanityList : list string := ["damn"; "hell"; "crap"; "stupid"; "idiot"].

(** [/\b[A-Za-z0-9._%+-]+@[A-Za-z0-9.-]+\.[A-Z|a-z]{2,}\b/g] *)
Definition email_pattern : regex :=
  seq_of [ WordB;
           Rep (fun c => alnum c || any_of "._%+-" c) 1 None;
           Chr (one "@");
           Rep (fun c => alnum c || any_of ".-" c) 1 None;
           Chr (one ".");
           Rep (fun c => is_upper c || one "|" c || is_lower c) 2 None ]
         WordB.

(** [/\b(?:\+?1[-.\s]?)?\(?[0-9]{3}\)?[-.\s]?[0-9]{3}[-.\s]?[0-9]{4}\b/g] *)
Definition phone_sep (c : ascii) : bool := any_of "-." c || is_space c.

Definition phone_pattern : regex :=
  seq_of [ WordB;
           Opt (seq_of [Opt (Chr (one "+")); Chr (one "1")] (Opt (Chr phone_sep)));
           Opt (Chr (one "("));
           Rep is_digit 3 (Some 3);
           Opt (Chr (one ")"));
           Opt (Chr phone_sep);
           Rep is_digit 3 (Some 3);
           Opt (Chr phone_sep);
           Rep is_digit 4 (Some 4) ]
         WordB.

(** [/\b\d{3}-\d{2}-\d{4}\b/g] *)
Definition ssn_pattern : regex :=
  seq_of [ WordB;
           Rep is_digit 3 (Some 3);
           Chr (one "-");
           Rep is_digit 2 (Some 2);
           Chr (one "-");
           Rep is_digit 4 (Some 4) ]
         WordB.

(** [/\b\d{4}[-\s]?\d{4}[-\s]?\d{4}[-\s]?\d{4}\b/g] *)
Definition card_sep (c : ascii) : bool := one "-" c || is_space c.

Definition credit_card_pattern : regex :=
  seq_of [ WordB;
           Rep is_digit 4 (Some 4);
           Opt (Chr card_sep);
           Rep is_digit 4 (Some 4);
           Opt (Chr card_sep);
           Rep is_digit 4 (Some 4);
           Opt (Chr card_sep);
           Rep is_digit 4 (Some 4) ]
         WordB.

(** [this.piiPatterns], in insertion order. *)
Definition piiPatterns : list (string * regex) :=
  [ ("email", email_pattern);
    ("phone", phone_pattern);
    ("ssn", ssn_pattern);
    ("credit_card", credit_card_pattern) ].

(** The profanity loop of [detectContent]. *)
Definition profanity_detections (transcript : string) : list ContentDetection :=
  let lowered := toLowerCase transcript in
  let words := split_ws lowered in
  flat_map
    (fun word =>
       if existsb (String.eqb word) profanityList then
         let startOffset := indexOf word lowered in
         [ mkDetection "profanity" word 95 startOffset
             (startOffset + Z.of_nat (String.length word)) ]
       else [])
    words.

(** The detection pushed for one match: [match[0]] is the matched part of
    the transcript, [match.index] its start. *)
Definition pii_detection (name : string) (transcript : string) (mt : nat * nat)
  : ContentDetection :=
  let '(index, e) := mt in
  let match0 := String.substring index (e - index) transcript in
  mkDetection ("pii_" ++ name) match0 90 (Z.of_nat index)
    (Z.of_nat index + Z.of_nat (String.length match0)).

(** The loop over [this.piiPatterns]. *)
Definition pii_detections (transcript : string) : list ContentDetection :=
  flat_map
    (fun entry => map (pii_detection (fst entry) transcript)
                      (matchAll (snd entry) transcript))
    piiPatterns.

(** [detectContent(transcript)]. *)
Definition detectContent (transcript : string) : list ContentDetection :=
  (profanity_detections transcript ++ pii_detections transcript)%list.

(** The detections of one type. *)
Definition has_type (ty : string) (d : ContentDetection) : bool :=
  String.eqb (detectionType d) ty.

(** A value of [Math.random()]: the double [r / 2^53] for [0 <= r < 2^53]. *)
Definition random_ok (r : Z) : Prop := (0 <= r < 2 ^ 53)%Z.

(** Rounding of a positive integer to 53 significant bits, to nearest with
    ties to even: the double nearest to [N * 2^-53] is [round53 N * 2^-53]. *)
Definition round53 (N : Z) : Z :=
  if (N <? 2 ^ 53)%Z then N
  else
    let e := (Z.log2 N - 52)%Z in
    let q := (N / 2 ^ e)%Z in
    let r := (N mod 2 ^ e)%Z in
    let half := (2 ^ (e - 1))%Z in
    let q' := if (half <? r)%Z || ((r =? half)%Z && Z.odd q) then (q + 1)%Z else q in
    (q' * 2 ^ e)%Z.

(** [Math.floor(Math.random() * n)] for a small positive integer [n]: the
    product is rounded to a double, then floored. *)
Definition random_index (r : Z) (n : Z) : Z := (round53 (r * n) / 2 ^ 53)%Z.

Definition samplePhrases : list string :=
  [ "Hi, I'm having trouble connecting to the wifi network.";
    "I've tried restarting my computer but it's still not working.";
    "The error message says 'Cannot connect to Campus-Secure'.";
    "Let me check the network adapter settings.";
    "I can see the device manager is open now.";
    "Let's try updating the network driver.";
    "The driver update is installing now.";
    "Great! Now I can see the network is connected.";
    "Let me test the internet connection.";
    "Perfect, everything is working now. Thank you for your help.";
    "You're welcome. Is there anything else I can help you with?";
    "No, that's all for now. Have a great day!" ].

(** [xs[i]]: [undefined] outside the array. *)
Definition at_index {A} (xs : list A) (i : Z) : option A :=
  if (i <? 0)%Z then None else nth_error xs (Z.to_nat i).

(** [simulateASR(data)]; [r] is the value of [Math.random()] that picks the
    phrase (the one that sets the delay is of no consequence). *)
Definition simulateASR (r : Z) (data : AudioChunkData) : option string :=
  at_index samplePhrases (random_index r (Z.of_nat (length samplePhrases))).

Definition Qmin1 (x : Q) : Q := if Qle_bool x 1 then x else 1%Q.

(** [calculateConfidence(transcript)], in exact rational arithmetic. *)
Definition calculateConfidence (r : Z) (transcript : string) : Q :=
  let baseConfidence := 85%Q in
  let lengthFactor := (Qmin1 (inject_Z (Z.of_nat (String.length transcript)) / 50) * 10)%Q in
  let wordsCount := length (split_space transcript) in
  let wordsFactor := (Qmin1 (inject_Z (Z.of_nat wordsCount) / 5) * 5)%Q in
  let noise := ((r # 1) / inject_Z (2 ^ 53) * 10 - 5)%Q in
  let total := (baseConfidence + lengthFactor + wordsFactor + noise)%Q in
  if Qle_bool total 100 then total else 100%Q.

(** [determineSpeaker(data)]. *)
Definition determineSpeaker (r : Z) (data : AudioChunkData) : option string :=
  at_index ["Agent"; "Customer"] (random_index r 2).

(** The values [processAudioChunk] draws from [Math.random()]. *)
Record Draws := mkDraws {
  d_phrase : Z;
  d_confidence : Z;
  d_speaker : Z
}.

(** [processAudioChunk(data)].  An [undefined] transcript would make
    [calculateConfidence] throw, which the [catch] turns into the error. *)
Definition processAudioChunk (draws : Draws) (data : AudioChunkData) : Result ASRResult :=
  match simulateASR (d_phrase draws) data with
  | None => Throw "Failed to process audio chunk"
  | Some transcript =>
      let confidence := calculateConfidence (d_confidence draws) transcript in
      let speakerTag :=
        if ctx_speakerDiarization (context data)
        then determineSpeaker (d_speaker draws) data
        else None in
      let detections := detectContent transcript in
      Ok (mkASRResult transcript confidence speakerTag (timestamp data) true
            (if (0 <? length detections)%nat then Some detections else None))
  end.

(** What the [/transcribe] socket sends back. *)
Inductive Message :=
| TranscriptMessage (sessionId timestamp transcript : string) (confidence : Q)
    (speakerTag : option string) (isFinal : bool)
| ContentWarning (sessionId timestamp : string) (detections : list ContentDetection)
| ErrorMessage (message : string).

(** The [audio_chunk] case of the socket's message handler.
    [sessionContext] is the value of that variable when the message
    arrives, which is passed to [processAudioChunk]; [later] is its value
    when [processAudioChunk] has resolved, which the replies read: a
    [config] message handled in between assigns a new object to it. *)
Definition on_audio_chunk (draws : Draws) (sessionContext later : Context)
    (audioData timestamp : string) : list Message :=
  match processAudioChunk draws
          (mkAudioChunkData audioData (ctx_sessionId sessionContext) timestamp
             sessionContext) with
  | Throw _ => [ErrorMessage "Failed to process audio data"]
  | Ok result =>
      ((if truthy (transcript result)
        then [ TranscriptMessage (ctx_sessionId later) (res_timestamp result)
                 (transcript result) (confidence result) (speakerTag result)
                 (isFinal result) ]
        else []) ++
       match detections result with
       | Some ds =>
           if (0 <? length ds)%nat
           then [ContentWarning (ctx_sessionId later) (res_timestamp result) ds]
           else []
       | None => []
       end)%list
  end.

End ASR.

(* ===================================================================== *)
(** * Demo data for the examples *)
(* ===================================================================== *)

Module Demo.

Import Store Auth.

Definition agent_smith : AuthenticatedUser :=
  mkAuthUser "user-2" demo_tenant "agent@reportify.com" "Agent Smith" "agent".

Definition stranger : AuthenticatedUser :=
  mkAuthUser "user-9" "other-tenant" "eve@example.com" "Eve" "admin".

Definition iso_stub (t : Z) : string := "2025-09-15T10:00:00.000Z".

(** A recording session of the demo tenant with one transcript and one
    click. *)
Definition live_db : Db :=
  let db := seed 0 in
  mkDb (users db)
    (sessions db ++
     [ mkSessionRow "session-3" demo_tenant "user-2" None None "recording" None None None
         100 None None 100 100 ])
    (reports db)
    [ mkEventRow "e1" "session-3" 110 "asr_transcript"
        (Some (Composer.mkPayload (Some "My WiFi keeps dropping") None None))
        (Some "Customer") (Some 92%Z) 110;
      mkEventRow "e2" "session-3" 120 "ui_click"
        (Some (Composer.mkPayload None (Some "click") (Some "Network settings")))
        None None 120 ]
    (auditLogs db) (exports db).

(** A session of twelve clicks and a closing remark. *)
Definition busy_session : Composer.Session :=
  Composer.mkSession "session-4" None None 0 None
    (map (fun n => Composer.mkEvent "e" (Z.of_nat n) "ui_click"
                     (Some (Composer.mkPayload None (Some "click") (Some "Retry")))
                     None None)
         (seq 0 12) ++
     [ Composer.mkEvent "t" 99 "asr_transcript"
         (Some (Composer.mkPayload (Some "We need to ESCALATE this to tier 2") None None))
         (Some "Agent") None ]).

Definition iso_parse (s : string) : option Z :=
  if String.eqb s "2025-09-15T10:15:00Z" then Some 1757931300000%Z else None.

Definition note_body : Sessions.EventBody :=
  Sessions.mkEventBody "2025-09-15T10:15:00Z" "user_note" None None None.

(** The text of a version 1 to 5 UUID: 8-4-4-4-12 hexadecimal digits, the
    third group starting with the version and the fourth with 8, 9, a or b.
    [z.string().uuid()] and a [uuid] column both take such a text. *)
Definition is_hex (c : ascii) : bool :=
  JsString.is_digit c || JsString.in_range 97 102 c || JsString.in_range 65 70 c.

Fixpoint uuid_chars (i : nat) (cs : list ascii) : bool :=
  match cs with
  | [] => (i =? 36)%nat
  | c :: rest =>
      (if (i =? 8)%nat || (i =? 13)%nat || (i =? 18)%nat || (i =? 23)%nat
       then Ascii.eqb c "-"
       else if (i =? 14)%nat then JsString.in_range 49 53 c
       else if (i =? 19)%nat
            then JsString.in_range 56 57 c || JsString.in_range 97 98 c
                 || JsString.in_range 65 66 c
       else is_hex c)
      && uuid_chars (S i) rest
  end.

Definition uuid_shape (s : string) : bool := uuid_chars 0 (list_ascii_of_string s).

Definition acme : string := "7c9e6679-7425-40de-944b-e07fc1f90ae7".

(** A user of a tenant kept in the database of the schema. *)
Definition acme_agent : AuthenticatedUser :=
  mkAuthUser "3f2504e0-4f89-41d3-9a0c-0305e82c3301" acme "kim@acme.example" "Kim" "agent".

(** An export of the tenant's report that failed and one that is
    completed. *)
Definition failed_export : ExportRow :=
  mkExportRow "6fa459ea-ee8a-4ca4-894e-db77e160355e"
    "9b2d0d54-1a3c-4e6f-8b7a-2f4d5c6e7f80" acme
    "3f2504e0-4f89-41d3-9a0c-0305e82c3301" "zendesk" "json" "failed" None None
    (Some "connection reset") (mkExportMetadata None None) 1 2.

Definition done_export : ExportRow :=
  mkExportRow "0e37df36-f698-41f0-9a52-4b1de3dc0f3a"
    "9b2d0d54-1a3c-4e6f-8b7a-2f4d5c6e7f80" acme
    "3f2504e0-4f89-41d3-9a0c-0305e82c3301" "pdf" "pdf" "completed"
    (Some "file_0e37df36-f698-41f0-9a52-4b1de3dc0f3a.pdf")
    (Some "https://storage.reportify.com/exports/0e37df36-f698-41f0-9a52-4b1de3dc0f3a.pdf")
    None (mkExportMetadata None None) 3 4.

(** A database that holds that user, one report of the tenant and the two
    exports. *)
Definition acme_db : Db :=
  mkDb [ mkUser "3f2504e0-4f89-41d3-9a0c-0305e82c3301" acme "kim@acme.example" "Kim"
           "agent" true None 0 0 ]
       []
       [ mkReport "9b2d0d54-1a3c-4e6f-8b7a-2f4d5c6e7f80"
           "1b9d6bcd-bbfd-4b2d-9b5d-ab8dfbbd4bed" acme
           (Some "Printer offline") None None None None None None None false None 0 0 ]
       [] []
       [ failed_export; done_export ].

Definition jira_body : Exports.ExportBody :=
  Exports.mkExportBody "9b2d0d54-1a3c-4e6f-8b7a-2f4d5c6e7f80" "jira" "json" None None.

End Demo.

(* ===================================================================== *)
(** * Hooks of a route: authenticate, then the role guard *)
(* ===================================================================== *)

Module Hooks.

Import Store Auth.

(** The [preHandler] hooks of a route run in order; a hook that sends a
    reply ends the request, the hooks after it and the handler do not run. *)
Fixpoint run_hooks (hooks : list (Request -> Request * option Reply)) (request : Request)
  : Request * option Reply :=
  match hooks with
  | [] => (request, None)
  | hook :: rest =>
      match hook request with
      | (request', Some reply) => (request', Some reply)
      | (request', None) => run_hooks rest request'
      end
  end.

(** [fastify.addHook('preHandler', authenticate)] followed by
    [preHandler: [requireRole(allowedRoles)]] of the route. *)
Definition guarded (db : Db) (token : option string) (allowedRoles : list string)
  : Request -> Request * option Reply :=
  run_hooks [authenticate db token; requireRole allowedRoles].

End Hooks.

(* ===================================================================== *)
(** * routes/auth: login *)
(* ===================================================================== *)

Module Login.

Import Store Auth.

(** [findUserByEmail(email)] of the mock database. *)
Definition findUserByEmail (db : Db) (email : string) : option User :=
  find (fun u => String.eqb (usr_email u) email) (users db).

Record LoginBody := mkLoginBody {
  l_email : string;
  l_password : string
}.

(** The [user] object of the reply. *)
Record LoginUser := mkLoginUser {
  lu_id : string;
  lu_email : string;
  lu_name : string;
  lu_role : string;
  lu_tenantId : string
}.

Record LoginReply := mkLoginReply {
  lr_token : string;
  lr_user : LoginUser
}.

Section WithJwt.

(** [z.string().email()] and [fastify.jwt.sign({ userId }, ...)]. *)
Variable is_email : string -> bool.
Variable sign : string -> string.

(** [loginSchema.parse(request.body)]. *)
Definition valid_login (b : LoginBody) : bool :=
  is_email (l_email b) && (8 <=? String.length (l_password b))%nat.

(** [POST /login]; [userAgent] is the header of that name, [now] the
    clock. *)
Definition login (db : Db) (body : LoginBody) (ip : string) (userAgent : option string)
    (now : Z) : Db * Response LoginReply :=
  if negb (valid_login body) then (db, Error 400 "Validation error")
  else
    match findUserByEmail db (l_email body) with
    | None => (db, Error 401 "Invalid credentials")
    | Some user =>
        if negb (usr_isActive user) then (db, Error 401 "Invalid credentials")
        else if negb (String.eqb (l_password body) "password") then
          (db, Error 401 "Invalid credentials")
        else
          let token := sign (usr_id user) in
          let '(db', _) :=
            addAuditLog now
              (mkAuditData (usr_tenantId user) (Some (usr_id user)) "login"
                 (Some "user") (Some (usr_id user)) (Some ip) userAgent [])
              db in
          (db', Send (mkLoginReply token
                        (mkLoginUser (usr_id user) (usr_email user) (usr_name user)
                           (usr_role user) (usr_tenantId user))))
    end.

End WithJwt.

End Login.

(* ===================================================================== *)
(** * routes/users *)
(* ===================================================================== *)

Module Users.

Import Store Auth.

(** The columns selected by the two [GET] routes. *)
Record UserView := mkUserView {
  uv_id : string;
  uv_email : string;
  uv_name : string;
  uv_role : string;
  uv_isActive : bool;
  uv_lastLoginAt : option Z;
  uv_createdAt : Z
}.

Definition view (u : User) : UserView :=
  mkUserView (usr_id u) (usr_email u) (usr_name u) (usr_role u) (usr_isActive u)
    (usr_lastLoginAt u) (usr_createdAt u).

(** [db.query.users.findFirst({ where: and(eq(users.id, userId),
    eq(users.tenantId, tenantId)) })]. *)
Definition user_of_tenant (db : Db) (userId tenantId : string) : option User :=
  find (fun u => String.eqb (usr_id u) userId && String.eqb (usr_tenantId u) tenantId)
       (users db).

(** The columns of a user that decide who it is and what it may do. *)
Definition standing (u : User) : string * string * string * string * bool :=
  (usr_id u, usr_tenantId u, usr_email u, usr_role u, usr_isActive u).

(** The handler of [GET /] (behind [requireRole(['manager', 'admin'])]). *)
Definition list_users (db : Db) (user : AuthenticatedUser) : Response (list UserView) :=
  Send (map view
          (List.filter (fun u => String.eqb (usr_tenantId u) (au_tenantId user)) (users db))).

(** [GET /:userId]. *)
Definition get_user (db : Db) (user : AuthenticatedUser) (userId : string)
  : Response UserView :=
  if negb (String.eqb (au_id user) userId)
     && negb (array_includes ["manager"; "admin"] (au_role user))
  then Error 403 "Insufficient permissions"
  else
    match user_of_tenant db userId (au_tenantId user) with
    | None => Error 404 "User not found"
    | Some u => Send (view u)
    end.

(** The body of [PATCH /:userId], before validation; an absent key is
    [None]. *)
Record UpdateBody := mkUpdateBody {
  up_name : option string;
  up_role : option string;
  up_isActive : option bool
}.

(** [updateUserSchema.parse(request.body)]. *)
Definition valid_update (b : UpdateBody) : bool :=
  match up_name b with
  | Some n => (1 <=? String.length n)%nat
  | None => true
  end
  && match up_role b with
     | Some r => array_includes roles r
     | None => true
     end.

(** [.set({ ...updateData, updatedAt: new Date() })] on one row. *)
Definition apply_update (b : UpdateBody) (now : Z) (u : User) : User :=
  mkUser (usr_id u) (usr_tenantId u) (usr_email u)
    (match up_name b with Some n => n | None => usr_name u end)
    (match up_role b with Some r => r | None => usr_role u end)
    (match up_isActive b with Some a => a | None => usr_isActive u end)
    (usr_lastLoginAt u) (usr_createdAt u) now.

(** [Object.keys(updateData)]. *)
Definition update_keys (b : UpdateBody) : list string :=
  ((match up_name b with Some _ => ["name"] | None => [] end) ++
   (match up_role b with Some _ => ["role"] | None => [] end) ++
   (match up_isActive b with Some _ => ["isActive"] | None => [] end))%list.

(** The columns returned by the update. *)
Record UpdatedView := mkUpdatedView {
  upd_id : string;
  upd_email : string;
  upd_name : string;
  upd_role : string;
  upd_isActive : bool
}.

Definition updated_view (u : User) : UpdatedView :=
  mkUpdatedView (usr_id u) (usr_email u) (usr_name u) (usr_role u) (usr_isActive u).

(** [PATCH /:userId]; the reply carries the first row the update returned,
    if any. *)
Definition patch_user (db : Db) (user : AuthenticatedUser) (ip : string)
    (userId : string) (updateData : UpdateBody) (now : Z) (auditId : string)
  : Db * Response (option UpdatedView) :=
  if negb (valid_update updateData) then (db, Error 400 "Validation error")
  else
    let isOwnProfile := String.eqb (au_id user) userId in
    let isAdmin := String.eqb (au_role user) "admin" in
    if negb isOwnProfile && negb isAdmin then (db, Error 403 "Insufficient permissions")
    else if isOwnProfile && negb isAdmin
            && (match up_role updateData with
                | Some r => JsString.truthy r
                | None => false
                end
                || match up_isActive updateData with Some _ => true | None => false end)
    then (db, Error 403 "Cannot modify role or active status")
    else
      match user_of_tenant db userId (au_tenantId user) with
      | None => (db, Error 404 "User not found")
      | Some existingUser =>
          let has_id := fun u => String.eqb (usr_id u) userId in
          let table := update_rows has_id (apply_update updateData now) (users db) in
          let db1 := mkDb table (sessions db) (reports db) (events db) (auditLogs db)
                       (exports db) in
          let updatedUser := option_map updated_view (find has_id table) in
          match insert_auditLog auditId now
                  (mkAuditData (au_tenantId user) (Some (au_id user)) "user_updated"
                     (Some "user") (Some userId) (Some ip) None
                     [("fields", JsString.join "," (update_keys updateData))])
                  db1 with
          | Throw _ => (db1, Error 500 "Internal server error")
          | Ok db2 => (db2, Send updatedUser)
          end
      end.

End Users.

(* ===================================================================== *)
(** * database/mock-db: creating rows *)
(* ===================================================================== *)

Module Mock.

Import Store.

(** The [Partial<Report>] given to [createReport]; the session and the
    tenant are asserted present by the code. *)
Record ReportData := mkReportData {
  rd_sessionId : string;
  rd_tenantId : string;
  rd_problem : option string;
  rd_actions : option (list Composer.Action);
  rd_result : option string;
  rd_nextSteps : option (list Composer.NextStep);
  rd_tags : option (list string);
  rd_timeline : option (list Composer.TimelineEntry);
  rd_redactions : option string;
  rd_editorChanges : option string;
  rd_isCustomerFacing : option bool;
  rd_templateId : option string
}.

(** [createReport(reportData)]: the id is [report-${Date.now()}]. *)
Definition createReport (now : Z) (d : ReportData) (db : Db) : Db * Report :=
  let report :=
    mkReport ("report-" ++ pretty now) (rd_sessionId d) (rd_tenantId d) (rd_problem d)
      (rd_actions d) (rd_result d) (rd_nextSteps d) (rd_tags d) (rd_timeline d)
      (rd_redactions d) (rd_editorChanges d)
      (match rd_isCustomerFacing d with Some b => b | None => false end)
      (rd_templateId d) now now in
  (set_reports db (reports db ++ [report]), report).

(** The [Partial<Event>] given to [addEvent]. *)
Record EventData := mkEventData {
  ed_sessionId : string;
  ed_timestamp : Z;
  ed_type : string;
  ed_payload : option Composer.Payload;
  ed_speakerTag : option string;
  ed_confidence : option Z
}.

(** [addEvent(eventData)]: the id is [event-${Date.now()}-] followed by
    nine base-36 digits drawn from [Math.random()]. *)
Definition addEvent (now : Z) (suffix : string) (d : EventData) (db : Db) : Db * EventRow :=
  let event :=
    mkEventRow ("event-" ++ pretty now ++ "-" ++ suffix) (ed_sessionId d) (ed_timestamp d)
      (ed_type d) (ed_payload d) (ed_speakerTag d) (ed_confidence d) now in
  (set_events db (events db ++ [event]), event).

(** [findEventsBySession(sessionId)]. *)
Definition findEventsBySession (db : Db) (sessionId : string) : list EventRow :=
  List.filter (fun e => String.eqb (ev_sessionId e) sessionId) (events db).

End Mock.

(* ===================================================================== *)
(** * routes/reports: deleting a report *)
(* ===================================================================== *)

Module ReportsAdmin.

Import Store Auth.

(** [DELETE /:reportId].  The file binds [db] to [mockDb]: the handler's
    first statement, [db.query.reports.findFirst(…)], throws and the
    [catch] answers 500; the delete and the audit log are never reached. *)
Definition delete_report (db : Db) (user : AuthenticatedUser) (ip : string)
    (reportId : string) : Db * Response bool :=
  match MockDb.orm "query" with
  | Ok nothing => match nothing with end
  | Throw _ => (db, Error 500 "Internal server error")
  end.

End ReportsAdmin.

(* ===================================================================== *)
(** * routes/sessions: creating and ending a session *)
(* ===================================================================== *)

Module SessionsLife.

Import Store Auth.

(** The body of [POST /]; [sources] and [consentFlags] are the JSON text of
    the two objects, absent when the key is. *)
Record CreateBody := mkCreateBody {
  cb_customerId : option string;
  cb_customerName : option string;
  cb_sources : option string;
  cb_consentFlags : option string
}.

(** The body of [PATCH /:sessionId/end]. *)
Record EndBody := mkEndBody {
  eb_mediaUris : option string;
  eb_duration : option Z
}.

Section WithSchemas.

(** The two object schemas of [createSessionSchema]: the parsed object with
    its defaults filled in, or nothing when the text does not fit. *)
Variable parse_sources : string -> option string.
Variable parse_consentFlags : string -> option string.

(** [createSessionSchema.parse(request.body)]. *)
Definition parse_create (b : CreateBody) : option (string * string) :=
  match cb_sources b, cb_consentFlags b with
  | Some s, Some c =>
      match parse_sources s, parse_consentFlags c with
      | Some s', Some c' => Some (s', c')
      | _, _ => None
      end
  | _, _ => None
  end.

(** [POST /].  After the body is validated the handler evaluates
    [db.insert(sessions).values(…)] with [db] bound to [mockDb], which
    throws an error that is no [ZodError]; the [catch] answers 500. *)
Definition create_session (db : Db) (user : AuthenticatedUser) (ip : string)
    (body : CreateBody) : Db * Response SessionRow :=
  match parse_create body with
  | None => (db, Error 400 "Validation error")
  | Some _ =>
      match MockDb.orm "insert" with
      | Ok nothing => match nothing with end
      | Throw _ => (db, Error 500 "Internal server error")
      end
  end.

End WithSchemas.

(** [PATCH /:sessionId/end]; [data] is what [endSessionSchema.parse] gives
    for the body, nothing when it throws a [ZodError].  After validation the
    handler evaluates [db.query.sessions.findFirst(…)] with [db] bound to
    [mockDb], which throws; the [catch] answers 500 and the update is never
    reached. *)
Definition end_session (db : Db) (user : AuthenticatedUser) (ip : string)
    (sessionId : string) (data : option EndBody) : Db * Response (option SessionRow) :=
  match data with
  | None => (db, Error 400 "Validation error")
  | Some _ =>
      match MockDb.orm "query" with
      | Ok nothing => match nothing with end
      | Throw _ => (db, Error 500 "Internal server error")
      end
  end.

(** [GET /] over the mock database. *)
Record ListedSession := mkListedSession {
  ls_session : SessionRow;
  ls_agent : option Reports.AgentInfo
}.

Definition get_sessions (db : Db) (user : AuthenticatedUser) : Response (list ListedSession) :=
  Send (map (fun s => mkListedSession s
                        (option_map Reports.agent_info (findUserById db (ses_agentId s))))
            (findSessionsByTenant db (au_tenantId user))).

End SessionsLife.

(* ===================================================================== *)
(** * The routes of reports and sessions that are written against the ORM *)
(* ===================================================================== *)

Module OrmRoutes.

Import Store Auth.

Section WithSchemas.

Variable parse_datetime : string -> option Z.
Variable parse_sources : string -> option string.
Variable parse_consentFlags : string -> option string.

(** A request to one of the five routes, with what the handler reads. *)
Inductive Call :=
| Generate (user : AuthenticatedUser) (ip sessionId : string)
| DeleteReport (user : AuthenticatedUser) (ip reportId : string)
| CreateSession (user : AuthenticatedUser) (ip : string) (body : SessionsLife.CreateBody)
| AddEvent (user : AuthenticatedUser) (sessionId : string) (body : Sessions.EventBody)
| EndSession (user : AuthenticatedUser) (ip sessionId : string)
    (data : option SessionsLife.EndBody).

(** The database the handler leaves and the status it answers with. *)
Definition serve (db : Db) (c : Call) : Db * Z :=
  match c with
  | Generate user ip sessionId =>
      let '(db', r) := Reports.generate db user ip sessionId in (db', status_of r)
  | DeleteReport user ip reportId =>
      let '(db', r) := ReportsAdmin.delete_report db user ip reportId in (db', status_of r)
  | CreateSession user ip body =>
      let '(db', r) :=
        SessionsLife.create_session parse_sources parse_consentFlags db user ip body in
      (db', status_of r)
  | AddEvent user sessionId body =>
      let '(db', r) := Sessions.add_event parse_datetime db user sessionId body in
      (db', status_of r)
  | EndSession user ip sessionId data =>
      let '(db', r) := SessionsLife.end_session db user ip sessionId data in
      (db', status_of r)
  end.

(** Requests served one after the other. *)
Fixpoint serve_all (db : Db) (calls : list Call) : Db * list Z :=
  match calls with
  | [] => (db, [])
  | c :: rest =>
      let '(db1, status) := serve db c in
      let '(db2, statuses) := serve_all db1 rest in
      (db2, status :: statuses)
  end.

End WithSchemas.

End OrmRoutes.

(* ===================================================================== *)
(** * routes/exports: retrying, and the life of an export *)
(* ===================================================================== *)

Module ExportsRetry.

Import Store Auth Exports.

(** The [switch] of [processExport], which does not look at the report. *)
Definition export_result (draws : Draws) (exportId : string) (config : ExportBody)
  : ExportResult :=
  if String.eqb (x_target config) "servicenow" then
    mkExportResult ("INC" ++ d_digits draws)
      ("https://instance.service-now.com/nav_to.do?uri=incident.do?sys_id=" ++ exportId)
  else if String.eqb (x_target config) "jira" then
    mkExportResult ("HELP-" ++ pretty (d_first draws))
      ("https://company.atlassian.net/browse/HELP-" ++ pretty (d_second draws))
  else if String.eqb (x_target config) "zendesk" then
    mkExportResult (pretty (d_first draws))
      ("https://company.zendesk.com/agent/tickets/" ++ pretty (d_second draws))
  else
    mkExportResult ("file_" ++ exportId ++ "." ++ x_format config)
      ("https://storage.reportify.com/exports/" ++ exportId ++ "." ++ x_format config).

(** The closure handed to [setTimeout] by the retry route; the report is
    the loaded relation of the export. *)
Record RetryTimer := mkRetryTimer {
  rt_exportId : string;
  rt_report : option Report;
  rt_config : ExportBody
}.

(** [db.query.exports.findFirst({ where: and(eq(exports.id, exportId),
    eq(exports.tenantId, tenantId)) })]. *)
Definition export_of_tenant (db : Db) (exportId tenantId : string) : option ExportRow :=
  find (fun e => String.eqb (exp_id e) exportId && String.eqb (exp_tenantId e) tenantId)
       (exports db).

(** [.set({ status: 'pending', errorMessage: null, updatedAt })] on one
    row. *)
Definition reset_row (now : Z) (e : ExportRow) : ExportRow :=
  mkExportRow (exp_id e) (exp_reportId e) (exp_tenantId e) (exp_userId e) (exp_target e)
    (exp_format e) "pending" (exp_externalId e) (exp_deepLink e) None (exp_metadata e)
    (exp_createdAt e) now.

Section WithUuid.

Variable is_uuid : string -> bool.
Variable accepts : string -> bool.

(** [POST /:exportId/retry]; the reply is [{ success: true, message }].  The
    query throws, and the [catch] answers 500, when the database refuses
    the id of the path or the tenant of the user as a [uuid]. *)
Definition retry_export (db : Db) (user : AuthenticatedUser) (exportId : string) (now : Z)
  : Db * Response string * option RetryTimer :=
  if negb (accepts exportId && accepts (au_tenantId user))
  then (db, Error 500 "Internal server error", None)
  else
  match export_of_tenant db exportId (au_tenantId user) with
  | None => (db, Error 404 "Export not found", None)
  | Some exportRecord =>
      if negb (String.eqb (exp_status exportRecord) "failed") then
        (db, Error 400 "Can only retry failed exports", None)
      else
        let db1 := set_exports db (update_rows (has_id exportId) (reset_row now) (exports db)) in
        let timer :=
          mkRetryTimer exportId
            (find (fun r => String.eqb (rep_id r) (exp_reportId exportRecord)) (reports db))
            (mkExportBody (exp_reportId exportRecord) (exp_target exportRecord)
               (exp_format exportRecord) (md_template (exp_metadata exportRecord))
               (md_fieldMapping (exp_metadata exportRecord))) in
        (db1, Send "Export retry initiated", Some timer)
  end.

(** The callback of the retry timer. *)
Definition run_retry_timer (tm : RetryTimer) (draws : Draws) (now : Z) (db : Db) : Db :=
  settle (Ok (export_result draws (rt_exportId tm) (rt_config tm))) (rt_exportId tm) now db.

(** What happens to the exports over time: a request to create one, a
    request to retry one, and the callbacks of the timers these set, each
    run at some later moment. *)
Inductive Op :=
| Create (user : AuthenticatedUser) (ip : string) (data : ExportBody) (now : Z)
    (exportId auditId : string)
| Retry (user : AuthenticatedUser) (exportId : string) (now : Z)
| Fire (draws : Draws) (now : Z).

(** The database and the timers that are set and have not fired; [Fire]
    runs the oldest of them. *)
Inductive Pending :=
| FromCreate (tm : Timer)
| FromRetry (tm : RetryTimer).

Definition step (st : Db * list Pending) (op : Op) : Db * list Pending :=
  let '(db, timers) := st in
  match op with
  | Create user ip data now exportId auditId =>
      match create_export is_uuid accepts db user ip data now exportId auditId with
      | (db', _, Some tm) => (db', (timers ++ [FromCreate tm])%list)
      | (db', _, None) => (db', timers)
      end
  | Retry user exportId now =>
      match retry_export db user exportId now with
      | (db', _, Some tm) => (db', (timers ++ [FromRetry tm])%list)
      | (db', _, None) => (db', timers)
      end
  | Fire draws now =>
      match timers with
      | [] => (db, [])
      | FromCreate tm :: rest => (run_timer tm draws now db, rest)
      | FromRetry tm :: rest => (run_retry_timer tm draws now db, rest)
      end
  end.

Definition run (st : Db * list Pending) (ops : list Op) : Db * list Pending :=
  fold_left step ops st.

End WithUuid.

(** The statuses the routes write. *)
Definition known_status (e : ExportRow) : Prop :=
  exp_status e = "pending" \/ exp_status e = "completed" \/ exp_status e = "failed".

End ExportsRetry.

(* ===================================================================== *)
(** * routes/analytics: completeness of reports *)
(* ===================================================================== *)

Module Analytics.

Import Store Auth.

(** The four [CASE] columns of [GET /quality]. *)
Definition hasProblem (r : Report) : bool :=
  match rep_problem r with Some p => negb (String.eqb p "") | None => false end.
Definition hasActions (r : Report) : bool :=
  match rep_actions r with Some l => (0 <? length l)%nat | None => false end.
Definition hasResult (r : Report) : bool :=
  match rep_result r with Some p => negb (String.eqb p "") | None => false end.
Definition hasNextSteps (r : Report) : bool :=
  match rep_nextSteps r with Some l => (0 <? length l)%nat | None => false end.

(** The filter of [completeReports]. *)
Definition complete (r : Report) : bool :=
  hasProblem r && hasActions r && hasResult r && hasNextSteps r.

(** The rows the query selects: the reports of the tenant created at or
    after [startDate]. *)
Definition reportsWithSections (db : Db) (user : AuthenticatedUser) (startDate : Z)
  : list Report :=
  List.filter (fun r => String.eqb (rep_tenantId r) (au_tenantId user)
                        && (startDate <=? rep_createdAt r)%Z)
              (reports db).

(** The counts of the [completeness] object of the reply. *)
Record Counts := mkCounts {
  totalReports : nat;
  completeReports : nat;
  withProblem : nat;
  withActions : nat;
  withResult : nat;
  withNextSteps : nat
}.

Definition completeness (db : Db) (user : AuthenticatedUser) (startDate : Z) : Counts :=
  let rows := reportsWithSections db user startDate in
  mkCounts (length rows) (length (List.filter complete rows))
    (length (List.filter hasProblem rows)) (length (List.filter hasActions rows))
    (length (List.filter hasResult rows)) (length (List.filter hasNextSteps rows)).

End Analytics.

(* ===================================================================== *)
(** * asr-service: file transcription and language detection *)
(* ===================================================================== *)

Module ASRFile.

Import JsString Store ASR.

(** The double quote, as a string. *)
Definition dquote : string := String (ascii_of_nat 34) EmptyString.

Definition sampleTranscripts : list string :=
  [ "Customer called in reporting they cannot connect to the company WiFi network. They mentioned seeing an error message "
    ++ dquote ++ "Unable to connect to Campus-Secure network" ++ dquote
    ++ ". I guided them through checking their network adapter settings in Device Manager. We found that the Intel Wi-Fi 6 AX201 adapter needed a driver update. After downloading and installing the latest driver from the manufacturer's website, the customer was able to successfully connect to the network. I had them test internet connectivity by browsing to a few websites, and everything worked correctly. The customer confirmed the issue was resolved and thanked me for the help.";
    "User contacted support about their Outlook email not syncing properly. They reported that emails were not downloading and they were getting authentication errors. I walked them through updating their password in the Mail app settings. We also cleared the cached credentials in Credential Manager and re-added their Exchange account. After restarting Outlook, the sync process began working normally. The customer verified they could send and receive emails successfully.";
    "Customer reported their laptop was running very slowly and taking a long time to boot up. I guided them through checking Task Manager to identify high CPU usage processes. We found several unnecessary startup programs that were impacting performance. I showed them how to disable these programs in the Startup tab of Task Manager. We also ran a disk cleanup to free up storage space and checked for Windows updates. After applying the updates and restarting, the customer confirmed the laptop was running much faster." ].

(** [generateSampleTranscript()]; [r] is the value of [Math.random()]. *)
Definition generateSampleTranscript (r : Z) : option string :=
  at_index sampleTranscripts (random_index r (Z.of_nat (length sampleTranscripts))).

(** [transcribeFile(audioUrl, language)]; [openai] tells whether the API
    key is configured.  Both branches wait and return a sample transcript. *)
Definition transcribeFile (openai : bool) (r : Z) (audioUrl language : string)
  : option string :=
  if openai then generateSampleTranscript r else generateSampleTranscript r.

Definition supportedLanguages : list string :=
  ["en-US"; "es-ES"; "fr-FR"; "de-DE"; "it-IT"; "pt-BR"].

(** [detectLanguage(audioUrl)]. *)
Definition detectLanguage (r : Z) (audioUrl : string) : option string :=
  at_index supportedLanguages (random_index r (Z.of_nat (length supportedLanguages))).

End ASRFile.

(* ===================================================================== *)
(** * Further fixtures for the examples *)
(* ===================================================================== *)

Module DemoMore.

Import JsString Store Auth.

(** Stand-ins for the validators and the token signer. *)
Definition email_stub (s : string) : bool := includes "@" s.

Definition sign_stub (userId : string) : string := "token-" ++ userId.

Definition schema_stub (json : string) : option string := Some json.

Definition login_body : Login.LoginBody :=
  Login.mkLoginBody "agent@reportify.com" "password".

(** An agent asking to be made an administrator. *)
Definition promote_body : Users.UpdateBody :=
  Users.mkUpdateBody None (Some "admin") None.

Definition create_body : SessionsLife.CreateBody :=
  SessionsLife.mkCreateBody (Some "customer-7") (Some "Ada")
    (Some "{screen: true, audio: true}")
    (Some "{screenRecording: true, audioRecording: true}").

Definition end_body : SessionsLife.EndBody :=
  SessionsLife.mkEndBody None (Some 60%Z).

Definition job_data : Queue.JobData :=
  Queue.mkJobData "https://files.example/a.wav" "session-3" "en-US" 5.

(** The queue after one job was added. *)
Definition one_job : Queue.State := fst (Queue.addJob 5 "k3x9q1z7a" job_data Queue.init).

Definition chunk_context : ASR.Context := ASR.mkContext "session-3" "en-US" true.

End DemoMore.

(* ===================================================================== *)
(** * Properties of the role guard *)
(* ===================================================================== *)

Section AuthProperties.

Import Store Auth.

Lemma array_includes_In (xs : list string) (x : string) :
  array_includes xs x = true <-> In x xs.
Proof.
  unfold array_includes. rewrite existsb_exists. split.
  - intros (y & Hy & Heq). apply String.eqb_eq in Heq. now subst.
  - intros Hin. exists x. split; [assumption | apply String.eqb_refl].
Qed.

(** A request that passes [authenticate] carries a user of the database. *)
Lemma authenticate_sets_user (db : Db) (token : option string) (request request' : Request) :
  authenticate db token request = (request', None) ->
  exists u, req_user request' = Some u.
Proof.
  unfold authenticate. destruct token as [userId|]; [|discriminate].
  destruct (findUserById db userId) as [user|]; [|discriminate].
  destruct (usr_isActive user); simpl; [|discriminate].
  intros [= <-]. simpl. eauto.
Qed.

(** C7.  For every request and every list of allowed roles, [requireRole]
    leaves the request as it was; it answers 401 when the request carries no
    user; for a request with a user it answers 403 exactly when the user's
    role is not in the list, and otherwise sends nothing, so the request
    goes on. *)
Theorem requireRole_guard (allowedRoles : list string) (request : Request) :
  let '(request', reply) := requireRole allowedRoles request in
  request' = request /\
  match req_user request with
  | None => reply = Some (mkReply 401 "Authentication required")
  | Some u =>
      (option_map reply_code reply = Some 403%Z <-> ~ In (au_role u) allowedRoles) /\
      (In (au_role u) allowedRoles <-> reply = None) /\
      (reply = None \/ reply = Some (mkReply 403 "Insufficient permissions"))
  end.
Proof.
  unfold requireRole. destruct (req_user request) as [u|]; [|now split].
  pose proof (array_includes_In allowedRoles (au_role u)) as Hin.
  destruct (array_includes allowedRoles (au_role u)); simpl.
  - assert (Hyes : In (au_role u) allowedRoles) by now apply Hin.
    split; [reflexivity|]. intuition (try discriminate; auto).
  - assert (Hnot : ~ In (au_role u) allowedRoles).
    { intros H. apply Hin in H. discriminate. }
    split; [reflexivity|]. intuition (try discriminate; auto).
Qed.

End AuthProperties.

(* ===================================================================== *)
(** * Properties of the transcription queue *)
(* ===================================================================== *)

Section QueueProperties.

Import Queue.

Lemma modify_length ref f (h : list TranscriptionJob) :
  length (modify ref f h) = length h.
Proof.
  unfold modify. destruct (h !! ref); [apply length_insert | reflexivity].
Qed.

(** Each operation keeps the references of the map inside the heap. *)
Lemma step_refs_valid (st : State) (op : Op) :
  refs_valid st -> refs_valid (step st op).1.
Proof.
  intros Hv. destruct op as [now suffix data| | |outcome now|maxAge now]; simpl.
  - intros jobId ref. simpl. rewrite length_app. simpl.
    destruct (decide (generateJobId now suffix = jobId)) as [->|Hne].
    + rewrite lookup_insert_eq. intros [= <-]. lia.
    + rewrite lookup_insert_ne by assumption. intros H. apply Hv in H. lia.
  - unfold dequeue. destruct (current st); [exact Hv|].
    destruct (processingQueue st) as [|jobId rest]; [exact Hv|].
    destruct (jobs st !! jobId) as [ref|] eqn:E; simpl.
    + intros j r. simpl. rewrite modify_length. apply Hv.
    + exact Hv.
  - unfold tick. destruct (current st) as [[ref [|p rest]]|]; try exact Hv.
    intros j r. simpl. rewrite modify_length. apply Hv.
  - unfold finish. destruct (current st) as [[ref [|p rest]]|]; try exact Hv.
    intros j r. simpl. destruct outcome; rewrite modify_length; apply Hv.
  - intros j r. simpl. intros H. apply map_lookup_filter_Some in H as [H _].
    now apply Hv in H.
Qed.

Lemma run_refs_valid (ops : list Op) (st : State) :
  refs_valid st -> refs_valid (run st ops).1.
Proof.
  revert st. induction ops as [|op rest IH]; intros st Hv; simpl; [exact Hv|].
  pose proof (step_refs_valid st op Hv) as H1.
  destruct (step st op) as [st1 o1]. simpl in H1.
  specialize (IH st1 H1). destruct (run st1 rest) as [st2 o2]. exact IH.
Qed.

Lemma init_refs_valid : refs_valid init.
Proof. intros jobId ref. simpl. rewrite lookup_empty. discriminate. Qed.

Lemma omap_length_is_Some {A B} (f : A -> option B) (l : list A) :
  Forall (fun a => is_Some (f a)) l -> length (omap f l) = length l.
Proof.
  induction 1 as [|a l [x Hx] _ IH]; [reflexivity|].
  change (omap f (a :: l)) with (match f a with Some y => y :: omap f l | None => omap f l end).
  rewrite Hx. simpl. f_equal. exact IH.
Qed.

(** With valid references the loop of [getQueueStats] meets one object per
    entry of the map. *)
Lemma job_values_length (st : State) :
  refs_valid st -> length (job_values st) = size (jobs st).
Proof.
  intros Hv. unfold job_values.
  rewrite <- length_map_to_list. apply omap_length_is_Some.
  apply Forall_forall. intros [j r] Hin. simpl.
  apply elem_of_map_to_list in Hin. apply Hv in Hin.
  now apply lookup_lt_is_Some.
Qed.

Lemma count_job_fold (js : list TranscriptionJob) (s0 : Stats) :
  let s := fold_left count_job js s0 in
  totalJobs s = totalJobs s0 /\ counted s = (counted s0 + length js)%nat.
Proof.
  revert s0. induction js as [|j js IH]; intros s0; simpl.
  - unfold counted. lia.
  - destruct (IH (count_job s0 j)) as [Ht Hc]. rewrite Ht, Hc.
    unfold count_job, counted. destruct (job_status j); simpl; lia.
Qed.

(** C10.  In every state the queue reaches from its construction, by any
    sequence of [addJob], processor turns and [cleanupOldJobs], the counts of
    [getQueueStats] add up: [totalJobs] is the sum of the queued, processing,
    completed and failed jobs. *)
Theorem getQueueStats_total (ops : list Op) :
  let stats := getQueueStats (run init ops).1 in
  totalJobs stats =
  (queuedJobs stats + processingJobs stats + completedJobs stats + failedJobs stats)%nat.
Proof.
  pose proof (run_refs_valid ops init init_refs_valid) as Hv.
  set (st := (run init ops).1) in *. unfold getQueueStats.
  destruct (count_job_fold (job_values st) (mkStats (size (jobs st)) 0 0 0 0)) as [Ht Hc].
  cbv zeta. rewrite Ht. unfold counted in Hc. simpl in Hc. simpl.
  rewrite job_values_length in Hc by assumption. lia.
Qed.

Lemma added_app (o1 o2 : list Obs) : added (o1 ++ o2) = (added o1 ++ added o2)%list.
Proof. apply omap_app. Qed.

Lemma shifted_app (o1 o2 : list Obs) : shifted (o1 ++ o2) = (shifted o1 ++ shifted o2)%list.
Proof. apply omap_app. Qed.

Lemma started_app (o1 o2 : list Obs) : started (o1 ++ o2) = (started o1 ++ started o2)%list.
Proof. apply omap_app. Qed.

(** One operation: what was taken off the queue, followed by what waits, is
    what waited before followed by what was added. *)
Lemma step_fifo (st : State) (op : Op) :
  (shifted (step st op).2 ++ processingQueue (step st op).1
   = processingQueue st ++ added (step st op).2)%list.
Proof.
  destruct op as [now suffix data| | |outcome now|maxAge now]; simpl.
  - reflexivity.
  - unfold dequeue. destruct (current st); simpl; [now rewrite app_nil_r|].
    destruct (processingQueue st) as [|jobId rest] eqn:Eq; simpl; [exact Eq|].
    destruct (jobs st !! jobId); simpl; now rewrite app_nil_r.
  - unfold tick. destruct (current st) as [[ref [|p rest]]|]; simpl; now rewrite app_nil_r.
  - unfold finish. destruct (current st) as [[ref [|p rest]]|]; simpl; now rewrite app_nil_r.
  - now rewrite app_nil_r.
Qed.

Lemma run_fifo (ops : list Op) (st : State) :
  (shifted (run st ops).2 ++ processingQueue (run st ops).1
   = processingQueue st ++ added (run st ops).2)%list.
Proof.
  revert st. induction ops as [|op rest IH]; intros st; simpl.
  - now rewrite app_nil_r.
  - pose proof (step_fifo st op) as H1. destruct (step st op) as [st1 o1].
    specialize (IH st1). destruct (run st1 rest) as [st2 o2]. simpl in *.
    rewrite shifted_app, added_app, <- app_assoc, IH, !app_assoc. now rewrite H1.
Qed.

(** Processing starts only for ids taken off the queue, in that order. *)
Lemma step_started (st : State) (op : Op) :
  started (step st op).2 `sublist_of` shifted (step st op).2.
Proof.
  destruct op as [now suffix data| | |outcome now|maxAge now]; simpl; try constructor.
  destruct (dequeue st) as [[st' [jobId|]] [|]]; simpl; repeat constructor.
Qed.

Lemma run_started (ops : list Op) (st : State) :
  started (run st ops).2 `sublist_of` shifted (run st ops).2.
Proof.
  revert st. induction ops as [|op rest IH]; intros st; simpl; [constructor|].
  pose proof (step_started st op) as H1. destruct (step st op) as [st1 o1].
  specialize (IH st1). destruct (run st1 rest) as [st2 o2]. simpl in *.
  rewrite started_app, shifted_app. now apply sublist_app.
Qed.

(** C5, as the code has it.  The queue is first in, first out: after any
    sequence of operations the ids taken off the queue, followed by the ids
    still waiting, are the ids added, in the order of the [addJob] calls; so
    the ids dequeued are an initial part of the ids added, and the jobs
    whose processing started are among the ids dequeued, in the same
    order. *)
Theorem queue_is_fifo (ops : list Op) :
  let '(st, obs) := run init ops in
  (shifted obs ++ processingQueue st = added obs)%list /\
  shifted obs `prefix_of` added obs /\
  started obs `sublist_of` shifted obs /\
  started obs `sublist_of` added obs.
Proof.
  pose proof (run_fifo ops init) as Hf. pose proof (run_started ops init) as Hs.
  destruct (run init ops) as [st obs]. simpl in *.
  split; [exact Hf|]. split; [|split; [exact Hs|]].
  - exists (processingQueue st). now rewrite Hf.
  - rewrite <- Hf. now apply sublist_inserts_r.
Qed.

(** C5, as stated, does not hold: no sequence of operations makes the
    processor take jobs off the queue, or start processing them, in another
    order than they were added. *)
Lemma order_never_differs : (exists ops, order_differs ops) <-> False.
Proof.
  split; [|tauto]. intros [ops Hd]. unfold order_differs in Hd.
  pose proof (run_fifo ops init) as Hf. pose proof (run_started ops init) as Hs.
  simpl in Hf. cbv zeta in Hd. destruct Hd as [Hd|Hd]; apply Hd.
  - exists (processingQueue (run init ops).1). now rewrite Hf.
  - rewrite <- Hf. now apply sublist_inserts_r.
Qed.

End QueueProperties.

(* ===================================================================== *)
(** * Properties of the report routes *)
(* ===================================================================== *)

Section ReportProperties.

Import Store Auth Reports.

Lemma find_some_holds {A} (p : A -> bool) (l : list A) (x : A) :
  find p l = Some x -> In x l /\ p x = true.
Proof. apply find_some. Qed.

Lemma find_none_filter {A} (p : A -> bool) (l : list A) :
  find p l = None -> List.filter p l = [].
Proof.
  induction l as [|a l IH]; simpl; [reflexivity|].
  destruct (p a); [discriminate | exact IH].
Qed.

Lemma find_app_none {A} (p : A -> bool) (l : list A) (x : A) :
  find p l = None -> p x = true -> find p (l ++ [x]) = Some x.
Proof.
  induction l as [|a l IH]; simpl; intros Hn Hx.
  - now rewrite Hx.
  - destruct (p a); [discriminate | now apply IH].
Qed.

(** C2.  For every database and every authenticated user: [GET /] answers
    with reports of the database that all carry the tenant of the user; and
    [GET /:reportId] either sends the report of that id, which carries the
    tenant of the user, or, when no report has the id or the report found
    carries another tenant, answers 404 with no report and leaves the
    database as it was. *)
Theorem report_routes_tenant_isolation (db : Db) (user : AuthenticatedUser) :
  (exists listed,
      get_reports db user = Send listed /\
      Forall (fun lr => In (lr_report lr) (reports db) /\
                        rep_tenantId (lr_report lr) = au_tenantId user) listed) /\
  (forall ip reportId now,
      let '(db', response) := get_report db user ip reportId now in
      (forall viewed, response = Send viewed ->
         findReportById db reportId = Some (vr_report viewed) /\
         rep_id (vr_report viewed) = reportId /\
         rep_tenantId (vr_report viewed) = au_tenantId user) /\
      (forall code message, response = Error code message ->
         code = 404%Z /\ db' = db) /\
      (findReportById db reportId = None ->
         response = Error 404 "Report not found" /\ db' = db) /\
      (forall report, findReportById db reportId = Some report ->
         rep_tenantId report <> au_tenantId user ->
         response = Error 404 "Report not found" /\ db' = db)).
Proof.
  split.
  - eexists. split; [reflexivity|].
    apply List.Forall_forall. intros lr Hin. apply in_map_iff in Hin as (r & <- & Hr).
    unfold findReportsByTenant in Hr. apply filter_In in Hr as [Hr Ht].
    apply String.eqb_eq in Ht. now split.
  - intros ip reportId now. unfold get_report.
    destruct (findReportById db reportId) as [report|] eqn:Ef.
    + destruct (String.eqb (rep_tenantId report) (au_tenantId user)) eqn:Et; simpl.
      * apply String.eqb_eq in Et. pose proof (find_some_holds _ _ _ Ef) as [_ Hid].
        apply String.eqb_eq in Hid.
        split; [|split; [|split]].
        -- intros viewed [= <-]. simpl. auto.
        -- discriminate.
        -- discriminate.
        -- intros r [= <-] Hne. contradiction.
      * apply String.eqb_neq in Et.
        split; [|split; [|split]].
        -- discriminate.
        -- intros code message [= <- _]. auto.
        -- discriminate.
        -- auto.
    + split; [|split; [|split]].
      * discriminate.
      * intros code message [= <- _]. auto.
      * auto.
      * discriminate.
Qed.

(** C8.  [POST /:sessionId/generate], bound as it is to the mock
    database, answers 500 [Failed to generate report] to every request and
    leaves the database as it was.  So for the session of the demo data
    that has a report, asked for by a user of its tenant, the existing
    report is not returned. *)
Theorem generate_answers_500 :
  (forall db user ip sessionId,
      generate db user ip sessionId = (db, Error 500 "Failed to generate report")) /\
  exists session existing,
    findSessionById (seed 0) "session-1" = Some session /\
    ses_tenantId session = au_tenantId Demo.agent_smith /\
    findReportBySessionId (seed 0) "session-1" = Some existing /\
    generate (seed 0) Demo.agent_smith "10.0.0.1" "session-1"
    = (seed 0, Error 500 "Failed to generate report") /\
    generate (seed 0) Demo.agent_smith "10.0.0.1" "session-1" <> (seed 0, Send existing).
Proof.
  split; [reflexivity|]. eexists _, _.
  split; [reflexivity|]. split; [reflexivity|]. split; [reflexivity|].
  split; [reflexivity|]. discriminate.
Qed.


End ReportProperties.

(* ===================================================================== *)
(** * Properties of the session and export routes *)
(* ===================================================================== *)

Section SessionProperties.

Import Store Auth Sessions.

Variable parse_datetime : string -> option Z.

(** C9.  [POST /:sessionId/events], bound as it is to the mock database,
    answers 400 [Validation error] to a body that does not fit the schema
    and 500 [Internal server error] to every other request, and stores
    nothing.  So for the completed session of the demo data and a valid
    body the answer is 500, not 400. *)
Theorem add_event_answers_500 :
  (forall db user sessionId body,
      add_event parse_datetime db user sessionId body
      = (db, match parse_body parse_datetime body with
             | None => Error 400 "Validation error"
             | Some _ => Error 500 "Internal server error"
             end)) /\
  exists session,
    findSessionById (seed 0) "session-1" = Some session /\
    ses_tenantId session = au_tenantId Demo.agent_smith /\
    ses_status session = "completed" /\
    parse_body Demo.iso_parse Demo.note_body <> None /\
    add_event Demo.iso_parse (seed 0) Demo.agent_smith "session-1" Demo.note_body
    = (seed 0, Error 500 "Internal server error").
Proof.
  split.
  - intros db user sessionId body. unfold add_event.
    now destruct (parse_body parse_datetime body).
  - eexists. split; [reflexivity|]. split; [reflexivity|]. split; [reflexivity|].
    split; [discriminate|]. reflexivity.
Qed.

End SessionProperties.

Section ExportProperties.

Import Store Auth Exports.

Variable is_uuid : string -> bool.
Variable accepts : string -> bool.


Lemma update_rows_in {A} (p : A -> bool) (f : A -> A) (l : list A) (x : A) :
  In x l -> p x = true -> In (f x) (update_rows p f l).
Proof.
  intros Hin Hp. unfold update_rows. apply in_map_iff. exists x.
  rewrite Hp. auto.
Qed.


End ExportProperties.

(* ===================================================================== *)
(** * Properties of the report composer *)
(* ===================================================================== *)

Section ComposerProperties.

Import JsString Composer.

Variable toISOString : Z -> string.

Ltac split_ifs :=
  repeat match goal with
         | |- context [if ?b then _ else _] => destruct b
         end.

Lemma extractProblem_nonempty (ts : list string) : extractProblem ts <> "".
Proof. unfold extractProblem. cbv zeta. split_ifs; discriminate. Qed.

Lemma extractResult_nonempty (ts : list string) : extractResult ts <> "".
Proof. unfold extractResult. cbv zeta. split_ifs; discriminate. Qed.

Lemma describe_nonempty (event : UiEvent) : describe event <> "".
Proof. unfold describe. split_ifs; discriminate. Qed.

(** The loop numbers the actions it pushes from [stepNumber] on. *)
Lemma actions_loop_steps (uiEvents : list UiEvent) (index stepNumber : nat) :
  map a_step (actions_loop toISOString uiEvents index stepNumber)
  = seq stepNumber (length (actions_loop toISOString uiEvents index stepNumber)).
Proof.
  revert index stepNumber.
  induction uiEvents as [|event rest IH]; intros index stepNumber; simpl; [reflexivity|].
  destruct (index <? 10)%nat; simpl; [f_equal|]; apply IH.
Qed.

Lemma actions_loop_described (uiEvents : list UiEvent) (index stepNumber : nat) :
  List.Forall (fun a => a_description a <> "")
    (actions_loop toISOString uiEvents index stepNumber).
Proof.
  revert index stepNumber.
  induction uiEvents as [|event rest IH]; intros index stepNumber; simpl; [constructor|].
  destruct (index <? 10)%nat; [constructor|]; try apply IH.
  apply describe_nonempty.
Qed.

Lemma generateActions_numbered (uiEvents : list UiEvent) (transcripts : list string) :
  let actions := generateActions toISOString uiEvents transcripts in
  actions <> [] /\
  map a_step actions = seq 1 (length actions) /\
  List.Forall (fun a => a_description a <> "") actions.
Proof.
  unfold generateActions. cbv zeta.
  pose proof (actions_loop_steps uiEvents 0 1) as Hs.
  pose proof (actions_loop_described uiEvents 0 1) as Hd.
  destruct (actions_loop toISOString uiEvents 0 1) as [|a l]; simpl.
  - split; [discriminate|]. split; [reflexivity|].
    repeat constructor; discriminate.
  - split; [discriminate|]. split; assumption.
Qed.

Lemma generateNextSteps_one (now : Z) (problem result : string) :
  exists step, generateNextSteps toISOString now problem result = [step] /\
               n_description step <> "".
Proof.
  unfold generateNextSteps. split_ifs; eexists; (split; [reflexivity | discriminate]).
Qed.

(** C1.  For every session, whatever its events, the report has its four
    sections filled: a non-empty problem; at least one action, the actions
    numbered 1, 2, ... in order and each with a description; a non-empty
    result; and at least one next step with a description.  Without
    transcripts the problem and the result are the default sentences and the
    next step is the default one; without UI events the actions are the
    three default steps. *)
Theorem generatePARNReport_populated (now : Z) (session : Session) :
  let report := generatePARNReport toISOString now session in
  problem report <> "" /\
  (actions report <> [] /\
   map a_step (actions report) = seq 1 (length (actions report)) /\
   List.Forall (fun a => a_description a <> "") (actions report)) /\
  result report <> "" /\
  (nextSteps report <> [] /\
   List.Forall (fun n => n_description n <> "") (nextSteps report)) /\
  (transcripts_of (s_events session) = [] ->
     problem report = "Customer reported technical issue requiring assistance." /\
     result report
       = "Troubleshooting steps completed. Customer to test and report back if issues persist." /\
     map n_description (nextSteps report)
       = ["Monitor for customer callback within 48 hours"]) /\
  (uiEvents_of (s_events session) = [] ->
     actions report = default_actions).
Proof.
  unfold generatePARNReport. cbv zeta. simpl.
  split; [apply extractProblem_nonempty|].
  split; [apply generateActions_numbered|].
  split; [apply extractResult_nonempty|].
  split.
  - destruct (generateNextSteps_one now
                (extractProblem (firstn 5 (transcripts_of (s_events session))))
                (extractResult (last_n 3 (transcripts_of (s_events session)))))
      as (step & -> & Hd).
    split; [discriminate | repeat constructor; exact Hd].
  - split.
    + intros ->. repeat split; reflexivity.
    + intros ->. reflexivity.
Qed.

(** The report of a session without events. *)
Example report_of_empty_session (now : Z) :
  let report := generatePARNReport toISOString now (mkSession "s" None None 0 None []) in
  problem report = "Customer reported technical issue requiring assistance." /\
  actions report = default_actions /\
  result report
    = "Troubleshooting steps completed. Customer to test and report back if issues persist." /\
  nextSteps report
    = [ mkNextStep "Monitor for customer callback within 48 hours" (Some "T1 Queue")
          (Some (iso_day toISOString (now + 172800000))) medium ].
Proof. repeat split; reflexivity. Qed.

End ComposerProperties.

(* ===================================================================== *)
(** * Properties of the pattern matcher *)
(* ===================================================================== *)

Section RegexProperties.

Import JsString Regex.

Lemma run_length_spec (p : ascii -> bool) (s : list ascii) (limit i : nat) :
  (run_length p s i limit <= limit)%nat /\
  forall d, (d < run_length p s i limit)%nat ->
            exists c, nth_error s (i + d) = Some c /\ p c = true.
Proof.
  revert i. induction limit as [|limit IH]; intros i; simpl.
  - split; [lia | intros d Hd; lia].
  - destruct (nth_error s i) as [c|] eqn:Ec; [|split; [lia | intros d Hd; lia]].
    destruct (p c) eqn:Ep; [|split; [lia | intros d Hd; lia]].
    destruct (IH (S i)) as [Hle Hall]. split; [lia|].
    intros [|d] Hd.
    + exists c. rewrite Nat.add_0_r. auto.
    + destruct (Hall d) as (c' & Hc' & Hp'); [lia|].
      exists c'. rewrite Nat.add_succ_r. auto.
Qed.

Lemma run_length_max (p : ascii -> bool) (s : list ascii) (limit i n : nat) :
  (n <= limit)%nat ->
  (forall d, (d < n)%nat -> exists c, nth_error s (i + d) = Some c /\ p c = true) ->
  (n <= run_length p s i limit)%nat.
Proof.
  revert i n. induction limit as [|limit IH]; intros i n Hn Hall; simpl; [lia|].
  destruct n as [|n]; [lia|].
  destruct (Hall 0%nat) as (c & Hc & Hp); [lia|].
  rewrite Nat.add_0_r in Hc. rewrite Hc, Hp.
  apply le_n_S. apply IH; [lia|].
  intros d Hd. destruct (Hall (S d)) as (c' & Hc' & Hp'); [lia|].
  exists c'. rewrite Nat.add_succ_r in Hc'. auto.
Qed.

Lemma try_down_sound (n lo i : nat) (k : nat -> option nat) (e : nat) :
  try_down n lo i k = Some e ->
  exists c, (lo <= c <= n)%nat /\ k (i + c)%nat = Some e.
Proof.
  induction n as [|n IH]; simpl.
  - destruct (0 <? lo)%nat eqn:El; [discriminate|].
    apply Nat.ltb_ge in El.
    destruct (k (i + 0)%nat) eqn:Ek; [|discriminate].
    intros [= <-]. exists 0%nat. split; [lia | exact Ek].
  - destruct (S n <? lo)%nat eqn:El; [discriminate|].
    apply Nat.ltb_ge in El.
    destruct (k (i + S n)%nat) eqn:Ek.
    + intros [= <-]. exists (S n). split; [lia | exact Ek].
    + intros H. destruct (IH H) as (c & Hc & Hk). exists c. split; [lia | exact Hk].
Qed.

Lemma try_down_complete (n lo i c : nat) (k : nat -> option nat) :
  (lo <= c <= n)%nat -> k (i + c)%nat <> None -> try_down n lo i k <> None.
Proof.
  induction n as [|n IH]; simpl; intros Hc Hk.
  - assert (c = 0)%nat by lia. subst c.
    destruct (0 <? lo)%nat eqn:El; [apply Nat.ltb_lt in El; lia|].
    destruct (k (i + 0)%nat); [discriminate | contradiction].
  - destruct (S n <? lo)%nat eqn:El; [apply Nat.ltb_lt in El; lia|].
    destruct (k (i + S n)%nat) eqn:Ek; [discriminate|].
    apply IH; [|exact Hk].
    destruct (Nat.eq_dec c (S n)) as [->|Hne]; [contradiction | lia].
Qed.

(** Whatever the matcher finds is a match, continued by [k]. *)
Lemma m_sound (s : list ascii) (r : regex) :
  forall i k e, m r s i k = Some e -> exists j, Matches s r i j /\ k j = Some e.
Proof.
  induction r as [p| |r1 IH1 r2 IH2|r IH|p lo hi]; intros i k e; simpl.
  - destruct (nth_error s i) as [c|] eqn:Ec; [|discriminate].
    destruct (p c) eqn:Ep; [|discriminate].
    intros H. exists (S i). split; [econstructor; eauto | exact H].
  - destruct (word_boundary s i) eqn:Ew; [|discriminate].
    intros H. exists i. split; [now constructor | exact H].
  - intros H. apply IH1 in H as (j & Hj & H). apply IH2 in H as (j' & Hj' & H).
    exists j'. split; [econstructor; eauto | exact H].
  - destruct (m r s i _) as [e'|] eqn:Em.
    + intros [= <-]. apply IH in Em as (j & Hj & H).
      destruct (j =? i)%nat eqn:Eji; [discriminate|].
      apply Nat.eqb_neq in Eji. exists j. split; [now apply MOptTake | exact H].
    + intros H. exists i. split; [constructor | exact H].
  - intros H. apply try_down_sound in H as (c & Hc & H).
    exists (i + c)%nat. split; [|exact H].
    set (limit := match hi with Some h => h | None => length s end) in *.
    destruct (run_length_spec p s limit i) as [Hle Hall].
    constructor; [lia | | intros d Hd; apply Hall; lia].
    intros h ->. simpl in *. lia.
Qed.

Lemma Matches_bounds (s : list ascii) (r : regex) (i j : nat) :
  Matches s r i j ->
  (i + min_len r <= j)%nat /\ ((i <= length s)%nat -> (j <= length s)%nat).
Proof.
  induction 1 as [p i c Hc Hp|i Hw|r1 r2 i j k _ IH1 _ IH2|r i|r i j _ IH Hne
                  |p lo hi i n Hlo Hhi Hall]; simpl.
  - split; [lia|]. intros _. apply nth_error_Some. congruence.
  - split; [lia | auto].
  - split; [lia | intros; apply IH2, IH1; assumption].
  - split; [lia | auto].
  - split; [lia | apply IH].
  - split; [lia|]. intros Hi. destruct n as [|n]; [lia|].
    destruct (Hall n) as (c & Hc & _); [lia|].
    assert (i + n < length s)%nat by (apply nth_error_Some; congruence). lia.
Qed.

(** Wherever a match exists the matcher finds one, provided the
    continuation accepts the end of that match. *)
Lemma m_complete (s : list ascii) (r : regex) (i j : nat) :
  Matches s r i j -> (i <= length s)%nat ->
  forall k, k j <> None -> m r s i k <> None.
Proof.
  induction 1 as [p i c Hc Hp|i Hw|r1 r2 i j k' H1 IH1 H2 IH2|r i|r i j H IH Hne
                  |p lo hi i n Hlo Hhi Hall]; intros Hi k Hk; simpl.
  - now rewrite Hc, Hp.
  - now rewrite Hw.
  - apply IH1; [exact Hi|]. apply IH2; [|exact Hk].
    now apply (Matches_bounds _ _ _ _ H1).
  - destruct (m r s i _); [discriminate | exact Hk].
  - destruct (m r s i (fun j0 => if (j0 =? i)%nat then None else k j0)) eqn:Em;
      [discriminate|].
    exfalso. revert Em. apply IH; [exact Hi|].
    apply Nat.eqb_neq in Hne. now rewrite Hne.
  - apply try_down_complete with (c := n); [|exact Hk].
    split; [exact Hlo|]. apply run_length_max; [|exact Hall].
    destruct hi as [h|]; [now apply Hhi|].
    destruct n as [|n]; [lia|].
    destruct (Hall n) as (c & Hc & _); [lia|].
    assert (i + n < length s)%nat by (apply nth_error_Some; congruence). lia.
Qed.

Lemma Matches_seq_inv (s : list ascii) (r1 r2 : regex) (i k : nat) :
  Matches s (Seq r1 r2) i k -> exists j, Matches s r1 i j /\ Matches s r2 j k.
Proof. inversion 1; subst; eauto. Qed.

Lemma Matches_chr_inv (s : list ascii) (p : ascii -> bool) (i j : nat) :
  Matches s (Chr p) i j -> j = S i /\ exists c, nth_error s i = Some c /\ p c = true.
Proof. inversion 1; subst; eauto. Qed.

Lemma Matches_wordb_inv (s : list ascii) (i j : nat) :
  Matches s WordB i j -> j = i /\ word_boundary s i = true.
Proof. inversion 1; subst; eauto. Qed.

(** A repetition with equal bounds spans exactly that many code units. *)
Lemma Matches_rep_exact (s : list ascii) (p : ascii -> bool) (n i j : nat) :
  Matches s (Rep p n (Some n)) i j ->
  j = (i + n)%nat /\
  forall d, (d < n)%nat -> exists c, nth_error s (i + d) = Some c /\ p c = true.
Proof.
  inversion 1 as [| | | | |p' lo hi i' n' Hlo Hhi Hall]; subst.
  specialize (Hhi n eq_refl). assert (n' = n) by lia. subst. auto.
Qed.

Lemma one_eq (a c : ascii) : one a c = true -> c = a.
Proof. unfold one. intros H. apply Ascii.eqb_eq in H. congruence. Qed.

Lemma exec_at_sound (s : list ascii) (r : regex) (i e : nat) :
  exec_at r s i = Some e -> Matches s r i e.
Proof.
  unfold exec_at. intros H. apply m_sound in H as (j & Hj & [= <-]). exact Hj.
Qed.

Lemma exec_at_complete (s : list ascii) (r : regex) (i j : nat) :
  Matches s r i j -> (i <= length s)%nat -> exec_at r s i <> None.
Proof.
  intros H Hi. unfold exec_at. apply (m_complete s r i j H Hi). discriminate.
Qed.

(** Every reported match is a match found at its start, at or after
    [lastIndex]. *)
Lemma scan_sound (r : regex) (s : list ascii) (positions : list nat) :
  forall lastIndex i e,
    In (i, e) (scan r s positions lastIndex) ->
    In i positions /\ (lastIndex <= i)%nat /\ exec_at r s i = Some e.
Proof.
  induction positions as [|a rest IH]; intros lastIndex i e; simpl; [tauto|].
  destruct (a <? lastIndex)%nat eqn:El.
  - intros H. apply IH in H as (Hin & Hle & He). auto.
  - apply Nat.ltb_ge in El. destruct (exec_at r s a) as [e'|] eqn:Ea.
    + intros [[= <- <-]|H]; [auto|].
      apply IH in H as (Hin & Hle & He). split; [auto|]. split; [|exact He].
      pose proof (exec_at_sound _ _ _ _ Ea) as Hm.
      apply Matches_bounds in Hm as [Hm _].
      destruct (e' =? a)%nat; lia.
    + intros H. apply IH in H as (Hin & Hle & He). auto.
Qed.

(** Every position at or after [lastIndex] where the pattern matches lies
    inside a reported match, or starts one. *)
Lemma scan_cover (r : regex) (s : list ascii) (n : nat) :
  forall a lastIndex i,
    In i (seq a n) -> (lastIndex <= i)%nat -> exec_at r s i <> None ->
    exists i' e', In (i', e') (scan r s (seq a n) lastIndex) /\
                  (i' <= i)%nat /\ (i < Nat.max e' (S i'))%nat.
Proof.
  induction n as [|n IH]; intros a lastIndex i; simpl; [tauto|].
  intros [<-|Hin] Hle Hex.
  - destruct (a <? lastIndex)%nat eqn:El; [apply Nat.ltb_lt in El; lia|].
    destruct (exec_at r s a) as [e|] eqn:Ea; [|contradiction].
    exists a, e. split; [now left | lia].
  - assert (Ha : (a < i)%nat) by (apply in_seq in Hin; lia).
    destruct (a <? lastIndex)%nat eqn:El.
    + destruct (IH (S a) lastIndex i Hin Hle Hex) as (i' & e' & H & Hb).
      exists i', e'. auto.
    + destruct (exec_at r s a) as [e|] eqn:Ea.
      * set (next := if (e =? a)%nat then S a else e).
        destruct (le_lt_dec next i) as [Hn|Hn].
        -- destruct (IH (S a) next i Hin Hn Hex) as (i' & e' & H & Hb).
           exists i', e'. split; [now right | exact Hb].
        -- exists a, e. split; [now left|]. split; [lia|].
           subst next. destruct (e =? a)%nat; lia.
      * destruct (IH (S a) lastIndex i Hin Hle Hex) as (i' & e' & H & Hb).
        exists i', e'. auto.
Qed.

Lemma length_list_ascii (str : string) :
  length (list_ascii_of_string str) = String.length str.
Proof. induction str as [|c str IH]; simpl; [reflexivity | now rewrite IH]. Qed.

(** The matches of [matchAll] are matches of the pattern inside the string. *)
Lemma matchAll_sound (r : regex) (str : string) (i e : nat) :
  In (i, e) (matchAll r str) ->
  Matches (list_ascii_of_string str) r i e /\ (i <= e <= String.length str)%nat.
Proof.
  unfold matchAll. intros H. apply scan_sound in H as (Hin & _ & He).
  apply exec_at_sound in He. split; [exact He|].
  apply in_seq in Hin. pose proof (Matches_bounds _ _ _ _ He) as [H1 H2].
  rewrite length_list_ascii in *. lia.
Qed.

(** Every place where the pattern matches is inside or at the start of a
    match of [matchAll]. *)
Lemma matchAll_cover (r : regex) (str : string) (i j : nat) :
  Matches (list_ascii_of_string str) r i j -> (i <= String.length str)%nat ->
  exists i' e', In (i', e') (matchAll r str) /\ (i' <= i)%nat /\ (i < Nat.max e' (S i'))%nat.
Proof.
  intros Hm Hi. unfold matchAll. apply scan_cover.
  - apply in_seq. rewrite length_list_ascii. lia.
  - lia.
  - apply (exec_at_complete _ _ _ _ Hm). now rewrite length_list_ascii.
Qed.

Lemma substring_length (str : string) (i n : nat) :
  (i + n <= String.length str)%nat -> String.length (String.substring i n str) = n.
Proof.
  revert i n. induction str as [|c str IH]; intros i n H; simpl in *.
  - assert (i = 0 /\ n = 0)%nat as [-> ->] by lia. reflexivity.
  - destruct i as [|i].
    + destruct n as [|n]; simpl; [reflexivity|]. f_equal. apply IH. lia.
    + apply IH. lia.
Qed.

(** [str.slice(i, i + n)] is the part of [n] code units from [i]. *)
Lemma slice_substring (str : string) (i n : nat) :
  (i + n <= String.length str)%nat ->
  slice str (Z.of_nat i) (Z.of_nat i + Z.of_nat n) = String.substring i n str.
Proof.
  intros H. unfold slice, clamp_index.
  destruct (Z.of_nat i <? 0)%Z eqn:E1; [apply Z.ltb_lt in E1; lia|].
  destruct (Z.of_nat i + Z.of_nat n <? 0)%Z eqn:E2; [apply Z.ltb_lt in E2; lia|].
  rewrite !Z.min_l by lia.
  replace (Z.of_nat i + Z.of_nat n - Z.of_nat i)%Z with (Z.of_nat n) by lia.
  now rewrite !Nat2Z.id.
Qed.

End RegexProperties.

(* ===================================================================== *)
(** * Properties of the ASR processor *)
(* ===================================================================== *)

Section ASRProperties.

Import JsString Regex Store ASR.

(** The index drawn for an array of twelve elements is inside the array,
    rounding of the product included. *)
Lemma random_index_12 (r : Z) :
  random_ok r -> (0 <= random_index r 12 < 12)%Z.
Proof.
  unfold random_ok, random_index, round53. intros Hr.
  set (N := (r * 12)%Z).
  assert (HN : (0 <= N <= 12 * 2 ^ 53 - 12)%Z) by (unfold N; lia).
  destruct (N <? 2 ^ 53)%Z eqn:Elt.
  - apply Z.ltb_lt in Elt. rewrite Z.div_small by lia. lia.
  - apply Z.ltb_ge in Elt.
    assert (Hlo : (53 <= Z.log2 N)%Z) by (apply Z.log2_le_pow2; lia).
    assert (Hhi : (Z.log2 N < 57)%Z).
    { apply Z.log2_lt_pow2; [lia|].
      assert (12 * 2 ^ 53 < 2 ^ 57)%Z by reflexivity. lia. }
    remember (Z.log2 N - 52)%Z as e eqn:He.
    assert (Hd := Z.div_mod N (2 ^ e)).
    assert (Hm := Z.mod_pos_bound N (2 ^ e)).
    set (q := (N / 2 ^ e)%Z) in *. set (m := (N mod 2 ^ e)%Z) in *.
    set (half := (2 ^ (e - 1))%Z).
    assert (Hcases : (2 ^ e = 2 * half)%Z /\ (1 <= half <= 8)%Z).
    { assert (e = 1 \/ e = 2 \/ e = 3 \/ e = 4)%Z as [ -> | [ -> | [ -> | -> ] ] ] by lia;
        subst half; split; try reflexivity; simpl; lia. }
    destruct Hcases as [Hpow Hhalf]. rewrite Hpow in *.
    assert (Hq' : forall q', (q' = q \/ (q' = q + 1 /\ half <= m))%Z ->
                            (0 <= q' * (2 * half) / 2 ^ 53 < 12)%Z).
    { intros q' Hq'. split.
      - apply Z.div_pos; [|reflexivity]. nia.
      - apply Z.div_lt_upper_bound; [reflexivity|].
        change (2 ^ 53 * 12)%Z with (12 * 2 ^ 53)%Z.
        destruct Hq' as [->|[-> Hge]]; nia. }
    apply Hq'.
    destruct (half <? m)%Z eqn:E1; simpl.
    + apply Z.ltb_lt in E1. right. lia.
    + destruct (m =? half)%Z eqn:E2; simpl; [|now left].
      apply Z.eqb_eq in E2. destruct (Z.odd q); [right; lia | now left].
Qed.

Lemma at_index_in {A} (xs : list A) (i : Z) :
  (0 <= i < Z.of_nat (length xs))%Z -> exists x, at_index xs i = Some x /\ In x xs.
Proof.
  intros Hi. unfold at_index.
  destruct (i <? 0)%Z eqn:E; [apply Z.ltb_lt in E; lia|].
  destruct (nth_error xs (Z.to_nat i)) as [x|] eqn:En.
  - exists x. split; [reflexivity|]. eapply nth_error_In; eauto.
  - apply nth_error_None in En. lia.
Qed.

(** C3.  For every audio chunk and every value [Math.random()] can return,
    [processAudioChunk] returns a result, and the transcript of the result
    is one of the twelve sample phrases; so is the transcript of every
    message the socket sends for an audio chunk. *)
Theorem processAudioChunk_transcript (draws : Draws) (data : AudioChunkData) :
  random_ok (d_phrase draws) ->
  length samplePhrases = 12%nat /\
  (exists result,
      processAudioChunk draws data = Ok result /\
      In (transcript result) samplePhrases) /\
  (forall later sid ts t c sp f,
      In (TranscriptMessage sid ts t c sp f)
         (on_audio_chunk draws (context data) later (audioData data) (timestamp data)) ->
      In t samplePhrases).
Proof.
  intros Hr. split; [reflexivity|].
  assert (Hall : forall data', exists result,
             processAudioChunk draws data' = Ok result /\
             In (transcript result) samplePhrases).
  { intros data'. unfold processAudioChunk, simulateASR.
    destruct (at_index_in samplePhrases
                (random_index (d_phrase draws) (Z.of_nat (length samplePhrases))))
      as (phrase & -> & Hin).
    { change (Z.of_nat (length samplePhrases)) with 12%Z. now apply random_index_12. }
    eexists. split; [reflexivity | exact Hin]. }
  split; [apply Hall|].
  intros later sid ts t c sp f. unfold on_audio_chunk.
  destruct (Hall (mkAudioChunkData (audioData data) (ctx_sessionId (context data))
                    (timestamp data) (context data))) as (result & -> & Hin).
  intros H. apply in_app_or in H as [H|H].
  - destruct (truthy (transcript result)); [|contradiction].
    destruct H as [[= _ _ <- _ _ _]|[]]. exact Hin.
  - destruct (detections result) as [ds|]; [|contradiction].
    destruct (0 <? length ds)%nat; [|contradiction].
    destruct H as [H|[]]. discriminate.
Qed.

(** For the draw 0 and an empty chunk the first phrase is transcribed. *)
Lemma processAudioChunk_transcript_witness :
  random_ok 0 /\
  exists result,
    processAudioChunk (mkDraws 0 0 0)
      (mkAudioChunkData "" "s1" "2025-09-15T10:15:00Z" (mkContext "s1" "en-US" true))
    = Ok result /\
    transcript result = "Hi, I'm having trouble connecting to the wifi network." /\
    In (transcript result) samplePhrases.
Proof.
  assert (H : random_ok (d_phrase (mkDraws 0 0 0))) by (unfold random_ok; simpl; lia).
  split; [exact H|].
  destruct (processAudioChunk_transcript (mkDraws 0 0 0)
              (mkAudioChunkData "" "s1" "2025-09-15T10:15:00Z"
                 (mkContext "s1" "en-US" true)) H)
    as (_ & (result & Hr & Hin) & _).
  exists result. split; [exact Hr|]. split; [|exact Hin].
  vm_compute in Hr. injection Hr as <-. reflexivity.
Defined.

Lemma filter_map_const {A B} (p : B -> bool) (f : A -> B) (b : bool) (l : list A) :
  (forall x, p (f x) = b) ->
  List.filter p (map f l) = if b then map f l else [].
Proof.
  intros H. induction l as [|a l IH]; simpl; [now destruct b|].
  rewrite H, IH. now destruct b.
Qed.

Lemma filter_flat_map_nil {A B} (p : B -> bool) (f : A -> list B) (l : list A) :
  (forall x, List.filter p (f x) = []) -> List.filter p (flat_map f l) = [].
Proof.
  intros H. induction l as [|a l IH]; simpl; [reflexivity|].
  now rewrite List.filter_app, H, IH.
Qed.

Lemma profanity_not_pii (name : string) (transcript : string) :
  List.filter (has_type ("pii_" ++ name)) (profanity_detections transcript) = [].
Proof.
  unfold profanity_detections. cbv zeta. apply filter_flat_map_nil.
  intros w. destruct (existsb (String.eqb w) profanityList); reflexivity.
Qed.

Lemma pii_detection_type (name transcript : string) (mt : nat * nat) :
  detectionType (pii_detection name transcript mt) = "pii_" ++ name.
Proof. now destruct mt. Qed.

(** The detections of one PII type are those of the matches of its
    pattern, one each, in the order of the matches. *)
Lemma detections_of_pattern (transcript name : string) (pattern : regex) :
  In (name, pattern) piiPatterns ->
  List.filter (has_type ("pii_" ++ name)) (detectContent transcript)
  = map (pii_detection name transcript) (matchAll pattern transcript).
Proof.
  intros Hin. unfold detectContent.
  rewrite List.filter_app, profanity_not_pii. cbn [app].
  unfold pii_detections, piiPatterns. cbn [flat_map fst snd].
  rewrite !List.filter_app.
  rewrite (filter_map_const _ (pii_detection "email" transcript)
             (String.eqb ("pii_" ++ "email") ("pii_" ++ name)))
    by (intros x; unfold has_type; now rewrite pii_detection_type).
  rewrite (filter_map_const _ (pii_detection "phone" transcript)
             (String.eqb ("pii_" ++ "phone") ("pii_" ++ name)))
    by (intros x; unfold has_type; now rewrite pii_detection_type).
  rewrite (filter_map_const _ (pii_detection "ssn" transcript)
             (String.eqb ("pii_" ++ "ssn") ("pii_" ++ name)))
    by (intros x; unfold has_type; now rewrite pii_detection_type).
  rewrite (filter_map_const _ (pii_detection "credit_card" transcript)
             (String.eqb ("pii_" ++ "credit_card") ("pii_" ++ name)))
    by (intros x; unfold has_type; now rewrite pii_detection_type).
  unfold piiPatterns in Hin. cbn [In] in Hin.
  destruct Hin as [[= <- <-]|[[= <- <-]|[[= <- <-]|[[= <- <-]|[]]]]];
    cbn [String.eqb Ascii.eqb Bool.eqb append]; cbn [app]; now rewrite ?app_nil_r.
Qed.

Lemma pii_min_len (name : string) (pattern : regex) :
  In (name, pattern) piiPatterns -> (1 <= min_len pattern)%nat.
Proof.
  unfold piiPatterns. cbn [In].
  intros [[= <- <-]|[[= <- <-]|[[= <- <-]|[[= <- <-]|[]]]]]; simpl; lia.
Qed.

Lemma word_boundary_in_range (s : list ascii) (i : nat) :
  word_boundary s i = true -> (i <= length s)%nat.
Proof.
  unfold word_boundary, word_at. intros H.
  destruct (le_lt_dec i (length s)) as [Hle|Hgt]; [exact Hle|].
  destruct i as [|i]; [lia|].
  assert (H1 : nth_error s i = None) by (apply nth_error_None; lia).
  assert (H2 : nth_error s (S i) = None) by (apply nth_error_None; lia).
  rewrite H1, H2 in H. discriminate.
Qed.

Lemma pii_match_in_range (s : list ascii) (name : string) (pattern : regex) (i j : nat) :
  In (name, pattern) piiPatterns -> Matches s pattern i j -> (i <= length s)%nat.
Proof.
  unfold piiPatterns. cbn [In].
  intros [[= <- <-]|[[= <- <-]|[[= <- <-]|[[= <- <-]|[]]]]] Hm;
    inversion Hm as [| |r1 r2 i0 j0 k0 Hb _| | |]; subst;
    inversion Hb; subst; now apply word_boundary_in_range.
Qed.

(** What the SSN pattern matches: eleven code units between two word
    boundaries, three digits, a dash, two digits, a dash and four digits. *)
Lemma ssn_match_shape (s : list ascii) (i j : nat) :
  Matches s ssn_pattern i j <->
  j = (i + 11)%nat /\
  word_boundary s i = true /\ word_boundary s (i + 11) = true /\
  (forall d, In d [0; 1; 2; 4; 5; 7; 8; 9; 10]%nat ->
             exists c, nth_error s (i + d) = Some c /\ is_digit c = true) /\
  (forall d, In d [3; 6]%nat -> nth_error s (i + d) = Some "-"%char).
Proof.
  unfold ssn_pattern. cbn [seq_of]. split.
  - intros H.
    apply Matches_seq_inv in H as (j0 & Hb & H). apply Matches_wordb_inv in Hb as [-> Hb].
    apply Matches_seq_inv in H as (j1 & H3 & H). apply Matches_rep_exact in H3 as [-> H3].
    apply Matches_seq_inv in H as (j2 & Hd1 & H).
    apply Matches_chr_inv in Hd1 as [-> (c1 & Hc1 & Hd1)]. apply one_eq in Hd1. subst c1.
    apply Matches_seq_inv in H as (j3 & H2 & H). apply Matches_rep_exact in H2 as [-> H2].
    apply Matches_seq_inv in H as (j4 & Hd2 & H).
    apply Matches_chr_inv in Hd2 as [-> (c2 & Hc2 & Hd2)]. apply one_eq in Hd2. subst c2.
    apply Matches_seq_inv in H as (j5 & H4 & H). apply Matches_rep_exact in H4 as [-> H4].
    apply Matches_wordb_inv in H as [-> He].
    assert (E : (S (S (i + 3) + 2) + 4 = i + 11)%nat) by lia. rewrite E in *.
    split; [reflexivity|]. split; [exact Hb|]. split; [exact He|]. split.
    + intros d Hd. cbn [In] in Hd.
      assert (Hcase : ((d < 3) \/ (4 <= d < 6) \/ (7 <= d < 11))%nat) by lia.
      destruct Hcase as [Hlt|[Hlt|Hlt]].
      * apply H3. lia.
      * destruct (H2 (d - 4)%nat) as (c & Hc & Hp); [lia|]. exists c. split; [|exact Hp].
        rewrite <- Hc. f_equal. lia.
      * destruct (H4 (d - 7)%nat) as (c & Hc & Hp); [lia|]. exists c. split; [|exact Hp].
        rewrite <- Hc. f_equal. lia.
    + intros d Hd. cbn [In] in Hd. destruct Hd as [<-|[<-|[]]].
      * exact Hc1.
      * rewrite <- Hc2. f_equal. lia.
  - intros (-> & Hb & He & Hdig & Hdash).
    assert (E : (i + 11 = S (S (i + 3) + 2) + 4)%nat) by lia. rewrite E in *.
    assert (Hin : forall d, ((d < 3) \/ (4 <= d < 6) \/ (7 <= d < 11))%nat ->
                            In d [0; 1; 2; 4; 5; 7; 8; 9; 10]%nat).
    { intros d Hd. cbn [In]. lia. }
    eapply MSeq; [now apply MWordB|].
    eapply MSeq.
    { apply (MRep s is_digit 3 (Some 3) i 3); [lia | intros h [= <-]; lia |].
      intros d Hd. apply Hdig, Hin. lia. }
    eapply MSeq.
    { apply MChr with (c := "-"%char); [apply (Hdash 3%nat); cbn; auto | reflexivity]. }
    eapply MSeq.
    { apply (MRep s is_digit 2 (Some 2) (S (i + 3)) 2); [lia | intros h [= <-]; lia |].
      intros d Hd. destruct (Hdig (4 + d)%nat) as (c & Hc & Hp); [apply Hin; lia|].
      exists c. split; [|exact Hp]. rewrite <- Hc. f_equal. lia. }
    eapply MSeq.
    { apply MChr with (c := "-"%char); [|reflexivity].
      rewrite <- (Hdash 6%nat) by (cbn; auto). f_equal. lia. }
    eapply MSeq.
    { apply (MRep s is_digit 4 (Some 4) (S (S (i + 3) + 2)) 4); [lia | intros h [= <-]; lia |].
      intros d Hd. destruct (Hdig (7 + d)%nat) as (c & Hc & Hp); [apply Hin; lia|].
      exists c. split; [|exact Hp]. rewrite <- Hc. f_equal. lia. }
    now apply MWordB.
Qed.

(** The detection of a match found by [matchAll]: offsets and text. *)
Lemma pii_detection_offsets (name transcript : string) (pattern : regex) (i e : nat) :
  In (i, e) (matchAll pattern transcript) ->
  let d := pii_detection name transcript (i, e) in
  startOffset d = Z.of_nat i /\ endOffset d = Z.of_nat e /\
  text d = String.substring i (e - i) transcript /\
  slice transcript (startOffset d) (endOffset d) = text d.
Proof.
  intros Hin. apply matchAll_sound in Hin as [_ Hb]. simpl.
  rewrite substring_length by lia.
  split; [reflexivity|]. split; [lia|]. split; [reflexivity|].
  apply slice_substring. lia.
Qed.

(** C4.  For every transcript and each of the four PII patterns: the
    detections of the pattern's type are the matches [matchAll] finds for
    it, one detection for each match and in the same order; every such
    detection spans a substring that matches the pattern, and the slice of
    the transcript between its offsets is its text; and every place where
    the pattern matches lies within the span of one of these detections. *)
Theorem detectContent_pii (transcript : string) :
  let s := list_ascii_of_string transcript in
  let found := detectContent transcript in
  (forall name pattern,
      In (name, pattern) piiPatterns ->
      List.filter (has_type ("pii_" ++ name)) found
      = map (pii_detection name transcript) (matchAll pattern transcript)) /\
  (forall name pattern d,
      In (name, pattern) piiPatterns -> In d found ->
      detectionType d = "pii_" ++ name ->
      exists i e,
        In (i, e) (matchAll pattern transcript) /\
        Matches s pattern i e /\
        startOffset d = Z.of_nat i /\ endOffset d = Z.of_nat e /\
        text d = String.substring i (e - i) transcript /\
        slice transcript (startOffset d) (endOffset d) = text d) /\
  (forall name pattern i j,
      In (name, pattern) piiPatterns -> Matches s pattern i j ->
      exists d,
        In d found /\ detectionType d = "pii_" ++ name /\
        (startOffset d <= Z.of_nat i < endOffset d)%Z).
Proof.
  cbv zeta. split; [|split].
  - intros name pattern Hin. now apply detections_of_pattern.
  - intros name pattern d Hin Hd Hty.
    assert (Hf : In d (List.filter (has_type ("pii_" ++ name)) (detectContent transcript))).
    { apply filter_In. split; [exact Hd|]. unfold has_type. rewrite Hty.
      apply String.eqb_refl. }
    rewrite (detections_of_pattern _ _ _ Hin) in Hf.
    apply in_map_iff in Hf as ([i e] & <- & Hm).
    exists i, e. split; [exact Hm|]. split; [now apply matchAll_sound in Hm|].
    now apply pii_detection_offsets with (pattern := pattern).
  - intros name pattern i j Hin Hm.
    assert (Hi : (i <= String.length transcript)%nat).
    { rewrite <- length_list_ascii. eapply pii_match_in_range; eauto. }
    destruct (matchAll_cover _ _ _ _ Hm Hi) as (i' & e' & Hin' & Hle & Hlt).
    exists (pii_detection name transcript (i', e')).
    pose proof (pii_detection_offsets name transcript pattern i' e' Hin') as (Hs & He & _).
    split; [|split].
    + assert (Hf : In (pii_detection name transcript (i', e'))
                     (List.filter (has_type ("pii_" ++ name)) (detectContent transcript))).
      { rewrite (detections_of_pattern _ _ _ Hin). apply in_map. exact Hin'. }
      now apply filter_In in Hf.
    + apply pii_detection_type.
    + rewrite Hs, He. apply matchAll_sound in Hin' as [Hm' _].
      apply Matches_bounds in Hm' as [Hm' _].
      pose proof (pii_min_len _ _ Hin). lia.
Qed.

(** In a run of five groups of four digits the card pattern matches the
    first four groups and also the last four; [matchAll] goes on after the
    end of the first match, so the only detection is that of the first. *)
Lemma detectContent_skips_overlap :
  let transcript := "1111 2222 3333 4444 5555" in
  Matches (list_ascii_of_string transcript) credit_card_pattern 0 19 /\
  Matches (list_ascii_of_string transcript) credit_card_pattern 5 24 /\
  map (fun d => (detectionType d, text d, startOffset d, endOffset d))
    (detectContent transcript)
  = [("pii_credit_card", "1111 2222 3333 4444", 0%Z, 19%Z)].
Proof.
  cbv zeta. split; [|split].
  - apply exec_at_sound. vm_compute. reflexivity.
  - apply exec_at_sound. vm_compute. reflexivity.
  - vm_compute. reflexivity.
Qed.

End ASRProperties.

(* ===================================================================== *)
(** * The handlers and the services on concrete inputs *)
(* ===================================================================== *)

Section Examples.

Import JsString Store Auth Demo.

(** The token of an active user yields the authenticated user. *)
Example authenticate_agent :
  authenticate (seed 0) (Some "user-2") (mkRequest None "10.0.0.1")
  = (mkRequest (Some agent_smith) "10.0.0.1", None).
Proof. reflexivity. Qed.

Example requireRole_agent_refused :
  requireRole ["manager"; "admin"] (mkRequest (Some agent_smith) "10.0.0.1")
  = (mkRequest (Some agent_smith) "10.0.0.1",
     Some (mkReply 403 "Insufficient permissions")).
Proof. reflexivity. Qed.

Example requireRole_agent_allowed :
  requireRole ["agent"; "manager"] (mkRequest (Some agent_smith) "10.0.0.1")
  = (mkRequest (Some agent_smith) "10.0.0.1", None).
Proof. reflexivity. Qed.

(** The demo agent sees both demo reports, a user of another tenant none. *)
Example get_reports_demo :
  option_map (map (fun lr => rep_id (Reports.lr_report lr)))
    (payload_of (Reports.get_reports (seed 0) agent_smith)) = Some ["report-1"; "report-2"]
  /\ payload_of (Reports.get_reports (seed 0) stranger) = Some [].
Proof. split; reflexivity. Qed.

Example get_report_other_tenant :
  Reports.get_report (seed 0) stranger "10.0.0.9" "report-1" 5
  = (seed 0, Error 404 "Report not found").
Proof. reflexivity. Qed.

Example get_report_own_tenant :
  let '(db', response) := Reports.get_report (seed 0) agent_smith "10.0.0.1" "report-1" 5 in
  option_map (fun v => rep_id (Reports.vr_report v)) (payload_of response) = Some "report-1"
  /\ map log_action (auditLogs db') = ["report_viewed"].
Proof. split; reflexivity. Qed.

(** The recording session of the demo tenant has no report, and asking for
    one gives none. *)
Example generate_live_session :
  Reports.generate live_db agent_smith "10.0.0.1" "session-3"
  = (live_db, Error 500 "Failed to generate report")
  /\ findReportBySessionId live_db "session-3" = None.
Proof. split; reflexivity. Qed.

(** Only the first ten UI events become actions; the escalation is read off
    the transcript. *)
Example busy_session_report :
  let report := Composer.generatePARNReport iso_stub 0 busy_session in
  map Composer.a_step (Composer.actions report) = seq 1 10
  /\ Composer.problem report = "Customer reported technical issue requiring assistance."
  /\ Composer.result report
     = "Issue requires escalation to specialist team for advanced troubleshooting."
  /\ map Composer.n_priority (Composer.nextSteps report) = [Composer.high]
  /\ Composer.tags report = ["escalated"]
  /\ length (Composer.timeline report) = 13%nat.
Proof. repeat split; reflexivity. Qed.

Example add_event_recording :
  Sessions.add_event iso_parse live_db agent_smith "session-3" note_body
  = (live_db, Error 500 "Internal server error").
Proof. reflexivity. Qed.

Example add_event_bad_type :
  Sessions.add_event iso_parse live_db agent_smith "session-3"
    (Sessions.mkEventBody "2025-09-15T10:15:00Z" "keystroke" None None None)
  = (live_db, Error 400 "Validation error").
Proof. reflexivity. Qed.

Example uuid_shape_examples :
  map uuid_shape [ acme; "report-1"; "demo-tenant-1";
                   "7c9e6679-7425-40de-944b-e07fc1f90ae"; "7c9e6679x7425-40de-944b-e07fc1f90ae7" ]
  = [true; false; false; false; false].
Proof. reflexivity. Qed.

Example export_created_then_completed :
  let '(db1, response, timer) :=
    Exports.create_export uuid_shape uuid_shape acme_db acme_agent "10.0.0.1" jira_body 500
      "c56a4180-65aa-42ec-a945-5fd21dec0538" "16fd2706-8baf-433b-82eb-8c7fada847da" in
  option_map exp_status (payload_of response) = Some "pending"
  /\ match timer with
     | Some tm =>
         map (fun e => (exp_status e, exp_externalId e, exp_deepLink e))
           (List.filter (Exports.has_id "c56a4180-65aa-42ec-a945-5fd21dec0538")
              (exports (Exports.run_timer tm (Exports.mkDraws "1234567" 42 7) 1500 db1)))
         = [ ("completed", Some "HELP-42",
              Some "https://company.atlassian.net/browse/HELP-7") ]
     | None => False
     end.
Proof. split; reflexivity. Qed.

(** The users the middleware authenticates belong to [demo-tenant-1], which
    the database does not take as a [uuid]. *)
(** Retrying the failed export of the tenant sets it to pending, and its
    timer completes it; the completed one cannot be retried. *)
Example retry_failed_export :
  let '(db1, response, timer) :=
    ExportsRetry.retry_export uuid_shape acme_db acme_agent (exp_id failed_export) 30 in
  response = Send "Export retry initiated"
  /\ map (fun e => (exp_status e, exp_errorMessage e)) (exports db1)
     = [("pending", None); ("completed", None)]
  /\ match timer with
     | Some tm =>
         map (fun e => (exp_status e, exp_externalId e))
           (exports (ExportsRetry.run_retry_timer tm (Exports.mkDraws "1234567" 42 7) 40 db1))
         = [ ("completed", Some "42");
             ("completed", Some "file_0e37df36-f698-41f0-9a52-4b1de3dc0f3a.pdf") ]
     | None => False
     end.
Proof. repeat split; reflexivity. Qed.

Example retry_refused :
  ExportsRetry.retry_export uuid_shape acme_db acme_agent (exp_id done_export) 30
  = (acme_db, Error 400 "Can only retry failed exports", None)
  /\ ExportsRetry.retry_export uuid_shape acme_db acme_agent "export-1" 30
     = (acme_db, Error 500 "Internal server error", None)
  /\ ExportsRetry.retry_export uuid_shape acme_db agent_smith (exp_id failed_export) 30
     = (acme_db, Error 500 "Internal server error", None).
Proof. repeat split; reflexivity. Qed.

Example export_demo_tenant :
  Exports.create_export uuid_shape uuid_shape acme_db agent_smith "10.0.0.1" jira_body 500
    "c56a4180-65aa-42ec-a945-5fd21dec0538" "16fd2706-8baf-433b-82eb-8c7fada847da"
  = (acme_db, Error 500 "Internal server error", None).
Proof. reflexivity. Qed.

(** A transcript with a profanity, an e-mail address and a social security
    number. *)
Example detectContent_mixed :
  map (fun d => (ASR.detectionType d, ASR.text d, ASR.startOffset d, ASR.endOffset d))
    (ASR.detectContent "Damn, mail a.b@c.com about 123-45-6789")
  = [ ("pii_email", "a.b@c.com", 11%Z, 20%Z);
      ("pii_ssn", "123-45-6789", 27%Z, 38%Z) ].
Proof. reflexivity. Qed.

Example detectContent_profanity :
  map (fun d => (ASR.detectionType d, ASR.text d, ASR.startOffset d, ASR.endOffset d))
    (ASR.detectContent "well DAMN it")
  = [ ("profanity", "damn", 5%Z, 9%Z) ].
Proof. reflexivity. Qed.

(** A number embedded in a longer run of digits is not a match: the
    patterns are anchored at word boundaries. *)
Example ssn_needs_boundaries :
  Regex.matchAll ASR.ssn_pattern "id 1234-56-78901 x123-45-6789" = []
  /\ Regex.matchAll ASR.ssn_pattern "ssn 123-45-6789." = [(4, 15)%nat].
Proof. split; reflexivity. Qed.

Example phone_forms :
  Regex.matchAll ASR.phone_pattern "call +1 (555) 123-4567 or 555.123.4567"
  = [(6, 22)%nat; (26, 38)%nat].
Proof. reflexivity. Qed.

Example random_index_extremes :
  map (fun r => ASR.random_index r 12) [0; 2 ^ 52; 2 ^ 53 - 1]%Z = [0; 6; 11]%Z.
Proof. reflexivity. Qed.

(** Two jobs are added while none is processed; the processor then takes
    them in the order of arrival. *)
Example queue_two_jobs :
  let data := Queue.mkJobData "https://cdn/a.wav" "session-3" "en-US" 0 in
  let '(st, obs) :=
    Queue.run Queue.init
      [ Queue.AddJob 1 "aaaaaaaaa" data; Queue.AddJob 2 "bbbbbbbbb" data; Queue.Dequeue;
        Queue.Tick; Queue.Tick; Queue.Tick; Queue.Tick; Queue.Finish (Ok "done") 9;
        Queue.Dequeue ] in
  Queue.shifted obs = ["job_1_aaaaaaaaa"; "job_2_bbbbbbbbb"]
  /\ Queue.getQueueStats st = Queue.mkStats 2 0 1 1 0.
Proof. split; vm_compute; reflexivity. Qed.

End Examples.

(* ===================================================================== *)
(** * Further properties: authentication, guards, users and login *)
(* ===================================================================== *)

Section AccessProperties.

Import JsString Store Auth Hooks Users Login.

Lemma findUserById_id (db : Db) (id : string) (u : User) :
  findUserById db id = Some u -> In u (users db) /\ usr_id u = id.
Proof.
  unfold findUserById. intros H. apply find_some in H as [Hin Heq].
  apply String.eqb_eq in Heq. auto.
Qed.

(** The two ways [authenticate] ends. *)
Lemma authenticate_cases (db : Db) (token : option string) (request : Request) :
  (exists id u,
      token = Some id /\ findUserById db id = Some u /\ usr_isActive u = true /\
      authenticate db token request
      = (mkRequest
           (Some (mkAuthUser id (usr_tenantId u) (usr_email u) (usr_name u)
                    (or_default (Some (usr_role u)) "agent")))
           (req_ip request),
         None)) \/
  ((exists message, authenticate db token request = (request, Some (mkReply 401 message))) /\
   (token = None \/
    exists id, token = Some id /\
               (findUserById db id = None \/
                exists u, findUserById db id = Some u /\ usr_isActive u = false))).
Proof.
  unfold authenticate. destruct token as [id|]; [|right; eauto].
  destruct (findUserById db id) as [u|] eqn:Ef; [|right; eauto 7].
  destruct (usr_isActive u) eqn:Ea; simpl.
  - left. pose proof (findUserById_id _ _ _ Ef) as [_ Hid]. subst id.
    exists (usr_id u), u. auto.
  - right. split; [eauto|]. right. exists id. split; [reflexivity|]. right. eauto.
Qed.

(** X1.  [authenticate] either sends 401, with [Invalid token] exactly when
    the token does not verify and [Invalid or inactive user] exactly when
    the token names no user or an inactive one; or it sends nothing and
    sets [request.user] to the identity of the active user the token names,
    with the role [agent] when the stored role is empty, leaving the
    address of the request as it was. *)
Theorem authenticate_outcome (db : Db) (token : option string) (request : Request) :
  let '(request', reply) := authenticate db token request in
  match reply with
  | Some r =>
      reply_code r = 401%Z /\
      ((token = None /\ reply_error r = "Invalid token") \/
       exists id, token = Some id /\ reply_error r = "Invalid or inactive user" /\
                  (findUserById db id = None \/
                   exists u, findUserById db id = Some u /\ usr_isActive u = false))
  | None =>
      exists id u,
        token = Some id /\ findUserById db id = Some u /\ usr_isActive u = true /\
        req_ip request' = req_ip request /\
        req_user request'
        = Some (mkAuthUser id (usr_tenantId u) (usr_email u) (usr_name u)
                  (if String.eqb (usr_role u) "" then "agent" else usr_role u))
  end.
Proof.
  unfold authenticate. destruct token as [id|]; [|simpl; auto].
  destruct (findUserById db id) as [u|] eqn:Ef; [|simpl; eauto 7].
  destruct (usr_isActive u) eqn:Ea; cbn [negb].
  - pose proof (findUserById_id _ _ _ Ef) as [_ Hid]. subst id.
    exists (usr_id u), u. repeat split; auto. cbn [req_user]. do 2 f_equal.
    unfold or_default, truthy. destruct (usr_role u); reflexivity.
  - simpl. split; [reflexivity|]. right. exists id. split; [reflexivity|].
    split; [reflexivity|]. right. eauto.
Qed.

(** X2.  A route behind [authenticate] and [requireRole(allowedRoles)] lets
    a request through exactly when its token names an active user whose
    role (or [agent], when the stored role is empty) is in the list; it
    answers 401 when the token fails and 403 when only the role fails.
    Whatever user the request carried before plays no part. *)
Theorem guarded_outcome (db : Db) (token : option string) (allowedRoles : list string)
    (request : Request) :
  let reply := (guarded db token allowedRoles request).2 in
  let admitted :=
    exists id u, token = Some id /\ findUserById db id = Some u /\
                 usr_isActive u = true /\
                 In (or_default (Some (usr_role u)) "agent") allowedRoles in
  (reply = None <-> admitted) /\
  (forall r, reply = Some r -> reply_code r = 401%Z \/ reply_code r = 403%Z) /\
  (forall r, reply = Some r ->
     (reply_code r = 403%Z <->
      exists id u, token = Some id /\ findUserById db id = Some u /\
                   usr_isActive u = true /\
                   ~ In (or_default (Some (usr_role u)) "agent") allowedRoles)).
Proof.
  cbv zeta. unfold guarded. cbn [run_hooks].
  destruct (authenticate_cases db token request)
    as [(id & u & Ht & Hf & Ha & ->)|[[message ->] Hfail]].
  - remember (or_default (Some (usr_role u)) "agent") as role eqn:Hrole.
    unfold requireRole. cbn [req_user au_role].
    pose proof (array_includes_In allowedRoles role) as Hin.
    destruct (array_includes allowedRoles role); cbn [negb snd].
    + assert (Hyes : In role allowedRoles) by now apply Hin.
      split; [split; [intros _; exists id, u; subst role; auto | reflexivity]|].
      split; discriminate.
    + assert (Hno : ~ In role allowedRoles) by (intros H; apply Hin in H; discriminate).
      split; [split; [discriminate|]|].
      * intros (i & u' & Hi & Hu & _ & Hyes). subst role. congruence.
      * split; [intros r [= <-]; now right|].
        intros r [= <-]. cbn. split; [intros _; exists id, u; subst role; auto | reflexivity].
  - cbn [snd].
    assert (Hnot : forall P : User -> Prop,
               ~ exists id u, token = Some id /\ findUserById db id = Some u /\
                              usr_isActive u = true /\ P u).
    { intros P (i & u & Hi & Hu & Ha & _).
      destruct Hfail as [->|(id & -> & [Hn|(u' & Hu' & Ha')])]; congruence. }
    split; [split; [discriminate | intros H; now apply Hnot in H]|].
    split; [intros r [= <-]; now left|].
    intros r [= <-]. cbn. split; [discriminate | intros H; now apply Hnot in H].
Qed.

Lemma update_rows_standing (p : User -> bool) (f : User -> User) (l : list User) :
  (forall u, standing (f u) = standing u) ->
  map standing (update_rows p f l) = map standing l.
Proof.
  intros H. unfold update_rows. rewrite map_map. apply map_ext.
  intros u. destruct (p u); [apply H | reflexivity].
Qed.

(** X3.  A caller who is not an admin cannot change the role or the active
    flag of any user, nor any id, tenant or e-mail: after [PATCH /:userId]
    these columns of every row are as before; and when the target is
    another user the answer is 400 or 403 and the database is untouched. *)
Theorem patch_user_no_escalation (db : Db) (user : AuthenticatedUser) (ip userId : string)
    (updateData : UpdateBody) (now : Z) (auditId : string) :
  au_role user <> "admin" ->
  let '(db', response) := patch_user db user ip userId updateData now auditId in
  map standing (users db') = map standing (users db) /\
  (au_id user <> userId ->
   db' = db /\ (status_of response = 400%Z \/ status_of response = 403%Z)).
Proof.
  intros Hrole. unfold patch_user.
  destruct (valid_update updateData) eqn:Ev; simpl; [|auto].
  assert (Ha : String.eqb (au_role user) "admin" = false) by now apply String.eqb_neq.
  rewrite Ha. simpl.
  destruct (String.eqb (au_id user) userId) eqn:Eo; simpl.
  2:{ auto. }
  apply String.eqb_eq in Eo.
  unfold valid_update in Ev. apply andb_prop in Ev as [_ Evr].
  destruct (up_role updateData) as [r|] eqn:Er.
  { assert (Ht : truthy r = true).
    { destruct r; [|reflexivity]. discriminate. }
    rewrite Ht. simpl. split; [reflexivity | intros H; contradiction]. }
  destruct (up_isActive updateData) as [a|] eqn:Ei; simpl.
  { split; [reflexivity | intros H; contradiction]. }
  destruct (user_of_tenant db userId (au_tenantId user)); [|split; [reflexivity | intros H; contradiction]].
  unfold insert_auditLog, bind, insert_row.
  match goal with |- context [existsb ?f ?l] => destruct (existsb f l) end; simpl;
    (split; [|intros H; contradiction]);
    apply update_rows_standing; intros row; unfold standing, apply_update; simpl;
    now rewrite Er, Ei.
Qed.

(** X4.  [GET /:userId] sends a user only to the user itself or to a
    manager or admin, and only a user of the caller's tenant with the id
    asked for; anyone else asking for another user's profile gets 403. *)
Theorem get_user_access (db : Db) (user : AuthenticatedUser) (userId : string) :
  (forall v, get_user db user userId = Send v ->
     (au_id user = userId \/ au_role user = "manager" \/ au_role user = "admin") /\
     exists u, In u (users db) /\ v = view u /\
               usr_id u = userId /\ usr_tenantId u = au_tenantId user) /\
  (au_id user <> userId -> au_role user <> "manager" -> au_role user <> "admin" ->
   get_user db user userId = Error 403 "Insufficient permissions").
Proof.
  unfold get_user. split.
  - intros v.
    destruct (negb (String.eqb (au_id user) userId)
              && negb (array_includes ["manager"; "admin"] (au_role user))) eqn:Eg;
      [discriminate|].
    destruct (user_of_tenant db userId (au_tenantId user)) as [u|] eqn:Eu; [|discriminate].
    intros [= <-]. split.
    + apply andb_false_iff in Eg as [Eg|Eg]; apply negb_false_iff in Eg.
      * left. now apply String.eqb_eq.
      * right. apply array_includes_In in Eg. simpl in Eg. intuition.
    + unfold user_of_tenant in Eu. apply find_some in Eu as [Hin Hp].
      apply andb_prop in Hp as [H1 H2].
      apply String.eqb_eq in H1. apply String.eqb_eq in H2. eauto.
  - intros Hid Hm Ha.
    assert (E1 : String.eqb (au_id user) userId = false) by now apply String.eqb_neq.
    assert (E2 : array_includes ["manager"; "admin"] (au_role user) = false).
    { destruct (array_includes _ _) eqn:E; [|reflexivity].
      apply array_includes_In in E. simpl in E. intuition congruence. }
    now rewrite E1, E2.
Qed.

Section LoginProperties.

Variable is_email : string -> bool.
Variable sign : string -> string.

(** X5.  For a well-formed body, [POST /login] succeeds exactly when the
    e-mail is that of an active user and the password is [password]; it then
    sends the token signed for that user and appends one [login] entry to
    the audit log.  In every other case the answer is 401 with the same
    message, whichever of the three checks failed, and the database is
    untouched. *)
Theorem login_outcome (db : Db) (body : LoginBody) (ip : string)
    (userAgent : option string) (now : Z) :
  valid_login is_email body = true ->
  let '(db', response) := login is_email sign db body ip userAgent now in
  let accepted :=
    exists u, findUserByEmail db (l_email body) = Some u /\
              usr_isActive u = true /\ l_password body = "password" in
  (accepted ->
   exists u log,
     findUserByEmail db (l_email body) = Some u /\
     response = Send (mkLoginReply (sign (usr_id u))
                        (mkLoginUser (usr_id u) (usr_email u) (usr_name u) (usr_role u)
                           (usr_tenantId u))) /\
     auditLogs db' = (auditLogs db ++ [log])%list /\
     log_action log = "login" /\ log_userId log = Some (usr_id u) /\
     users db' = users db) /\
  (~ accepted -> response = Error 401 "Invalid credentials" /\ db' = db).
Proof.
  intros Hv. unfold login. rewrite Hv. simpl.
  destruct (findUserByEmail db (l_email body)) as [u|] eqn:Ef.
  2:{ split; [intros (u & H & _); discriminate | auto]. }
  destruct (usr_isActive u) eqn:Ea; simpl.
  2:{ split; [intros (u' & [= <-] & H & _); congruence | auto]. }
  destruct (String.eqb (l_password body) "password") eqn:Ep; simpl.
  - apply String.eqb_eq in Ep. split.
    + intros _. eexists u, _. repeat split.
    + intros Hn. exfalso. apply Hn. eauto.
  - apply String.eqb_neq in Ep. split; [intros (u' & _ & _ & H); contradiction | auto].
Qed.

End LoginProperties.

End AccessProperties.

(* ===================================================================== *)
(** * Further properties of the report composer *)
(* ===================================================================== *)

Section ComposerMore.

Import JsString Composer.

Variable toISOString : Z -> string.

Lemma dedupe_spec (xs seen : list string) :
  List.NoDup (dedupe seen xs) /\
  forall x, In x (dedupe seen xs) -> In x xs /\ ~ In x seen.
Proof.
  revert seen. induction xs as [|a xs IH]; intros seen; simpl.
  - split; [apply List.NoDup_nil | tauto].
  - destruct (existsb (String.eqb a) seen) eqn:E.
    + destruct (IH seen) as [Hn Hi]. split; [exact Hn|].
      intros x Hx. apply Hi in Hx. tauto.
    + destruct (IH (a :: seen)) as [Hn Hi]. split.
      * apply List.NoDup_cons; [|exact Hn].
        intros Ha. apply Hi in Ha as [_ Ha]. apply Ha. now left.
      * intros x [<-|Hx].
        -- split; [now left|]. intros Hin.
           assert (existsb (String.eqb a) seen = true).
           { apply existsb_exists. exists a. split; [exact Hin | apply String.eqb_refl]. }
           congruence.
        -- apply Hi in Hx as [H1 H2]. split; [now right|].
           intros Hin. apply H2. now right.
Qed.

Lemma push_if_incl (b : bool) (tag : string) (tags all : list string) :
  incl tags all -> In tag all -> incl (push_if b tag tags) all.
Proof.
  intros Ht Hin. unfold push_if. destruct b; [|exact Ht].
  apply incl_app; [exact Ht|]. intros x [<-|[]]. exact Hin.
Qed.

(** X6.  The tags of a report are drawn from the nine tags the composer
    knows, and no tag occurs twice. *)
Theorem extractTags_known (transcripts : list string) (uiEvents : list UiEvent) :
  List.NoDup (extractTags transcripts uiEvents) /\
  incl (extractTags transcripts uiEvents)
       ["network"; "printer"; "email"; "os"; "authentication"; "high-priority";
        "performance"; "resolved"; "escalated"] /\
  (length (extractTags transcripts uiEvents) <= 9)%nat.
Proof.
  unfold extractTags. cbv zeta.
  match goal with |- context [dedupe [] ?l] => set (pushed := l) end.
  destruct (dedupe_spec pushed []) as [Hn Hi].
  assert (Hincl : incl (dedupe [] pushed)
                    ["network"; "printer"; "email"; "os"; "authentication";
                     "high-priority"; "performance"; "resolved"; "escalated"]).
  { intros x Hx. apply Hi in Hx as [Hx _]. revert x Hx. subst pushed.
    repeat (apply push_if_incl; [|simpl; tauto]). intros x []. }
  split; [exact Hn|]. split; [exact Hincl|].
  apply (List.NoDup_incl_length Hn) in Hincl. exact Hincl.
Qed.

Lemma firstn_incl {A} (n : nat) (l : list A) (x : A) :
  In x (firstn n l) -> In x l.
Proof.
  revert l. induction n as [|n IH]; intros [|a l]; simpl; try tauto.
  intros [H|H]; [now left | right; now apply IH].
Qed.

Lemma formatEventForTimeline_kept (e : Event) :
  existsb (String.eqb (e_type e)) ["asr_transcript"; "ui_click"; "window_focus"] = true ->
  formatEventForTimeline e = "UI interaction" \/
  formatEventForTimeline e = "Window changed" \/
  exists speaker, formatEventForTimeline e = speaker ++ " spoke".
Proof.
  unfold formatEventForTimeline. simpl.
  destruct (String.eqb (e_type e) "asr_transcript"); [eauto|].
  destruct (String.eqb (e_type e) "ui_click"); [auto|].
  destruct (String.eqb (e_type e) "window_focus"); [auto|]. discriminate.
Qed.

(** X7.  The timeline has at most twenty entries, no more than the session
    has events, and every entry is labelled [UI interaction],
    [Window changed] or [<speaker> spoke]: the fallback that prints the raw
    event type is never used. *)
Theorem createTimeline_bounded (events : list Event) :
  (length (createTimeline toISOString events) <= 20)%nat /\
  (length (createTimeline toISOString events) <= length events)%nat /\
  List.Forall (fun t => t_event t = "UI interaction" \/ t_event t = "Window changed" \/
                        exists speaker, t_event t = speaker ++ " spoke")
              (createTimeline toISOString events).
Proof.
  unfold createTimeline.
  set (kept := List.filter _ events).
  rewrite length_map. split; [|split].
  - rewrite List.length_firstn. apply Nat.le_min_l.
  - rewrite List.length_firstn. etransitivity; [apply Nat.le_min_r|].
    apply List.filter_length_le.
  - apply List.Forall_forall. intros t Ht. apply in_map_iff in Ht as (e & <- & He).
    simpl. apply formatEventForTimeline_kept.
    assert (Hk : In e kept) by (eapply firstn_incl; exact He).
    subst kept. now apply filter_In in Hk.
Qed.

Lemma actions_loop_length (uiEvents : list UiEvent) (index stepNumber : nat) :
  length (actions_loop toISOString uiEvents index stepNumber)
  = Nat.min (10 - index) (length uiEvents).
Proof.
  revert index stepNumber.
  induction uiEvents as [|event rest IH]; intros index stepNumber; simpl.
  - now rewrite Nat.min_0_r.
  - destruct (index <? 10)%nat eqn:E; simpl; rewrite IH.
    + apply Nat.ltb_lt in E. lia.
    + apply Nat.ltb_ge in E. lia.
Qed.

(** X8.  The report has one action for each of the first ten UI events of
    the session and none for the later ones; a session without UI events
    gets the three default actions. *)
Theorem generateActions_length (uiEvents : list UiEvent) (transcripts : list string) :
  length (generateActions toISOString uiEvents transcripts)
  = match uiEvents with
    | [] => 3%nat
    | _ => Nat.min 10 (length uiEvents)
    end.
Proof.
  unfold generateActions. cbv zeta.
  pose proof (actions_loop_length uiEvents 0 1) as Hl.
  destruct uiEvents as [|e rest]; [reflexivity|].
  destruct (length (actions_loop toISOString (e :: rest) 0 1) =? 0)%nat eqn:E.
  - apply Nat.eqb_eq in E. rewrite E in Hl. simpl in Hl. lia.
  - exact Hl.
Qed.

(** X9.  The next step follows the result of the session: an escalation to
    the T2 queue with high priority, due in 24 hours, exactly when the
    result is the escalation sentence; a follow-up with low priority, due
    in 24 hours, exactly when it is the resolution sentence; otherwise a
    callback watch with medium priority, due in 48 hours. *)
Theorem nextSteps_follow_result (now : Z) (problem : string) (lateTranscripts : list string) :
  let result := extractResult lateTranscripts in
  exists step,
    generateNextSteps toISOString now problem result = [step] /\
    match n_priority step with
    | high =>
        result = "Issue requires escalation to specialist team for advanced troubleshooting."
        /\ n_owner step = Some "T2 Queue"
        /\ n_dueDate step = Some (iso_day toISOString (now + hours 24))
    | low =>
        result = "Issue successfully resolved. Customer confirmed functionality is restored."
        /\ n_owner step = Some "T1 Queue"
        /\ n_dueDate step = Some (iso_day toISOString (now + hours 24))
    | medium =>
        (result = "Applied initial troubleshooting steps. Customer to restart system and monitor."
         \/ result = "Troubleshooting steps completed. Customer to test and report back if issues persist.")
        /\ n_owner step = Some "T1 Queue"
        /\ n_dueDate step = Some (iso_day toISOString (now + hours 48))
    end.
Proof.
  cbv zeta. unfold extractResult. cbv zeta.
  repeat match goal with
         | |- context [if ?b then _ else _] =>
             lazymatch b with
             | (_ || _)%bool => destruct b
             end
         end;
    eexists; (split; [reflexivity|]); simpl; auto.
Qed.

Lemma toLowerCase_app (a b : string) :
  toLowerCase (a ++ b) = toLowerCase a ++ toLowerCase b.
Proof. induction a as [|c a IH]; simpl; [reflexivity | now rewrite IH]. Qed.

Lemma toLowerCase_join (xs : list string) :
  toLowerCase (join " " xs) = join " " (map toLowerCase xs).
Proof.
  induction xs as [|x xs IH]; [reflexivity|].
  destruct xs as [|y ys]; [reflexivity|].
  change (join " " (x :: y :: ys)) with (x ++ " " ++ join " " (y :: ys)).
  change (join " " (map toLowerCase (x :: y :: ys)))
    with (toLowerCase x ++ " " ++ join " " (map toLowerCase (y :: ys))).
  rewrite !toLowerCase_app, IH. reflexivity.
Qed.

(** X10.  What the composer reads off the transcripts does not depend on
    their letter case: transcripts that agree up to case give the same
    problem, the same result and the same tags. *)
Theorem composer_ignores_case (ts ts' : list string) (uiEvents uiEvents' : list UiEvent) :
  map toLowerCase ts = map toLowerCase ts' ->
  extractProblem ts = extractProblem ts' /\
  extractResult ts = extractResult ts' /\
  extractTags ts uiEvents = extractTags ts' uiEvents'.
Proof.
  intros H. unfold extractProblem, extractResult, extractTags.
  rewrite !toLowerCase_join, H. auto.
Qed.

End ComposerMore.

(* ===================================================================== *)
(** * Further properties of the report and session routes *)
(* ===================================================================== *)

Section RoutesMore.

Import JsString Store Auth Reports Sessions ReportsAdmin SessionsLife OrmRoutes.

Variable parse_datetime : string -> option Z.
Variable parse_sources : string -> option string.
Variable parse_consentFlags : string -> option string.

Lemma update_rows_hit {A} (p : A -> bool) (f : A -> A) (l : list A) (x : A) :
  (forall y, p (f y) = p y) ->
  In x (update_rows p f l) -> p x = true -> exists y, In y l /\ x = f y.
Proof.
  intros Hp Hin Hx. unfold update_rows in Hin. apply in_map_iff in Hin as (y & Hy & Hin).
  destruct (p y) eqn:E; [eauto|]. subst y. congruence.
Qed.


(** X15.  In the quality counts a complete report is counted in each of
    the four sections, and no count exceeds the number of reports
    selected. *)
Theorem completeness_counts_ordered (db : Db) (user : AuthenticatedUser) (startDate : Z) :
  let c := Analytics.completeness db user startDate in
  (Analytics.completeReports c <= Analytics.withProblem c <= Analytics.totalReports c)%nat /\
  (Analytics.completeReports c <= Analytics.withActions c <= Analytics.totalReports c)%nat /\
  (Analytics.completeReports c <= Analytics.withResult c <= Analytics.totalReports c)%nat /\
  (Analytics.completeReports c <= Analytics.withNextSteps c <= Analytics.totalReports c)%nat.
Proof.
  cbv zeta. unfold Analytics.completeness. cbv zeta. simpl.
  set (rows := Analytics.reportsWithSections db user startDate).
  assert (Hsub : forall p : Report -> bool,
             (forall r, Analytics.complete r = true -> p r = true) ->
             (length (List.filter Analytics.complete rows) <= length (List.filter p rows)
              <= length rows)%nat).
  { intros p Hp. split; [|apply List.filter_length_le].
    induction rows as [|r l IH]; simpl; [lia|].
    destruct (Analytics.complete r) eqn:E.
    - rewrite (Hp r E). simpl. lia.
    - destruct (p r); simpl; lia. }
  unfold Analytics.complete in Hsub.
  repeat split; apply Hsub; intros r Hr;
    repeat (apply andb_prop in Hr as [Hr ?]); assumption.
Qed.

End RoutesMore.

(* ===================================================================== *)
(** * Further properties of the export routes: retry, and exports over time *)
(* ===================================================================== *)

Section ExportsMore.

Import JsString Store Auth Exports ExportsRetry.

Variable is_uuid : string -> bool.
Variable accepts : string -> bool.

Lemma update_rows_ids {A} (key : A -> string) (p : A -> bool) (f : A -> A) (l : list A) :
  (forall x, key (f x) = key x) -> map key (update_rows p f l) = map key l.
Proof.
  intros Hk. unfold update_rows. rewrite map_map. apply map_ext.
  intros x. destruct (p x); [apply Hk | reflexivity].
Qed.

Lemma update_rows_Forall {A} (P : A -> Prop) (p : A -> bool) (f : A -> A) (l : list A) :
  (forall x, p x = true -> P (f x)) -> List.Forall P l -> List.Forall P (update_rows p f l).
Proof.
  intros Hf Hl. unfold update_rows. apply List.Forall_forall. intros y Hy.
  apply in_map_iff in Hy as (x & <- & Hx).
  destruct (p x) eqn:E; [now apply Hf|].
  rewrite List.Forall_forall in Hl. now apply Hl.
Qed.

Lemma key_unique {A} (key : A -> string) (l : list A) (x y : A) :
  List.NoDup (map key l) -> In x l -> In y l -> key x = key y -> x = y.
Proof.
  induction l as [|a l IH]; simpl; [contradiction|].
  intros Hnd Hx Hy Hk. apply List.NoDup_cons_iff in Hnd as [Hna Hnd].
  destruct Hx as [-> | Hx], Hy as [-> | Hy]; auto.
  - elim Hna. rewrite Hk. now apply in_map.
  - elim Hna. rewrite <- Hk. now apply in_map.
Qed.

(** X18.  [POST /:exportId/retry] answers 500 when the database refuses the
    id of the path or the caller's tenant, 404 when the caller's tenant has
    no such export and 400 when the export is not [failed]; in these cases
    it sets no timer and changes nothing.  For a failed export it resets
    every row of that id to [pending] with the error message cleared and
    sets a timer; once the timer has fired the export is [completed], with
    [externalId] and [deepLink] set and no error message left, and the
    rows of other ids are as they were. *)
Theorem retry_export_outcome (db : Db) (user : AuthenticatedUser) (exportId : string)
    (now : Z) (draws : Draws) (now' : Z) :
  let '(db1, response, timer) := retry_export accepts db user exportId now in
  if negb (accepts exportId && accepts (au_tenantId user))
  then response = Error 500 "Internal server error" /\ db1 = db /\ timer = None
  else
  match export_of_tenant db exportId (au_tenantId user) with
  | None => response = Error 404 "Export not found" /\ db1 = db /\ timer = None
  | Some e =>
      if String.eqb (exp_status e) "failed" then
        exists tm, timer = Some tm /\ response = Send "Export retry initiated" /\
          (forall row, In row (exports db1) -> exp_id row = exportId ->
             exp_status row = "pending" /\ exp_errorMessage row = None) /\
          let db2 := run_retry_timer tm draws now' db1 in
          (exists row, In row (exports db2) /\ exp_id row = exportId) /\
          (forall row, In row (exports db2) -> exp_id row = exportId ->
             exp_status row = "completed" /\ exp_errorMessage row = None /\
             exp_externalId row <> None /\ exp_deepLink row <> None) /\
          (forall row, exp_id row <> exportId ->
             In row (exports db2) <-> In row (exports db))
      else response = Error 400 "Can only retry failed exports" /\ db1 = db /\ timer = None
  end.
Proof.
  unfold retry_export.
  destruct (negb (accepts exportId && accepts (au_tenantId user))); [auto|].
  destruct (export_of_tenant db exportId (au_tenantId user)) as [e|] eqn:Ee; [|auto].
  destruct (String.eqb (exp_status e) "failed") eqn:Est; simpl; [|auto].
  eexists. split; [reflexivity|]. split; [reflexivity|].
  unfold export_of_tenant in Ee. apply find_some in Ee as [Hin Hp].
  apply andb_prop in Hp as [Hid _].
  assert (Hreset : forall row,
             In row (update_rows (has_id exportId) (reset_row now) (exports db)) ->
             exp_id row = exportId ->
             exp_status row = "pending" /\ exp_errorMessage row = None).
  { intros row Hrow Hrid.
    apply update_rows_hit in Hrow as (y & _ & ->); [auto | reflexivity |].
    unfold has_id. now apply String.eqb_eq. }
  split; [exact Hreset|]. cbv zeta. unfold run_retry_timer, settle. simpl.
  split; [|split].
  - eexists. split.
    + apply update_rows_in; [apply update_rows_in; [exact Hin | exact Hid] | exact Hid].
    + simpl. now apply String.eqb_eq.
  - intros row Hrow Hrid.
    apply update_rows_hit in Hrow as (y & Hy & ->);
      [| reflexivity | unfold has_id; now apply String.eqb_eq].
    simpl. destruct (Hreset y Hy) as [_ ->]; [exact Hrid|].
    repeat split; discriminate.
  - intros row Hne. unfold update_rows. rewrite map_map.
    match goal with |- In row (map ?f _) <-> _ => set (g := f) end.
    assert (Hg : forall x, exp_id (g x) = exp_id x /\
                           (has_id exportId x = false -> g x = x)).
    { intros x. unfold g. destruct (has_id exportId x) eqn:E.
      - unfold has_id in *. simpl. rewrite E. simpl. split; [reflexivity | discriminate].
      - rewrite E. auto. }
    split.
    + intros H. apply in_map_iff in H as (x & Hx & Hxin).
      destruct (Hg x) as [Hid' Hfix]. rewrite Hfix in Hx; [now subst x|].
      unfold has_id. apply String.eqb_neq. rewrite <- Hid', Hx. exact Hne.
    + intros H. apply in_map_iff. exists row. split; [|exact H].
      apply Hg. unfold has_id. now apply String.eqb_neq.
Qed.

Lemma insert_auditLog_exports (auditId : string) (now : Z) (d : AuditData) (db x : Db) :
  insert_auditLog auditId now d db = Ok x -> exports x = exports db.
Proof.
  unfold insert_auditLog, bind, insert_row.
  destruct (existsb _ _); [discriminate | intros [= <-]; reflexivity].
Qed.

(** [POST /] leaves the exports as they are or appends one pending row
    under a key no row has. *)
Lemma create_export_exports (db : Db) (user : AuthenticatedUser) (ip : string)
    (data : ExportBody) (now : Z) (exportId auditId : string) :
  let db' := fst (fst (create_export is_uuid accepts db user ip data now exportId auditId)) in
  exports db' = exports db \/
  exists record, exports db' = (exports db ++ [record])%list /\
                 exp_id record = exportId /\ exp_status record = "pending" /\
                 existsb (fun r => String.eqb (exp_id r) exportId) (exports db) = false.
Proof.
  cbv zeta. unfold create_export.
  destruct (negb (valid_body is_uuid data)); [now left|].
  destruct (negb (accepts (x_reportId data) && accepts (au_tenantId user))); [now left|].
  destruct (report_of_tenant db (x_reportId data) (au_tenantId user)); [|now left].
  destruct (negb (accepts (au_id user))); [now left|].
  unfold insert_row. cbn [exp_id].
  destruct (existsb (fun r => String.eqb (exp_id r) exportId) (exports db)) eqn:Epk;
    [now left|].
  right. eexists.
  destruct (insert_auditLog _ _ _ _) as [x|] eqn:El; simpl.
  - rewrite (insert_auditLog_exports _ _ _ _ _ El). simpl. eauto.
  - eauto.
Qed.

(** One request or callback keeps the keys of the exports distinct, writes
    only the three statuses, and leaves a completed export completed. *)
Lemma step_exports (db : Db) (timers : list Pending) (op : Op) :
  List.NoDup (map exp_id (exports db)) ->
  List.Forall known_status (exports db) ->
  let db' := fst (step is_uuid accepts (db, timers) op) in
  List.NoDup (map exp_id (exports db')) /\
  List.Forall known_status (exports db') /\
  forall row, In row (exports db) -> exp_status row = "completed" ->
    exists row', In row' (exports db') /\ exp_id row' = exp_id row /\
                 exp_status row' = "completed".
Proof.
  intros Hnd Hks.
  assert (Hsame : forall db', exports db' = exports db ->
             List.NoDup (map exp_id (exports db')) /\
             List.Forall known_status (exports db') /\
             forall row, In row (exports db) -> exp_status row = "completed" ->
               exists row', In row' (exports db') /\ exp_id row' = exp_id row /\
                            exp_status row' = "completed").
  { intros db' Heq. rewrite Heq. split; [exact Hnd|]. split; [exact Hks|].
    intros row Hrow Hst. exists row. auto. }
  assert (Hfire : forall r exportId now,
             let db' := settle (Ok r) exportId now db in
             List.NoDup (map exp_id (exports db')) /\
             List.Forall known_status (exports db') /\
             forall row, In row (exports db) -> exp_status row = "completed" ->
               exists row', In row' (exports db') /\ exp_id row' = exp_id row /\
                            exp_status row' = "completed").
  { intros r exportId now. simpl. split; [|split].
    - rewrite update_rows_ids by reflexivity. exact Hnd.
    - apply update_rows_Forall; [|exact Hks]. intros x _. right. now left.
    - intros row Hrow Hst. unfold update_rows.
      destruct (has_id exportId row) eqn:E.
      + exists (mark_completed r now row). split; [|auto].
        apply in_map_iff. exists row. now rewrite E.
      + exists row. split; [|auto]. apply in_map_iff. exists row. now rewrite E. }
  destruct op as [user ip data now exportId auditId | user exportId now | draws now];
    cbv zeta; simpl.
  - pose proof (create_export_exports db user ip data now exportId auditId) as Hc.
    cbv zeta in Hc.
    destruct (create_export is_uuid accepts db user ip data now exportId auditId)
      as [[db' response] timer].
    simpl in Hc.
    assert (Hfst : fst (match timer with
                        | Some tm => (db', (timers ++ [FromCreate tm])%list)
                        | None => (db', timers)
                        end) = db') by (destruct timer; reflexivity).
    rewrite Hfst. clear Hfst.
    destruct Hc as [Hc | (record & Hc & Hid & Hst & Hpk)]; [now apply Hsame|].
    rewrite Hc. split; [|split].
    + rewrite map_app. simpl. apply List.NoDup_app; [exact Hnd | |].
      * apply List.NoDup_cons; [intros [] | apply List.NoDup_nil].
      * intros k Hk [<- | []]. apply in_map_iff in Hk as (y & Hy & Hin).
        assert (existsb (fun r => String.eqb (exp_id r) exportId) (exports db) = true).
        { apply existsb_exists. exists y. split; [exact Hin|].
          apply String.eqb_eq. congruence. }
        congruence.
    + apply List.Forall_app. split; [exact Hks|]. constructor; [now left | constructor].
    + intros row Hrow Hrst. exists row. split; [apply in_or_app; now left | auto].
  - unfold retry_export.
    destruct (negb (accepts exportId && accepts (au_tenantId user)));
      [simpl; now apply Hsame|].
    destruct (export_of_tenant db exportId (au_tenantId user)) as [e|] eqn:Ee;
      [|simpl; now apply Hsame].
    destruct (String.eqb (exp_status e) "failed") eqn:Est; simpl; [|simpl; now apply Hsame].
    unfold export_of_tenant in Ee. apply find_some in Ee as [Hin Hp].
    apply andb_prop in Hp as [Hid _]. apply String.eqb_eq in Hid, Est.
    split; [|split].
    + rewrite update_rows_ids by reflexivity. exact Hnd.
    + apply update_rows_Forall; [|exact Hks]. intros x _. now left.
    + intros row Hrow Hst. exists row. split; [|auto].
      unfold update_rows. apply in_map_iff. exists row.
      destruct (has_id exportId row) eqn:E; [|auto].
      unfold has_id in E. apply String.eqb_eq in E.
      assert (row = e) by (apply (key_unique exp_id (exports db)); congruence).
      subst row. rewrite Est in Hst. discriminate.
  - destruct timers as [|[tm | tm] rest]; simpl.
    + now apply Hsame.
    + apply Hfire.
    + apply Hfire.
Qed.

(** X19.  While exports are created, retried and their timers fire, in any
    order, the keys of the export rows stay distinct, no row gets a status
    other than [pending], [completed] and [failed] (none is ever written as
    [processing]), and an export that is completed stays completed. *)
Theorem exports_over_time (db : Db) (timers : list Pending) (ops : list Op) :
  List.NoDup (map exp_id (exports db)) ->
  List.Forall known_status (exports db) ->
  let db' := fst (run is_uuid accepts (db, timers) ops) in
  List.NoDup (map exp_id (exports db')) /\
  List.Forall known_status (exports db') /\
  forall row, In row (exports db) -> exp_status row = "completed" ->
    exists row', In row' (exports db') /\ exp_id row' = exp_id row /\
                 exp_status row' = "completed".
Proof.
  cbv zeta. unfold run. revert db timers.
  induction ops as [|op ops IH]; intros db timers Hnd Hks; cbn [fold_left].
  - split; [exact Hnd|]. split; [exact Hks|]. intros row Hrow Hst. exists row. auto.
  - destruct (step is_uuid accepts (db, timers) op) as [db1 timers1] eqn:Es.
    pose proof (step_exports db timers op Hnd Hks) as H. cbv zeta in H.
    rewrite Es in H. simpl in H. destruct H as (Hnd1 & Hks1 & Hc1).
    destruct (IH db1 timers1 Hnd1 Hks1) as (Hnd2 & Hks2 & Hc2).
    split; [exact Hnd2|]. split; [exact Hks2|].
    intros row Hrow Hst. destruct (Hc1 row Hrow Hst) as (row1 & Hin1 & Hid1 & Hst1).
    destruct (Hc2 row1 Hin1 Hst1) as (row2 & Hin2 & Hid2 & Hst2).
    exists row2. split; [exact Hin2|]. split; [congruence | exact Hst2].
Qed.

End ExportsMore.

(* ===================================================================== *)
(** * Further properties of the transcription queue *)
(* ===================================================================== *)

Section QueueMore.

Import Store Queue.

Lemma modify_lookup ref f (h : list TranscriptionJob) (j : TranscriptionJob) :
  h !! ref = Some j -> modify ref f h !! ref = Some (f j).
Proof.
  intros H. unfold modify. rewrite H. apply list_lookup_insert_eq.
  now apply lookup_lt_Some in H.
Qed.

Lemma modify_lookup_ne ref ref' f (h : list TranscriptionJob) :
  ref <> ref' -> modify ref f h !! ref' = h !! ref'.
Proof.
  intros H. unfold modify. destruct (h !! ref); [|reflexivity].
  now apply list_lookup_insert_ne.
Qed.

(** X20.  A job that was added can be looked up by the id [addJob]
    returned: it is [queued], at progress 0, and carries the data given.
    The lookup of every other id is as it was before. *)
Theorem addJob_getJobStatus (now : Z) (suffix : string) (data : JobData) (st : State) :
  let '(st', jobId) := addJob now suffix data st in
  getJobStatus jobId st'
  = Some (mkJob jobId (jd_audioUrl data) (jd_sessionId data) (jd_language data)
            (jd_requestedAt data) queued (Some 0%Z) None None None) /\
  (refs_valid st ->
   forall other, other <> jobId -> getJobStatus other st' = getJobStatus other st).
Proof.
  unfold addJob, getJobStatus. simpl. split.
  - rewrite lookup_insert_eq. now apply list_lookup_middle.
  - intros Hv other Hne. rewrite lookup_insert_ne by congruence.
    destruct (jobs st !! other) as [ref|] eqn:E; [|reflexivity].
    apply lookup_app_l. exact (Hv other ref E).
Qed.

(** X21.  What [cleanupOldJobs] does to a lookup: a job is forgotten when
    it has a completion time older than the cutoff, and only then; a job
    without a completion time is never forgotten, however old. *)
Theorem cleanupOldJobs_getJobStatus (maxAgeHours now : Z) (jobId : string) (st : State) :
  getJobStatus jobId (cleanupOldJobs maxAgeHours now st)
  = match getJobStatus jobId st with
    | Some j =>
        match job_completedAt j with
        | Some t => if (t <? now - maxAgeHours * 60 * 60 * 1000)%Z then None else Some j
        | None => Some j
        end
    | None => None
    end.
Proof.
  unfold getJobStatus, cleanupOldJobs. cbv zeta. simpl.
  rewrite map_lookup_filter. destruct (jobs st !! jobId) as [ref|]; simpl; [|reflexivity].
  unfold expired. simpl. destruct (heap st !! ref) as [j|] eqn:Eh.
  - destruct (job_completedAt j) as [t|].
    + destruct (t <? now - maxAgeHours * 60 * 60 * 1000)%Z.
      * rewrite option_guard_False by discriminate. reflexivity.
      * rewrite option_guard_True by reflexivity. simpl. exact Eh.
    + rewrite option_guard_True by reflexivity. simpl. exact Eh.
  - rewrite option_guard_True by reflexivity. simpl. exact Eh.
Qed.

(** X22.  The processing of the job at the head of the queue, from the
    [shift()] through the four progress updates to the end of
    [processJob]: the id is taken off the queue and its processing starts;
    at the end the job is [completed] at progress 100 with the transcript as
    result, or [failed] at progress 80 with the message as error, with the
    completion time set either way, and the processor is free again. *)
Theorem processJob_run (st : State) (jobId : string) (rest : list string) (ref : nat)
    (j : TranscriptionJob) (outcome : Result string) (now : Z) :
  current st = None ->
  processingQueue st = jobId :: rest ->
  jobs st !! jobId = Some ref ->
  heap st !! ref = Some j ->
  let '(st', obs) := run st [Dequeue; Tick; Tick; Tick; Tick; Finish outcome now] in
  obs = [Shifted jobId; Started jobId] /\
  processingQueue st' = rest /\ current st' = None /\
  getJobStatus jobId st'
  = Some match outcome with
         | Ok transcript =>
             mkJob (job_id j) (job_audioUrl j) (job_sessionId j) (job_language j)
               (job_requestedAt j) completed (Some 100%Z) (Some transcript)
               (job_error j) (Some now)
         | Throw message =>
             mkJob (job_id j) (job_audioUrl j) (job_sessionId j) (job_language j)
               (job_requestedAt j) failed (Some 80%Z) (job_result j)
               (Some message) (Some now)
         end.
Proof.
  intros Hc Hq Hj Hh. unfold run, step, dequeue. rewrite Hc, Hq, Hj.
  unfold tick, finish. cbn [current heap jobs processingQueue isProcessing fst snd app].
  split; [reflexivity|]. split; [reflexivity|]. split; [reflexivity|].
  unfold getJobStatus. cbn [jobs heap]. rewrite Hj.
  pose proof (modify_lookup ref (set_status processing (Some 10%Z)) _ _ Hh) as H1.
  pose proof (modify_lookup ref (set_progress 20) _ _ H1) as H2.
  pose proof (modify_lookup ref (set_progress 40) _ _ H2) as H3.
  pose proof (modify_lookup ref (set_progress 60) _ _ H3) as H4.
  pose proof (modify_lookup ref (set_progress 80) _ _ H4) as H5.
  destruct outcome as [transcript|message].
  - rewrite (modify_lookup ref (set_completed transcript now) _ _ H5). reflexivity.
  - rewrite (modify_lookup ref (set_failed message now) _ _ H5). reflexivity.
Qed.

(** The invariant behind sequential processing: references stay inside the
    heap, no two ids of the map share a job object, and a job object is
    [processing] only while it is the one [processJob] is awaiting on. *)
Lemma step_sequential (st : State) (op : Op) :
  refs_valid st /\
  (forall id1 id2 ref, jobs st !! id1 = Some ref -> jobs st !! id2 = Some ref -> id1 = id2) /\
  (forall ref j, heap st !! ref = Some j -> job_status j = processing ->
     exists fl, current st = Some fl /\ fl_ref fl = ref) ->
  let st' := (step st op).1 in
  (forall id1 id2 ref, jobs st' !! id1 = Some ref -> jobs st' !! id2 = Some ref -> id1 = id2) /\
  (forall ref j, heap st' !! ref = Some j -> job_status j = processing ->
     exists fl, current st' = Some fl /\ fl_ref fl = ref).
Proof.
  intros (Hv & Hinj & Hp). cbv zeta.
  assert (Hmod : forall r f ref j,
             (forall x, job_status (f x) = job_status x) ->
             modify r f (heap st) !! ref = Some j -> job_status j = processing ->
             exists fl, current st = Some fl /\ fl_ref fl = ref).
  { intros r f ref j Hf Hl Hs. destruct (decide (r = ref)) as [->|Hne].
    - destruct (heap st !! ref) as [x|] eqn:Ex.
      + rewrite (modify_lookup _ _ _ _ Ex) in Hl. injection Hl as <-.
        rewrite Hf in Hs. eauto.
      + unfold modify in Hl. rewrite Ex in Hl. congruence.
    - rewrite modify_lookup_ne in Hl by exact Hne. eauto. }
  destruct op as [now suffix data| | |outcome now|maxAge now]; simpl.
  - split.
    + intros id1 id2 ref H1 H2.
      destruct (decide (generateJobId now suffix = id1)) as [E1|E1],
               (decide (generateJobId now suffix = id2)) as [E2|E2]; try congruence.
      * subst id1. rewrite lookup_insert_eq in H1. rewrite lookup_insert_ne in H2 by exact E2.
        injection H1 as <-. apply Hv in H2. lia.
      * subst id2. rewrite lookup_insert_eq in H2. rewrite lookup_insert_ne in H1 by exact E1.
        injection H2 as <-. apply Hv in H1. lia.
      * rewrite lookup_insert_ne in H1 by exact E1.
        rewrite lookup_insert_ne in H2 by exact E2. eauto.
    + intros ref j Hl Hs. apply lookup_app_Some in Hl as [Hl | [_ Hl]]; [eauto|].
      destruct (ref - length (heap st))%nat as [|n]; simpl in Hl; [|discriminate].
      injection Hl as <-. discriminate.
  - unfold dequeue. destruct (current st) as [fl|] eqn:Ec; simpl; [rewrite Ec; auto|].
    destruct (processingQueue st) as [|jobId rest]; simpl; [rewrite Ec; auto|].
    destruct (jobs st !! jobId) as [r|] eqn:Ej; simpl.
    + split; [exact Hinj|]. intros ref j Hl Hs.
      destruct (decide (r = ref)) as [->|Hne]; [eauto|].
      rewrite modify_lookup_ne in Hl by exact Hne.
      destruct (Hp ref j Hl Hs) as (fl & Hfl & _). congruence.
    + split; [exact Hinj|]. intros ref j Hl Hs.
      destruct (Hp ref j Hl Hs) as (fl & Hfl & _). congruence.
  - unfold tick. destruct (current st) as [[r [|p ups]]|] eqn:Ec; simpl;
      try (rewrite Ec; auto).
    split; [exact Hinj|]. intros ref j Hl Hs.
    destruct (Hmod r (set_progress p) ref j (fun _ => eq_refl) Hl Hs) as (fl & [= <-] & <-).
    eauto.
  - unfold finish. destruct (current st) as [[r [|p ups]]|] eqn:Ec; simpl;
      try (rewrite Ec; auto).
    split; [exact Hinj|]. intros ref j Hl Hs. exfalso.
    destruct (decide (r = ref)) as [->|Hne].
    + destruct (heap st !! ref) as [x|] eqn:Ex.
      * destruct outcome; rewrite (modify_lookup _ _ _ _ Ex) in Hl;
          injection Hl as <-; discriminate.
      * destruct outcome; unfold modify in Hl; rewrite Ex in Hl; congruence.
    + destruct outcome; rewrite modify_lookup_ne in Hl by exact Hne;
        destruct (Hp ref j Hl Hs) as (fl & [= <-] & Hr); simpl in Hr; congruence.
  - split; [|exact Hp]. intros id1 id2 ref H1 H2.
    apply map_lookup_filter_Some in H1 as [H1 _].
    apply map_lookup_filter_Some in H2 as [H2 _]. eauto.
Qed.

Lemma run_sequential (ops : list Op) (st : State) :
  refs_valid st /\
  (forall id1 id2 ref, jobs st !! id1 = Some ref -> jobs st !! id2 = Some ref -> id1 = id2) /\
  (forall ref j, heap st !! ref = Some j -> job_status j = processing ->
     exists fl, current st = Some fl /\ fl_ref fl = ref) ->
  let st' := (run st ops).1 in
  refs_valid st' /\
  (forall id1 id2 ref, jobs st' !! id1 = Some ref -> jobs st' !! id2 = Some ref -> id1 = id2) /\
  (forall ref j, heap st' !! ref = Some j -> job_status j = processing ->
     exists fl, current st' = Some fl /\ fl_ref fl = ref).
Proof.
  cbv zeta. revert st. induction ops as [|op rest IH]; intros st Hst; simpl; [exact Hst|].
  pose proof (step_sequential st op Hst) as H1. cbv zeta in H1.
  pose proof (step_refs_valid st op (proj1 Hst)) as Hv1.
  destruct (step st op) as [st1 o1]. simpl in H1, Hv1.
  specialize (IH st1 (conj Hv1 H1)). destruct (run st1 rest) as [st2 o2]. exact IH.
Qed.

Lemma processing_count (js : list TranscriptionJob) (s0 : Stats) :
  processingJobs (fold_left count_job js s0)
  = (processingJobs s0
     + length (List.filter (fun j => match job_status j with processing => true | _ => false end)
                 js))%nat.
Proof.
  revert s0. induction js as [|j js IH]; intros s0; simpl; [lia|].
  rewrite IH. unfold count_job. destruct (job_status j); simpl; lia.
Qed.

Lemma one_processing (h : list TranscriptionJob) (r : nat) (l : list (string * nat)) :
  (forall ref j, h !! ref = Some j -> job_status j = processing -> ref = r) ->
  NoDup (l.*2) ->
  (length (List.filter (fun j => match job_status j with processing => true | _ => false end)
             (omap (fun kv => h !! kv.2) l)) <= 1)%nat.
Proof.
  intros Hr Hnd.
  assert (Hnone : forall l' : list (string * nat), r ∉ l'.*2 ->
             List.filter (fun j => match job_status j with processing => true | _ => false end)
               (omap (fun kv => h !! kv.2) l') = []).
  { induction l' as [|[k ref] l' IH]; intros Hnot; [reflexivity|].
    change (omap (fun kv : string * nat => h !! kv.2) ((k, ref) :: l'))
      with (match h !! ref with
            | Some y => y :: omap (fun kv : string * nat => h !! kv.2) l'
            | None => omap (fun kv : string * nat => h !! kv.2) l'
            end).
    simpl in Hnot. apply not_elem_of_cons in Hnot as [Hne Hnot].
    destruct (h !! ref) as [j|] eqn:E; [|now apply IH].
    simpl. destruct (job_status j) eqn:Es; try now apply IH.
    elim Hne. symmetry. eapply Hr; eauto. }
  induction l as [|[k ref] l IH]; [simpl; lia|].
  change (omap (fun kv : string * nat => h !! kv.2) ((k, ref) :: l))
    with (match h !! ref with
          | Some y => y :: omap (fun kv : string * nat => h !! kv.2) l
          | None => omap (fun kv : string * nat => h !! kv.2) l
          end).
  simpl in Hnd. apply NoDup_cons in Hnd as [Hnot Hnd].
  destruct (h !! ref) as [j|] eqn:E; [|now apply IH].
  simpl. destruct (job_status j) eqn:Es; try now apply IH.
  assert (ref = r) by (eapply Hr; eauto). subst ref.
  rewrite Hnone by exact Hnot. simpl. lia.
Qed.

(** X23.  The queue works on one job at a time: whatever jobs are added,
    taken off, advanced, finished or cleaned up, the statistics never report
    more than one job as [processing]. *)
Theorem one_job_at_a_time (ops : list Op) :
  (processingJobs (getQueueStats (run init ops).1) <= 1)%nat.
Proof.
  assert (Hinit : refs_valid init /\
            (forall id1 id2 ref, jobs init !! id1 = Some ref -> jobs init !! id2 = Some ref ->
               id1 = id2) /\
            (forall ref j, heap init !! ref = Some j -> job_status j = processing ->
               exists fl, current init = Some fl /\ fl_ref fl = ref)).
  { split; [exact init_refs_valid|]. split.
    - intros id1 id2 ref H. simpl in H. rewrite lookup_empty in H. discriminate.
    - intros ref j H. simpl in H. discriminate. }
  pose proof (run_sequential ops init Hinit) as H. cbv zeta in H.
  set (st := (run init ops).1) in *. destruct H as (Hv & Hinj & Hp).
  unfold getQueueStats. rewrite processing_count. simpl. unfold job_values.
  apply one_processing with (r := match current st with Some fl => fl_ref fl | None => 0%nat end).
  - intros ref j Hl Hs. destruct (Hp ref j Hl Hs) as (fl & -> & Hr). now symmetry.
  - apply NoDup_fmap_2_strong; [|apply NoDup_map_to_list].
    intros [k1 r1] [k2 r2] H1 H2 Heq. simpl in Heq. subst r2.
    apply elem_of_map_to_list in H1, H2. f_equal. eauto.
Qed.

End QueueMore.

(* ===================================================================== *)
(** * Further properties of the ASR processor *)
(* ===================================================================== *)

Section ASRMore.

Import JsString Regex Store ASR ASRFile.

(** [Math.floor(Math.random() * n)] is an index below [n], the rounding of
    the product included. *)
Lemma random_index_range (r n : Z) :
  random_ok r -> (0 < n < 2 ^ 53)%Z -> (0 <= random_index r n < n)%Z.
Proof.
  unfold random_ok, random_index, round53. intros Hr Hn.
  set (N := (r * n)%Z).
  assert (HN : (0 <= N <= n * 2 ^ 53 - n)%Z) by (unfold N; nia).
  destruct (N <? 2 ^ 53)%Z eqn:Elt.
  - apply Z.ltb_lt in Elt. rewrite Z.div_small by lia. lia.
  - apply Z.ltb_ge in Elt.
    assert (Hlo : (53 <= Z.log2 N)%Z) by (apply Z.log2_le_pow2; lia).
    assert (Hhi : (Z.log2 N < 106)%Z).
    { apply Z.log2_lt_pow2; [lia|].
      assert (H106 : (2 ^ 106 = 2 ^ 53 * 2 ^ 53)%Z) by reflexivity. nia. }
    destruct (Z.log2_spec N) as [Hl1 _]; [lia|].
    remember (Z.log2 N - 52)%Z as e eqn:He.
    assert (Hpow : (2 ^ e = 2 * 2 ^ (e - 1))%Z).
    { replace e with (1 + (e - 1))%Z at 1 by lia. rewrite Z.pow_add_r by lia. reflexivity. }
    assert (Hlog : (2 ^ Z.log2 N = 2 ^ (e - 1) * 2 ^ 53)%Z).
    { replace (Z.log2 N) with ((e - 1) + 53)%Z by lia. rewrite Z.pow_add_r by lia.
      reflexivity. }
    assert (HP : (2 ^ 53 = 2 ^ e * 2 ^ (53 - e))%Z).
    { rewrite <- Z.pow_add_r by lia. f_equal. lia. }
    assert (Hhalf : (0 < 2 ^ (e - 1))%Z) by (apply Z.pow_pos_nonneg; lia).
    assert (HK : (0 < 2 ^ (53 - e))%Z) by (apply Z.pow_pos_nonneg; lia).
    assert (HPpos : (0 < 2 ^ 53)%Z) by reflexivity.
    assert (Hd := Z.div_mod N (2 ^ e)).
    assert (Hm := Z.mod_pos_bound N (2 ^ e)).
    assert (Hq0 : (0 <= N / 2 ^ e)%Z) by (apply Z.div_pos; lia).
    set (q := (N / 2 ^ e)%Z) in *. set (m := (N mod 2 ^ e)%Z) in *.
    set (half := (2 ^ (e - 1))%Z) in *. set (K := (2 ^ (53 - e))%Z) in *.
    rewrite Hpow in *. rewrite Hlog in Hl1.
    remember (2 ^ 53)%Z as P eqn:EP. clear EP.
    specialize (Hd ltac:(lia)). specialize (Hm ltac:(lia)).
    assert (HqK : (q < K * n)%Z) by nia.
    assert (Hhn : (half < n)%Z) by nia.
    assert (Hq' : forall q', (q' = q \/ (q' = q + 1 /\ half <= m))%Z ->
                            (0 <= q' * (2 * half) / P < n)%Z).
    { intros q' Hq'. split.
      - apply Z.div_pos; [|lia]. nia.
      - apply Z.div_lt_upper_bound; [lia|].
        destruct Hq' as [->|[-> Hge]]; [nia|].
        destruct (Z.eq_dec (q + 1)%Z (K * n)%Z) as [Heq|Hne].
        + exfalso. assert (2 * half * (q + 1) = P * n)%Z by (rewrite Heq; nia). nia.
        + assert (q + 1 < K * n)%Z by lia. nia. }
    apply Hq'.
    destruct (half <? m)%Z eqn:E1; simpl.
    + apply Z.ltb_lt in E1. right. lia.
    + destruct (m =? half)%Z eqn:E2; simpl; [|now left].
      apply Z.eqb_eq in E2. destruct (Z.odd q); [right; lia | now left].
Qed.

(** X24.  An element picked as [xs[Math.floor(Math.random() * xs.length)]]
    is an element of the array, never [undefined], for every value
    [Math.random()] can return and every array that is not empty. *)
Theorem random_pick_in_array {A} (xs : list A) (r : Z) :
  random_ok r -> xs <> [] -> (Z.of_nat (length xs) < 2 ^ 53)%Z ->
  exists x, at_index xs (random_index r (Z.of_nat (length xs))) = Some x /\ In x xs.
Proof.
  intros Hr Hne Hlen. apply at_index_in. apply random_index_range; [exact Hr|].
  destruct xs; [congruence | cbn [length] in *; lia].
Qed.

(** X25.  File transcription and language detection answer from their
    fixed lists: [transcribeFile] returns one of the three sample
    transcripts, the same whether or not an API key is configured and
    whatever the file and the language asked for; [detectLanguage] returns
    one of the six supported languages, whatever the file. *)
Theorem file_transcription_canned (r : Z) :
  random_ok r ->
  (exists t, In t sampleTranscripts /\ length sampleTranscripts = 3%nat /\
             forall openai audioUrl language,
               transcribeFile openai r audioUrl language = Some t) /\
  (exists l, In l supportedLanguages /\
             forall audioUrl, detectLanguage r audioUrl = Some l).
Proof.
  intros Hr. split.
  - destruct (at_index_in sampleTranscripts
                (random_index r (Z.of_nat (length sampleTranscripts))))
      as (t & Ht & Hin).
    { apply random_index_range; [exact Hr | simpl; lia]. }
    exists t. split; [exact Hin|]. split; [reflexivity|].
    intros [|] audioUrl language; exact Ht.
  - destruct (at_index_in supportedLanguages
                (random_index r (Z.of_nat (length supportedLanguages))))
      as (l & Hl & Hin).
    { apply random_index_range; [exact Hr | simpl; lia]. }
    exists l. split; [exact Hin|]. intros audioUrl. exact Hl.
Qed.

(** None of the sample phrases holds a listed word or matches a PII
    pattern, and none is empty. *)
Lemma samplePhrases_clean (t : string) :
  In t samplePhrases -> detectContent t = [] /\ truthy t = true.
Proof.
  unfold samplePhrases. cbn [In].
  intros H. repeat (destruct H as [<-|H]; [split; vm_compute; reflexivity|]).
  contradiction.
Qed.

(** X26.  For an audio chunk the socket sends exactly one message, the
    final transcript with the timestamp of the chunk.  Its session id is
    the one the connection has when the transcription is done, which a
    [config] message may have changed meanwhile; its transcript is a sample
    phrase; its speaker is [Agent] or [Customer] when diarization was on as
    the chunk arrived and absent when it was off.  No content warning is
    ever sent, since no sample phrase gives a detection. *)
Theorem on_audio_chunk_one_message (draws : Draws) (sessionContext later : Context)
    (audioData timestamp : string) :
  random_ok (d_phrase draws) -> random_ok (d_speaker draws) ->
  exists t c s,
    on_audio_chunk draws sessionContext later audioData timestamp
    = [TranscriptMessage (ctx_sessionId later) timestamp t c s true] /\
    In t samplePhrases /\
    if ctx_speakerDiarization sessionContext
    then s = Some "Agent" \/ s = Some "Customer"
    else s = None.
Proof.
  intros Hp Hs. unfold on_audio_chunk, processAudioChunk, simulateASR.
  destruct (at_index_in samplePhrases
              (random_index (d_phrase draws) (Z.of_nat (length samplePhrases))))
    as (t & Ht & Hin).
  { apply random_index_range; [exact Hp | simpl; lia]. }
  rewrite Ht. cbv zeta. cbn [transcript detections confidence speakerTag isFinal
                              res_timestamp ASR.context ASR.timestamp].
  destruct (samplePhrases_clean t Hin) as [-> ->]. cbn [length Nat.ltb Nat.leb app].
  eexists t, _, _. split; [reflexivity|]. split; [exact Hin|].
  destruct (ctx_speakerDiarization sessionContext); [|reflexivity].
  unfold determineSpeaker.
  destruct (at_index_in ["Agent"; "Customer"] (random_index (d_speaker draws) 2))
    as (s & -> & [<-|[<-|[]]]); [|auto..].
  apply (random_index_range _ 2); [exact Hs | lia].
Qed.

End ASRMore.


Section DetectionMore.

Import JsString Regex Store ASR.

Lemma startsWith_substring (p s : string) :
  startsWith p s = true ->
  (String.length p <= String.length s)%nat /\ String.substring 0 (String.length p) s = p.
Proof.
  revert s. induction p as [|a p IH]; intros s H.
  - simpl. split; [lia|]. now destruct s.
  - destruct s as [|b s]; [discriminate|]. simpl in H.
    apply andb_prop in H as [Hab H]. apply Ascii.eqb_eq in Hab. subst b.
    destruct (IH s H) as [Hl Hs]. simpl. split; [lia|]. now rewrite Hs.
Qed.

Lemma startsWith_includes (p s : string) : startsWith p s = true -> includes p s = true.
Proof. intros H. destruct s; simpl in *; rewrite H; reflexivity. Qed.

Lemma includes_tail (w : string) (c : ascii) (s : string) :
  includes w s = true -> includes w (String c s) = true.
Proof. intros H. cbn [includes]. rewrite H. apply orb_true_r. Qed.

(** [indexOf] finds a needle that occurs: the result is a position at which
    the needle stands. *)
Lemma indexOf_from_found (w s : string) (i : Z) :
  includes w s = true ->
  exists k, indexOf_from w s i = (i + Z.of_nat k)%Z /\
            (k + String.length w <= String.length s)%nat /\
            String.substring k (String.length w) s = w.
Proof.
  revert i. induction s as [|c s IH]; intros i H.
  - simpl in H. rewrite orb_false_r in H. exists 0%nat. simpl. rewrite H.
    destruct (startsWith_substring _ _ H) as [Hl Hs]. split; [lia|]. split; [exact Hl|exact Hs].
  - cbn [indexOf_from]. destruct (startsWith w (String c s)) eqn:Es.
    + exists 0%nat. destruct (startsWith_substring _ _ Es) as [Hl Hs].
      split; [lia|]. split; [exact Hl | exact Hs].
    + cbn [includes] in H. rewrite Es in H. simpl in H.
      destruct (IH (i + 1)%Z H) as (k & Hk & Hl & Hs).
      exists (S k). split; [rewrite Hk; lia|]. split; [simpl; lia|]. exact Hs.
Qed.

Lemma string_of_snoc (l : list ascii) (c : ascii) (p : string) :
  string_of_list_ascii (l ++ [c]) ++ p = string_of_list_ascii l ++ String c p.
Proof.
  induction l as [|a l IH]; [reflexivity|].
  change (String a (string_of_list_ascii (l ++ [c]) ++ p)
          = String a (string_of_list_ascii l ++ String c p)).
  now rewrite IH.
Qed.

Lemma append_empty (s : string) : s = s ++ EmptyString.
Proof.
  induction s as [|a s IH]; [reflexivity|].
  change (String a s = String a (s ++ EmptyString)). now rewrite <- IH.
Qed.

(** Every piece of [split(/\s+/)] is the piece being read followed by an
    initial part of the rest, or stands somewhere in the rest. *)
Lemma split_ws_go_pieces (s : string) :
  forall cur in_gap w,
    (in_gap = true -> cur = []) ->
    In w (split_ws_go s cur in_gap) ->
    (exists p, w = string_of_list_ascii (rev cur) ++ p /\ startsWith p s = true) \/
    includes w s = true.
Proof.
  induction s as [|c s IH]; intros cur in_gap w Hgap Hin.
  - simpl in Hin. destruct Hin as [<-|[]]. left. exists EmptyString.
    split; [|reflexivity]. apply append_empty.
  - cbn [split_ws_go] in Hin. destruct (is_space c) eqn:Esp.
    + destruct in_gap.
      * rewrite (Hgap eq_refl) in *. right. apply includes_tail.
        destruct (IH [] true w (fun _ => eq_refl) Hin) as [(p & -> & Hp)|H]; [|exact H].
        now apply startsWith_includes.
      * destruct Hin as [<-|Hin].
        -- left. exists EmptyString. split; [|reflexivity].
           apply append_empty.
        -- right. apply includes_tail.
           destruct (IH [] true w (fun _ => eq_refl) Hin) as [(p & -> & Hp)|H]; [|exact H].
           now apply startsWith_includes.
    + destruct (IH (c :: cur) false w ltac:(discriminate) Hin) as [(p & -> & Hp)|H].
      * left. exists (String c p). split; [cbn [rev]; apply string_of_snoc|].
        simpl. now rewrite Ascii.eqb_refl.
      * right. now apply includes_tail.
Qed.

Lemma split_ws_includes (s w : string) : In w (split_ws s) -> includes w s = true.
Proof.
  intros H. destruct (split_ws_go_pieces s [] false w ltac:(discriminate) H)
    as [(p & -> & Hp)|Hi]; [|exact Hi].
  now apply startsWith_includes.
Qed.

(** X27.  The profanity detections of a transcript: there is one for each
    piece of the lowercased transcript, split at white space, that is a
    listed word, in the order of the pieces.  Each has type [profanity] and
    confidence 95, its text is the listed word, and its offsets are those
    of the first place the word stands in the lowercased transcript: they
    lie inside the lowercased transcript and the slice of it between them
    is the word.  Two detections of the same word are therefore equal. *)
Theorem profanity_detections_shape (transcript : string) :
  let lowered := toLowerCase transcript in
  let found := profanity_detections transcript in
  map text found
  = List.filter (fun w => existsb (String.eqb w) profanityList) (split_ws lowered) /\
  List.Forall (fun d =>
      detectionType d = "profanity" /\ det_confidence d = 95%Z /\
      In (text d) profanityList /\
      startOffset d = indexOf (text d) lowered /\
      (0 <= startOffset d)%Z /\
      endOffset d = (startOffset d + Z.of_nat (String.length (text d)))%Z /\
      (endOffset d <= Z.of_nat (String.length lowered))%Z /\
      slice lowered (startOffset d) (endOffset d) = text d) found /\
  (forall d1 d2, In d1 found -> In d2 found -> text d1 = text d2 -> d1 = d2).
Proof.
  cbv zeta. unfold profanity_detections. cbv zeta.
  set (lowered := toLowerCase transcript).
  assert (Hall : forall ws, (forall w, In w ws -> In w (split_ws lowered)) ->
    let found := flat_map
      (fun word =>
         if existsb (String.eqb word) profanityList then
           [ mkDetection "profanity" word 95 (indexOf word lowered)
               (indexOf word lowered + Z.of_nat (String.length word)) ]
         else []) ws in
    map text found = List.filter (fun w => existsb (String.eqb w) profanityList) ws /\
    List.Forall (fun d =>
      detectionType d = "profanity" /\ det_confidence d = 95%Z /\
      In (text d) profanityList /\
      startOffset d = indexOf (text d) lowered /\
      (0 <= startOffset d)%Z /\
      endOffset d = (startOffset d + Z.of_nat (String.length (text d)))%Z /\
      (endOffset d <= Z.of_nat (String.length lowered))%Z /\
      slice lowered (startOffset d) (endOffset d) = text d) found).
  { induction ws as [|w ws IH]; intros Hws; cbv zeta; [simpl; auto|].
    destruct (IH (fun x Hx => Hws x (or_intror Hx))) as [IH1 IH2].
    cbn [flat_map List.filter]. destruct (existsb (String.eqb w) profanityList) eqn:Ew.
    - cbn [app map text]. split; [now rewrite IH1|]. constructor; [|exact IH2].
      cbn [detectionType det_confidence text startOffset endOffset].
      destruct (indexOf_from_found w lowered 0 (split_ws_includes _ _ (Hws w (or_introl eq_refl))))
        as (k & Hk & Hl & Hs).
      fold (indexOf w lowered) in Hk. rewrite Hk.
      split; [reflexivity|]. split; [reflexivity|]. split.
      { apply existsb_exists in Ew as (x & Hx & Hxw). apply String.eqb_eq in Hxw.
        now subst x. }
      split; [reflexivity|]. split; [lia|]. split; [reflexivity|]. split.
      { lia. }
      rewrite Z.add_0_l, slice_substring by exact Hl. exact Hs.
    - cbn [app]. auto. }
  destruct (Hall (split_ws lowered) (fun w H => H)) as [H1 H2]. cbv zeta in H1, H2.
  split; [exact H1|]. split; [exact H2|].
  intros d1 d2 Hd1 Hd2 Ht. rewrite List.Forall_forall in H2.
  pose proof (H2 d1 Hd1) as (T1 & C1 & _ & S1 & _ & E1 & _).
  pose proof (H2 d2 Hd2) as (T2 & C2 & _ & S2 & _ & E2 & _).
  destruct d1, d2. simpl in *. subst. reflexivity.
Qed.

(** The matches reported by the loop of a global pattern go from left to
    right and do not overlap. *)
Lemma scan_ordered (r : regex) (s : list ascii) (positions : list nat) :
  forall lastIndex,
    StronglySorted (fun a b : nat * nat => (snd a <= fst b)%nat /\ (fst a < fst b)%nat)
      (scan r s positions lastIndex).
Proof.
  induction positions as [|a rest IH]; intros lastIndex; simpl; [constructor|].
  destruct (a <? lastIndex)%nat; [apply IH|].
  destruct (exec_at r s a) as [e|] eqn:Ea; [|apply IH].
  constructor; [apply IH|]. apply List.Forall_forall. intros [i' e'] Hin.
  apply scan_sound in Hin as (_ & Hle & _).
  pose proof (exec_at_sound _ _ _ _ Ea) as Hm. apply Matches_bounds in Hm as [Hm _].
  simpl. destruct (e =? a)%nat eqn:E.
  - apply Nat.eqb_eq in E. lia.
  - apply Nat.eqb_neq in E. lia.
Qed.

(** X28.  The PII detections of one kind are reported from left to right
    and do not overlap: in the detections of each of the four patterns,
    every detection ends at or before the start of each later one, and
    starts before it. *)
Theorem pii_detections_ordered (transcript : string) :
  List.Forall (fun entry : string * regex =>
      StronglySorted (fun d1 d2 => (endOffset d1 <= startOffset d2)%Z /\
                                   (startOffset d1 < startOffset d2)%Z)
        (List.filter (has_type ("pii_" ++ fst entry)) (detectContent transcript)))
    piiPatterns.
Proof.
  apply List.Forall_forall. intros [name pattern] Hin. cbn [fst].
  rewrite (detections_of_pattern transcript name pattern Hin).
  assert (Hoff : forall mt, In mt (matchAll pattern transcript) ->
             startOffset (pii_detection name transcript mt) = Z.of_nat (fst mt) /\
             endOffset (pii_detection name transcript mt) = Z.of_nat (snd mt)).
  { intros [i e] Hmt. destruct (pii_detection_offsets name transcript pattern i e Hmt)
      as (Hs & He & _). auto. }
  pose proof (scan_ordered pattern (list_ascii_of_string transcript)
                (seq 0 (S (length (list_ascii_of_string transcript)))) 0) as Hsorted.
  fold (matchAll pattern transcript) in Hsorted.
  induction Hsorted as [|mt l Hl IH Hall]; simpl; constructor.
  - apply IH. intros x Hx. apply Hoff. now right.
  - apply List.Forall_forall. intros d Hd. apply in_map_iff in Hd as (mt' & <- & Hmt').
    rewrite List.Forall_forall in Hall. destruct (Hall mt' Hmt') as [H1 H2].
    destruct (Hoff mt (or_introl eq_refl)) as [-> ->].
    destruct (Hoff mt' (or_intror Hmt')) as [-> _]. lia.
Qed.

End DetectionMore.

(* ===================================================================== *)
(** * The in-memory database: what is stored can be found *)
(* ===================================================================== *)

Section MockProperties.

Import JsString Store Mock.

Lemma find_snoc {A} (p : A -> bool) (l : list A) (x : A) :
  find p (l ++ [x])
  = match find p l with
    | Some y => Some y
    | None => if p x then Some x else None
    end.
Proof.
  induction l as [|a l IH]; simpl; [reflexivity|]. destruct (p a); [reflexivity | exact IH].
Qed.

(** X29.  A report made by [createReport] is appended to the reports and
    listed last among those of its tenant.  It is found by its session when
    the session had no report, and by its id when no earlier report has the
    id; an earlier report made in the same millisecond has the same id and
    is the one that is found.  Lookups of other ids are as before. *)
Theorem createReport_found (now : Z) (d : ReportData) (db : Db) :
  let '(db', report) := createReport now d db in
  rep_id report = "report-" ++ pretty now /\
  rep_sessionId report = rd_sessionId d /\ rep_tenantId report = rd_tenantId d /\
  findReportById db' (rep_id report)
  = Some match findReportById db (rep_id report) with
         | Some earlier => earlier
         | None => report
         end /\
  findReportBySessionId db' (rd_sessionId d)
  = Some match findReportBySessionId db (rd_sessionId d) with
         | Some earlier => earlier
         | None => report
         end /\
  (forall id, id <> rep_id report -> findReportById db' id = findReportById db id) /\
  findReportsByTenant db' (rd_tenantId d)
  = (findReportsByTenant db (rd_tenantId d) ++ [report])%list.
Proof.
  unfold createReport. cbv zeta.
  unfold findReportById, findReportBySessionId, findReportsByTenant.
  cbn [reports set_reports rep_id rep_sessionId rep_tenantId].
  split; [reflexivity|]. split; [reflexivity|]. split; [reflexivity|].
  rewrite !find_snoc. cbn [rep_id rep_sessionId]. rewrite !String.eqb_refl.
  split; [now destruct (find _ _)|]. split; [now destruct (find _ _)|]. split.
  - intros id Hne. rewrite find_snoc. cbn [rep_id].
    destruct (find _ _); [reflexivity|].
    apply not_eq_sym in Hne. apply String.eqb_neq in Hne. now rewrite Hne.
  - rewrite List.filter_app. cbn [List.filter rep_tenantId]. now rewrite String.eqb_refl.
Qed.

(** X30.  The events of a session are kept in the order they were added:
    after [addEvent] the events found for the session of the new event are
    those found before followed by the new event, and the events found for
    any other session are as before. *)
Theorem addEvent_found (now : Z) (suffix : string) (d : EventData) (db : Db)
    (sessionId : string) :
  let '(db', event) := addEvent now suffix d db in
  ev_sessionId event = ed_sessionId d /\
  findEventsBySession db' sessionId
  = (findEventsBySession db sessionId
     ++ if String.eqb (ed_sessionId d) sessionId then [event] else [])%list.
Proof.
  unfold addEvent, findEventsBySession. cbv zeta. simpl. split; [reflexivity|].
  rewrite List.filter_app. simpl. now destruct (String.eqb (ed_sessionId d) sessionId).
Qed.

End MockProperties.

(* ===================================================================== *)
(** * The further properties at concrete inputs *)
(* ===================================================================== *)

Section MoreExamples.

Import JsString Store Auth Reports Sessions Exports Composer.

(** The agent of the demo tenant cannot make the administrator's account
    its own, nor promote anyone. *)
Lemma patch_user_no_escalation_witness :
  au_role Demo.agent_smith <> "admin" /\
  let '(db', response) :=
    Users.patch_user (seed 0) Demo.agent_smith "10.0.0.1" "user-1" DemoMore.promote_body
      50 "audit-1" in
  map Users.standing (users db') = map Users.standing (users (seed 0)) /\
  (au_id Demo.agent_smith <> "user-1" ->
   db' = seed 0 /\ (status_of response = 400%Z \/ status_of response = 403%Z)).
Proof.
  assert (H : au_role Demo.agent_smith <> "admin") by (simpl; discriminate).
  exact (conj H (patch_user_no_escalation (seed 0) Demo.agent_smith "10.0.0.1" "user-1"
                   DemoMore.promote_body 50 "audit-1" H)).
Defined.

(** The demo agent logs in with the demo password. *)
Lemma login_outcome_witness :
  Login.valid_login DemoMore.email_stub DemoMore.login_body = true /\
  exists reply,
    snd (Login.login DemoMore.email_stub DemoMore.sign_stub (seed 0) DemoMore.login_body
           "10.0.0.1" None 50)
    = Send reply /\ Login.lr_token reply = "token-user-2".
Proof.
  assert (H : Login.valid_login DemoMore.email_stub DemoMore.login_body = true)
    by reflexivity.
  split; [exact H|].
  pose proof (login_outcome DemoMore.email_stub DemoMore.sign_stub (seed 0)
                DemoMore.login_body "10.0.0.1" None 50 H) as Hl.
  destruct (Login.login DemoMore.email_stub DemoMore.sign_stub (seed 0) DemoMore.login_body
              "10.0.0.1" None 50) as [db' response].
  cbv zeta in Hl. destruct Hl as [Hok _].
  destruct Hok as (u & log & Hu & -> & _).
  { eexists. split; [reflexivity|]. split; reflexivity. }
  vm_compute in Hu. injection Hu as <-. eexists. split; reflexivity.
Defined.

(** A transcript shouted and the same transcript whispered. *)
Lemma composer_ignores_case_witness :
  map toLowerCase ["My WIFI keeps DROPPING"] = map toLowerCase ["my wifi keeps dropping"] /\
  extractProblem ["My WIFI keeps DROPPING"] = extractProblem ["my wifi keeps dropping"] /\
  extractResult ["My WIFI keeps DROPPING"] = extractResult ["my wifi keeps dropping"] /\
  extractTags ["My WIFI keeps DROPPING"] [] = extractTags ["my wifi keeps dropping"] [].
Proof.
  assert (H : map toLowerCase ["My WIFI keeps DROPPING"]
              = map toLowerCase ["my wifi keeps dropping"]) by reflexivity.
  exact (conj H (composer_ignores_case _ _ [] [] H)).
Defined.


(** A failed export is retried and completed, a new one is created and
    completed, and the export that was completed stays so. *)
Lemma exports_over_time_witness :
  List.NoDup (map exp_id (exports Demo.acme_db)) /\
  List.Forall ExportsRetry.known_status (exports Demo.acme_db) /\
  let db' :=
    fst (ExportsRetry.run Demo.uuid_shape Demo.uuid_shape (Demo.acme_db, [])
           [ ExportsRetry.Retry Demo.acme_agent "6fa459ea-ee8a-4ca4-894e-db77e160355e" 30;
             ExportsRetry.Fire (mkDraws "1234567" 42 43) 40;
             ExportsRetry.Create Demo.acme_agent "10.0.0.1" Demo.jira_body 50
               "c56a4180-65aa-42ec-a945-5fd21dec0538"
               "16fd2706-8baf-433b-82eb-8c7fada847da";
             ExportsRetry.Fire (mkDraws "7654321" 7 8) 60 ]) in
  List.NoDup (map exp_id (exports db')) /\
  List.Forall ExportsRetry.known_status (exports db') /\
  (exists before after,
     In before (exports Demo.acme_db) /\ exp_status before = "completed" /\
     In after (exports db') /\ exp_id after = exp_id before /\
     exp_status after = "completed") /\
  map exp_status (exports Demo.acme_db) = ["failed"; "completed"] /\
  map exp_status (exports db') = ["completed"; "completed"; "completed"].
Proof.
  assert (H1 : List.NoDup (map exp_id (exports Demo.acme_db))).
  { simpl. repeat (apply List.NoDup_cons; [simpl; intuition discriminate|]).
    apply List.NoDup_nil. }
  assert (H2 : List.Forall ExportsRetry.known_status (exports Demo.acme_db)).
  { simpl. constructor; [right; right; reflexivity|].
    constructor; [right; left; reflexivity | constructor]. }
  split; [exact H1|]. split; [exact H2|]. cbv zeta.
  destruct (exports_over_time Demo.uuid_shape Demo.uuid_shape Demo.acme_db []
              [ ExportsRetry.Retry Demo.acme_agent "6fa459ea-ee8a-4ca4-894e-db77e160355e" 30;
                ExportsRetry.Fire (mkDraws "1234567" 42 43) 40;
                ExportsRetry.Create Demo.acme_agent "10.0.0.1" Demo.jira_body 50
                  "c56a4180-65aa-42ec-a945-5fd21dec0538"
                  "16fd2706-8baf-433b-82eb-8c7fada847da";
                ExportsRetry.Fire (mkDraws "7654321" 7 8) 60 ] H1 H2)
    as (Hnd & Hks & Hkept).
  split; [exact Hnd|]. split; [exact Hks|]. split.
  { destruct (Hkept Demo.done_export) as (after & Hin & Hid & Hst).
    - simpl. right. left. reflexivity.
    - reflexivity.
    - exists Demo.done_export, after. split; [simpl; right; left; reflexivity|].
      split; [reflexivity|]. split; [exact Hin|]. split; [exact Hid | exact Hst]. }
  split; [reflexivity|]. vm_compute. reflexivity.
Defined.

(** The one job of the queue is processed to the end. *)
Lemma processJob_run_witness :
  Queue.current DemoMore.one_job = None /\
  Queue.processingQueue DemoMore.one_job = [Queue.generateJobId 5 "k3x9q1z7a"] /\
  let '(st', obs) :=
    Queue.run DemoMore.one_job
      [Queue.Dequeue; Queue.Tick; Queue.Tick; Queue.Tick; Queue.Tick;
       Queue.Finish (Ok "Customer called in.") 9000] in
  obs = [Queue.Shifted (Queue.generateJobId 5 "k3x9q1z7a");
         Queue.Started (Queue.generateJobId 5 "k3x9q1z7a")] /\
  Queue.processingQueue st' = [] /\ Queue.current st' = None /\
  option_map Queue.job_status (Queue.getJobStatus (Queue.generateJobId 5 "k3x9q1z7a") st')
  = Some Queue.completed.
Proof.
  assert (Hc : Queue.current DemoMore.one_job = None) by reflexivity.
  assert (Hq : Queue.processingQueue DemoMore.one_job = [Queue.generateJobId 5 "k3x9q1z7a"])
    by reflexivity.
  assert (Hj : Queue.jobs DemoMore.one_job !! Queue.generateJobId 5 "k3x9q1z7a" = Some 0%nat)
    by apply lookup_insert_eq.
  split; [exact Hc|]. split; [exact Hq|].
  pose proof (processJob_run DemoMore.one_job _ _ _ _ (Ok "Customer called in.") 9000
                Hc Hq Hj eq_refl) as H.
  destruct (Queue.run DemoMore.one_job _) as [st' obs].
  destruct H as (Ho & Hp & Hcur & Hg).
  split; [exact Ho|]. split; [exact Hp|]. split; [exact Hcur|]. now rewrite Hg.
Defined.

(** The largest value [Math.random()] can return picks the last element. *)
Lemma random_pick_in_array_witness :
  ASR.random_ok (2 ^ 53 - 1) /\
  exists x, ASR.at_index ["Agent"; "Customer"]
              (ASR.random_index (2 ^ 53 - 1) (Z.of_nat (length ["Agent"; "Customer"])))
            = Some x /\ In x ["Agent"; "Customer"].
Proof.
  assert (Hr : ASR.random_ok (2 ^ 53 - 1)) by (unfold ASR.random_ok; simpl; lia).
  split; [exact Hr|].
  apply (random_pick_in_array ["Agent"; "Customer"] (2 ^ 53 - 1) Hr); [discriminate|].
  reflexivity.
Defined.

Lemma file_transcription_canned_witness :
  ASR.random_ok 0 /\
  exists l, In l ASRFile.supportedLanguages /\
            forall audioUrl, ASRFile.detectLanguage 0 audioUrl = Some l.
Proof.
  assert (Hr : ASR.random_ok 0) by (unfold ASR.random_ok; simpl; lia).
  split; [exact Hr|]. exact (proj2 (file_transcription_canned 0 Hr)).
Defined.

Lemma on_audio_chunk_one_message_witness :
  ASR.random_ok 0 /\
  exists t c s,
    ASR.on_audio_chunk (ASR.mkDraws 0 0 0) DemoMore.chunk_context
      (ASR.mkContext "session-4" "en-US" false) "" "2025-09-15T10:15:00Z"
    = [ASR.TranscriptMessage "session-4" "2025-09-15T10:15:00Z" t c s true] /\
    In t ASR.samplePhrases /\ (s = Some "Agent" \/ s = Some "Customer").
Proof.
  assert (Hr : ASR.random_ok 0) by (unfold ASR.random_ok; simpl; lia).
  split; [exact Hr|].
  destruct (on_audio_chunk_one_message (ASR.mkDraws 0 0 0) DemoMore.chunk_context
              (ASR.mkContext "session-4" "en-US" false) ""
              "2025-09-15T10:15:00Z" Hr Hr) as (t & c & s & Hm & Hin & Hs).
  exists t, c, s. split; [exact Hm|]. split; [exact Hin | exact Hs].
Defined.

(** Six requests to the routes written against the ORM, the fifth with a
    body that does not fit its schema. *)
Example orm_routes_demo :
  OrmRoutes.serve_all Demo.iso_parse DemoMore.schema_stub DemoMore.schema_stub Demo.live_db
    [ OrmRoutes.Generate Demo.agent_smith "10.0.0.1" "session-3";
      OrmRoutes.CreateSession Demo.agent_smith "10.0.0.1" DemoMore.create_body;
      OrmRoutes.AddEvent Demo.agent_smith "session-3" Demo.note_body;
      OrmRoutes.EndSession Demo.agent_smith "10.0.0.1" "session-3" (Some DemoMore.end_body);
      OrmRoutes.EndSession Demo.agent_smith "10.0.0.1" "session-3" None;
      OrmRoutes.DeleteReport Demo.agent_smith "10.0.0.1" "report-1" ]
  = (Demo.live_db, [500; 500; 500; 500; 400; 500]%Z).
Proof. reflexivity. Qed.

End MoreExamples.
